(** * kindest: the build engine of pkg/kindest/build.go

    A shallow embedding of the parts of the build engine that the
    specification speaks about: path resolution of the recipe file, the
    include list derived from the recipe, the digest cache, the per-module
    build procedure with its hooks, dependency fan-out with error
    aggregation, and the claim / subscribe / broadcast protocol that
    coordinates concurrent builds of one module.

    Go values are modelled as follows.  A Go [string] is a [string]; a Go
    [error] is an [option goerror], [None] being [nil]; a call that may
    panic returns an [outcome]; [int] lengths are [Z]; slices are lists and
    indexing is the partial lookup [!!]; the file system is a finite map
    from paths to nodes. *)

From Stdlib Require Import ZArith Lia Ascii String.
From stdpp Require Import base option list strings pretty gmap relations.

Local Open Scope Z_scope.

(** ** Outcomes of Go calls *)

(** Error values.  [ErrModuleNotCached] is the package-level sentinel that
    doBuild compares by identity; [Errorf msg] is an error made by
    [fmt.Errorf] or returned by a library, known by its message;
    [MultiError] is go-multierror's [*Error] with its list of entries. *)
#[warnings="-register-all"]
Inductive goerror : Type :=
  | ErrModuleNotCached
  | Errorf (msg : string)
  | MultiError (errs : list goerror).

(** A Go [error]: [None] is [nil]. *)
Abbreviation error := (option goerror).

(** The result of running a function body: it returns a value or the
    goroutine panics. *)
Inductive outcome (A : Type) : Type :=
  | Ok (a : A)
  | Panic (msg : string).
Arguments Ok {A} a.
Arguments Panic {A} msg.

Definition obind {A B} (x : outcome A) (k : A -> outcome B) : outcome B :=
  match x with
  | Ok a => k a
  | Panic msg => Panic msg
  end.

(** ** The Go standard library functions the engine calls *)

Module strings.

(** [strings.HasPrefix(s, prefix)] *)
Definition HasPrefix (s prefix : string) : bool := String.prefix prefix s.

Fixpoint rev_string (acc s : string) : string :=
  match s with
  | EmptyString => acc
  | String c s' => rev_string (String c acc) s'
  end.

(** [strings.HasSuffix(s, suffix)] *)
Definition HasSuffix (s suffix : string) : bool :=
  String.prefix (rev_string "" suffix) (rev_string "" s).

(** [strings.Split(s, "/")]: the substrings between the separators; [n]
    separators give [n + 1] pieces, so the result is never empty. *)
Fixpoint Split (s : string) : list string :=
  match s with
  | EmptyString => [EmptyString]
  | String c s' =>
      if Ascii.eqb c "/" then EmptyString :: Split s'
      else match Split s' with
           | [] => [String c EmptyString]
           | piece :: pieces => String c piece :: pieces
           end
  end.

(** [strings.Join(elems, sep)] *)
Fixpoint Join (elems : list string) (sep : string) : string :=
  match elems with
  | [] => ""
  | [e] => e
  | e :: rest => e +:+ sep +:+ Join rest sep
  end.

(** White space as [unicode.IsSpace] sees it.  A Go string is a sequence
    of bytes, which [strings.TrimSpace] and [strings.Fields] read as
    UTF-8: besides the six ASCII characters, U+0085 and U+00A0 (two bytes
    each) and U+1680, U+2000 to U+200A, U+2028, U+2029, U+202F, U+205F
    and U+3000 (three bytes each) are white space.  The first byte of
    every one of these encodings is no continuation byte, so an encoding
    found at any position of a text is a character of that text, also
    where the text is not valid UTF-8. *)
Definition asciiSpace (c : ascii) : bool :=
  let n := nat_of_ascii c in
  (Nat.eqb n 32 || (Nat.leb 9 n && Nat.leb n 13))%bool.

(** The bytes [c0 c1] encode U+0085 or U+00A0. *)
Definition space2 (c0 c1 : ascii) : bool :=
  (Nat.eqb (nat_of_ascii c0) 194 &&
   (Nat.eqb (nat_of_ascii c1) 133 || Nat.eqb (nat_of_ascii c1) 160))%bool.

(** The bytes [c0 c1 c2] encode one of the white space characters from
    U+1680 on. *)
Definition space3 (c0 c1 c2 : ascii) : bool :=
  let n0 := nat_of_ascii c0 in
  let n1 := nat_of_ascii c1 in
  let n2 := nat_of_ascii c2 in
  ((Nat.eqb n0 225 && Nat.eqb n1 154 && Nat.eqb n2 128)
   || (Nat.eqb n0 226 && Nat.eqb n1 128 &&
       ((Nat.leb 128 n2 && Nat.leb n2 138)
        || Nat.eqb n2 168 || Nat.eqb n2 169 || Nat.eqb n2 175))
   || (Nat.eqb n0 226 && Nat.eqb n1 129 && Nat.eqb n2 159)
   || (Nat.eqb n0 227 && Nat.eqb n1 128 && Nat.eqb n2 128))%bool.

(** The text without the white space at its start. *)
Fixpoint trimLeft (s : string) : string :=
  match s with
  | EmptyString => EmptyString
  | String c0 rest0 =>
      if asciiSpace c0 then trimLeft rest0
      else
        match rest0 with
        | EmptyString => s
        | String c1 rest1 =>
            if space2 c0 c1 then trimLeft rest1
            else
              match rest1 with
              | EmptyString => s
              | String c2 rest2 =>
                  if space3 c0 c1 c2 then trimLeft rest2 else s
              end
        end
  end.

(** The same from the end, on the reversed text: the bytes of the last
    character come first, last byte first. *)
Fixpoint trimLeftRev (r : string) : string :=
  match r with
  | EmptyString => EmptyString
  | String c0 rest0 =>
      if asciiSpace c0 then trimLeftRev rest0
      else
        match rest0 with
        | EmptyString => r
        | String c1 rest1 =>
            if space2 c1 c0 then trimLeftRev rest1
            else
              match rest1 with
              | EmptyString => r
              | String c2 rest2 =>
                  if space3 c2 c1 c0 then trimLeftRev rest2 else r
              end
        end
  end.

(** [strings.TrimSpace(s)] *)
Definition TrimSpace (s : string) : string :=
  rev_string "" (trimLeftRev (rev_string "" (trimLeft s))).

(** The field that has been read, if any; [cur] holds it reversed. *)
Definition flushField (cur : string) : list string :=
  match cur with
  | EmptyString => []
  | _ => [rev_string "" cur]
  end.

(** [strings.Fields(s)]: the maximal runs of characters that are no white
    space.  [cur] is the field being read, reversed. *)
Fixpoint fieldsFrom (cur : string) (s : string) : list string :=
  match s with
  | EmptyString => flushField cur
  | String c0 rest0 =>
      if asciiSpace c0 then flushField cur ++ fieldsFrom "" rest0
      else
        match rest0 with
        | EmptyString => fieldsFrom (String c0 cur) rest0
        | String c1 rest1 =>
            if space2 c0 c1 then flushField cur ++ fieldsFrom "" rest1
            else
              match rest1 with
              | EmptyString => fieldsFrom (String c0 cur) rest0
              | String c2 rest2 =>
                  if space3 c0 c1 c2 then flushField cur ++ fieldsFrom "" rest2
                  else fieldsFrom (String c0 cur) rest0
              end
        end
  end.

Definition Fields (s : string) : list string := fieldsFrom "" s.

End strings.

Module filepath.

(** Lexical processing of the path elements by [filepath.Clean]: empty
    and [.] elements are dropped, [..] removes the element before it, is
    dropped at the root of a rooted path and is kept at the start of a
    relative one.  [stack] holds the elements kept so far, last first. *)
Fixpoint cleanElems (rooted : bool) (stack elems : list string)
  : list string :=
  match elems with
  | [] => rev stack
  | e :: rest =>
      if (String.eqb e "" || String.eqb e ".")%bool then
        cleanElems rooted stack rest
      else if String.eqb e ".." then
        match stack with
        | top :: stack' =>
            if String.eqb top ".." then cleanElems rooted (e :: stack) rest
            else cleanElems rooted stack' rest
        | [] =>
            if rooted then cleanElems rooted [] rest
            else cleanElems rooted [e] rest
        end
      else cleanElems rooted (e :: stack) rest
  end.

(** [filepath.Clean(path)] with [/] as the separator. *)
Definition Clean (path : string) : string :=
  let rooted := strings.HasPrefix path "/" in
  let body := strings.Join (cleanElems rooted [] (strings.Split path)) "/" in
  let out := if rooted then "/" +:+ body else body in
  if String.eqb out "" then "." else out.

(** [filepath.Join(elem...)]: the elements from the first non-empty one
    on, joined by the separator and cleaned; the empty string when every
    element is empty. *)
Fixpoint Join (elem : list string) : string :=
  match elem with
  | [] => ""
  | e :: rest =>
      if String.eqb e "" then Join rest
      else Clean (strings.Join elem "/")
  end.

(** [filepath.Dir(path)]: the path up to and including its last
    separator, cleaned. *)
Definition Dir (path : string) : string :=
  match strings.Split path with
  | [] | [_] => Clean ""
  | parts => Clean (strings.Join (removelast parts) "/" +:+ "/")
  end.

(** [filepath.ToSlash(path)]: the identity where the separator is [/]. *)
Definition ToSlash (path : string) : string := path.

End filepath.

(** ** resolveDockerfile *)

(** The loop [for i := 0; i < n; i++] of resolveDockerfile, entered with
    [todo = n - i] iterations left: it stops at the first index where the
    two component lists differ and counts the indices before it.  Indexing
    [dockerfileParts[i]] past the end panics. *)
Fixpoint commonLoop (todo : nat) (i common : nat)
    (dockerfileParts contextParts : list string) : outcome nat :=
  match todo with
  | O => Ok common
  | S todo' =>
      match dockerfileParts !! i with
      | None => Panic "index out of range"
      | Some d =>
          match contextParts !! i with
          | None => Panic "index out of range"
          | Some c =>
              if String.eqb d c
              then commonLoop todo' (S i) (S common) dockerfileParts contextParts
              else Ok common
          end
      end
  end.

(** The loop bound: [if m, o := len(dockerfileParts), len(contextParts);
    m < 0 { n = m } else { n = o }]. *)
Definition loopBound (dockerfileParts contextParts : list string) : Z :=
  let m := Z.of_nat (length dockerfileParts) in
  let o := Z.of_nat (length contextParts) in
  if m <? 0 then m else o.

(** The slice expression [s[from:]], which panics past the end. *)
Definition sliceFrom {A} (s : list A) (from : nat) : outcome (list A) :=
  if (from <=? length s)%nat then Ok (drop from s)
  else Panic "slice bounds out of range".

Definition resolveDockerfile (manifestPath dockerfilePath contextPath : string)
    : outcome (string * error) :=
  let rootDir := filepath.Dir manifestPath in
  let dockerfilePath := filepath.Clean (filepath.Join [rootDir; dockerfilePath]) in
  let contextPath := filepath.Clean (filepath.Join [rootDir; contextPath]) in
  let dockerfileParts := strings.Split dockerfilePath in
  let contextParts := strings.Split contextPath in
  let n := loopBound dockerfileParts contextParts in
  obind (commonLoop (Z.to_nat n) 0 0 dockerfileParts contextParts) (fun common =>
  obind (sliceFrom dockerfileParts common) (fun rest =>
  Ok (filepath.ToSlash (filepath.Join rest), None))).

(** ** Errors: messages and go-multierror *)

(** go-multierror's default [ListFormatFunc], applied to the messages of
    the entries. *)
Definition ListFormatFunc (es : list string) : string :=
  match es with
  | [e] => "1 error occurred:" +:+ "
	* " +:+ e +:+ "

"
  | _ =>
      pretty (length es) +:+ " errors occurred:" +:+ "
	" +:+ strings.Join (List.map (fun e => "* " +:+ e) es) "
	" +:+ "

"
  end.

(** [err.Error()] *)
Fixpoint Error_ (e : goerror) : string :=
  match e with
  | ErrModuleNotCached => "module is not cached"
  | Errorf msg => msg
  | MultiError errs => ListFormatFunc (List.map Error_ errs)
  end.

(** The entries an error contributes when appended to a multi-error: the
    entries of a multi-error, the error itself otherwise. *)
Definition flattenError (e : goerror) : list goerror :=
  match e with
  | MultiError errs => errs
  | _ => [e]
  end.

(** [multierror.Append(err, e)] for a non-nil [e]. *)
Definition multierror_Append (err : error) (e : goerror) : goerror :=
  match err with
  | Some (MultiError errs) => MultiError (errs ++ flattenError e)
  | Some other => MultiError (other :: flattenError e)
  | None => MultiError (flattenError e)
  end.

(** ** The file system *)

Inductive node : Type :=
  | File (content : string)
  | Directory.

Abbreviation FileSystem := (gmap string node).

Definition IsDir (info : node) : bool :=
  match info with
  | Directory => true
  | File _ => false
  end.

Module os.

(** The kinds of error that the code or its callers tell apart. *)
Inductive errno : Type :=
  | ENOENT
  | ENOTDIR
  | EISDIR.

Definition errnoText (e : errno) : string :=
  match e with
  | ENOENT => "no such file or directory"
  | ENOTDIR => "not a directory"
  | EISDIR => "is a directory"
  end.

(** Why a path that is not in the file system cannot be reached: the
    nearest ancestor that exists is a regular file (ENOTDIR), or it is a
    directory that lacks the next component (ENOENT).  [fuel] bounds the
    number of ancestors, the length of the path suffices. *)
Fixpoint lookupErrorFrom (fuel : nat) (fs : FileSystem) (path : string)
  : errno :=
  match fuel with
  | O => ENOENT
  | S fuel' =>
      let parent := filepath.Dir path in
      if String.eqb parent path then ENOENT
      else
        match fs !! parent with
        | Some (File _) => ENOTDIR
        | Some Directory => ENOENT
        | None => lookupErrorFrom fuel' fs parent
        end
  end.

Definition lookupError (fs : FileSystem) (path : string) : errno :=
  lookupErrorFrom (String.length path) fs path.

(** [os.Stat(path)]: the node at [path]; [None] when the call fails. *)
Definition Stat (fs : FileSystem) (path : string) : option node :=
  fs !! path.

(** The error of [os.Stat(path)]: [None] when the call succeeds. *)
Definition StatError (fs : FileSystem) (path : string) : option errno :=
  match fs !! path with
  | Some _ => None
  | None => Some (lookupError fs path)
  end.

(** [os.IsNotExist(err)] *)
Definition IsNotExist (err : option errno) : bool :=
  match err with
  | Some ENOENT => true
  | _ => false
  end.

(** [os.MkdirAll(path, perm)]: succeeds on an existing directory, fails
    on an existing file, and otherwise creates the parent first.  [fuel]
    bounds the number of ancestors, the length of the path suffices. *)
Fixpoint MkdirAllFrom (fuel : nat) (fs : FileSystem) (path : string)
  : error * FileSystem :=
  match fs !! path with
  | Some Directory => (None, fs)
  | Some (File _) => (Some (Errorf ("mkdir " +:+ path +:+ ": not a directory")), fs)
  | None =>
      match fuel with
      | O => (None, <[path := Directory]> fs)
      | S fuel' =>
          let parent := filepath.Dir path in
          if String.eqb parent path then (None, <[path := Directory]> fs)
          else
            match MkdirAllFrom fuel' fs parent with
            | (Some e, fs') => (Some e, fs')
            | (None, fs') => (None, <[path := Directory]> fs')
            end
      end
  end.

Definition MkdirAll (fs : FileSystem) (path : string) : error * FileSystem :=
  MkdirAllFrom (String.length path) fs path.

(** [os.Open(path)]: the node that was opened, or the error. *)
Definition Open (fs : FileSystem) (path : string) : option node * error :=
  match fs !! path with
  | Some f => (Some f, None)
  | None =>
      (None, Some (Errorf ("open " +:+ path +:+ ": "
                           +:+ errnoText (lookupError fs path))))
  end.

(** [os.OpenFile(path, O_WRONLY|O_CREATE|O_TRUNC, perm)]: fails on a
    directory and when the parent is not a directory; otherwise the file
    exists afterwards and is empty. *)
Definition OpenTrunc (fs : FileSystem) (path : string) : error * FileSystem :=
  match fs !! path with
  | Some Directory => (Some (Errorf ("open " +:+ path +:+ ": is a directory")), fs)
  | _ =>
      match fs !! filepath.Dir path with
      | Some Directory => (None, <[path := File ""]> fs)
      | _ =>
          (Some (Errorf ("open " +:+ path +:+ ": "
                         +:+ errnoText (lookupError fs path))), fs)
      end
  end.

(** [f.Write(data)] on the file opened at [path]. *)
Definition Write (fs : FileSystem) (path data : string) : FileSystem :=
  <[path := File data]> fs.

(** The body of [ioutil.ReadFile(path)]. *)
Definition ReadFile (fs : FileSystem) (path : string) : string * error :=
  match fs !! path with
  | Some (File content) => (content, None)
  | Some Directory => ("", Some (Errorf ("read " +:+ path +:+ ": is a directory")))
  | None =>
      ("", Some (Errorf ("open " +:+ path +:+ ": "
                         +:+ errnoText (lookupError fs path))))
  end.

End os.

(** ** createDockerInclude *)

(** The pattern lines handed to the gitignore library stand for the
    matcher built from them. *)
Abbreviation IgnoreMatcher := (list string).

(** The tokens of [bufio.Scanner] with its default line splitting and its
    default buffer: the text between line feeds, without the final
    carriage return of a line; a last line without a line feed is a token
    when it is not empty.  The buffer holds [MaxScanTokenSize] bytes: at a
    line of that many bytes or more before its line feed, [Scan] returns
    false and the tokens end there.  (The scanner records the error, and
    createDockerInclude never asks for it.)  [cur] is the line being
    read, reversed, and [used] its length. *)
Definition MaxScanTokenSize : N := 65536.

Definition dropCR (line : string) : string :=
  match strings.rev_string "" line with
  | String c rest =>
      if Nat.eqb (nat_of_ascii c) 13 then strings.rev_string "" rest else line
  | EmptyString => line
  end.

Fixpoint scanLinesFrom (cur : string) (used : N) (data : string) : list string :=
  match data with
  | EmptyString =>
      match cur with
      | EmptyString => []
      | _ => [dropCR (strings.rev_string "" cur)]
      end
  | String c data' =>
      if Nat.eqb (nat_of_ascii c) 10
      then dropCR (strings.rev_string "" cur) :: scanLinesFrom "" 0 data'
      else if (used + 1 <? MaxScanTokenSize)%N
           then scanLinesFrom (String c cur) (used + 1) data'
           else []
  end.

Definition scanLines (data : string) : list string := scanLinesFrom "" 0 data.

(** [for _, other := range parts[:i+1] { full = filepath.Join(full, other) }] *)
Definition joinPrefix (parts : list string) (i : nat) : string :=
  fold_left (fun full other => filepath.Join [full; other]) (take (S i) parts) "".

(** The search of [addedPaths] for [full] and the append when it is not
    found. *)
Definition addPath (addedPaths : list string) (full : string) : list string :=
  if existsb (fun item => String.eqb item full) addedPaths then addedPaths
  else addedPaths ++ [full].

(** [for i := range parts { ... }] *)
Definition addPrefixes (parts : list string) (addedPaths : list string)
    : list string :=
  fold_left (fun acc i => addPath acc (joinPrefix parts i))
            (seq 0 (length parts)) addedPaths.

(** The scanner loop of createDockerInclude over the remaining lines. *)
Fixpoint includeLoop (fs : FileSystem) (contextPath : string)
    (addedPaths : list string) (lines : list string)
    : outcome (option IgnoreMatcher * error) :=
  match lines with
  | [] => Ok (Some addedPaths, None)
  | text :: rest =>
      let line := strings.TrimSpace text in
      if (Nat.eqb (String.length line) 0 || strings.HasPrefix line "#")%bool then
        includeLoop fs contextPath addedPaths rest
      else if (strings.HasPrefix line "COPY" || strings.HasPrefix line "ADD")%bool then
        match strings.Fields line !! 1%nat with
        | None => Panic "index out of range"
        | Some rel =>
            if negb (strings.HasPrefix rel "--from") then
              let abs := filepath.Clean (filepath.Join [contextPath; rel]) in
              match os.Stat fs abs with
              | None => Ok (None, Some (Errorf ("failed to stat " +:+ abs)))
              | Some info =>
                  let rel :=
                    if (IsDir info && negb (strings.HasSuffix rel "/"))%bool
                    then rel +:+ "/" else rel in
                  let parts := strings.Split rel in
                  includeLoop fs contextPath (addPrefixes parts addedPaths) rest
              end
            else includeLoop fs contextPath addedPaths rest
        end
      else includeLoop fs contextPath addedPaths rest
  end.

(** The lines that the scanner yields on the opened recipe.  A directory
    can be opened but not read: the first [Scan] returns false, and the
    error is not looked at. *)
Definition scannedLines (f : option node) : list string :=
  match f with
  | Some (File content) => scanLines content
  | _ => []
  end.

Definition createDockerInclude (fs : FileSystem)
    (contextPath dockerfilePath : string)
    : outcome (option IgnoreMatcher * error) :=
  match os.Open fs dockerfilePath with
  | (_, Some e) => Ok (None, Some e)
  | (f, None) => includeLoop fs contextPath [] (scannedLines f)
  end.

(** ** Modules and build options *)

Record BuildOptions : Type := {
  NoCache : bool;
  SkipHooks : bool;
  Builder : string;
  Repository : string;
  Tag : string;
  NoPush : bool;
}.

(** The fields of the [build] block of a manifest that the engine reads. *)
Record BuildSpec : Type := {
  Name : string;
  Dockerfile : string;
  Context : string;
  Before : list string;
  After : list string;
}.

(** [Build] is a pointer in the source: [None] is a manifest without a
    [build] block. *)
Record KindestSpec : Type := {
  Build : option BuildSpec;
}.

#[warnings="-register-all"]
Inductive Module : Type := mkModule {
  Spec : KindestSpec;
  Dir : string;
  Dependencies : list Module;
}.

Inductive BuildStatus : Type :=
  | BuildStatusPending
  | BuildStatusInProgress
  | BuildStatusFailed
  | BuildStatusSucceeded.

#[global] Instance BuildStatus_eq_dec : EqDecision BuildStatus.
Proof. solve_decision. Defined.

(** ** What a build does to the world *)

(** The effects of a build that the specification talks about, in the
    order in which they happen. *)
Inductive Event : Type :=
  | EvHooks (label : string)
  | EvCommand (command : string)
  | EvLoadBuildContext
  | EvBackend (builder : string)
  | EvStat (path : string)
  | EvMkdirAll (path : string)
  | EvOpenTrunc (path : string)
  | EvWrite (path data : string)
  | EvReadFile (path : string)
  | EvRename (oldpath newpath : string).

Record World : Type := mkWorld {
  fs : FileSystem;
  trace : list Event;
}.

(** Go code running against the world. *)
Definition Go (A : Type) : Type := World -> A * World.

#[global] Instance Go_ret : MRet Go := fun A a w => (a, w).
#[global] Instance Go_bind : MBind Go :=
  fun A B k m w => let '(a, w') := m w in k a w'.

Definition emit (e : Event) : Go unit :=
  fun w => (tt, mkWorld (fs w) (trace w ++ [e])).

(** An operation on the file system, recorded in the trace. *)
Definition fsop {A} (e : Event) (op : FileSystem -> A * FileSystem) : Go A :=
  fun w => let '(a, fs') := op (fs w) in (a, mkWorld fs' (trace w ++ [e])).

(** [os.Stat(path)]: the node and the error. *)
Definition go_Stat (path : string) : Go (option node * option os.errno) :=
  fsop (EvStat path) (fun fs => ((os.Stat fs path, os.StatError fs path), fs)).

Definition go_MkdirAll (path : string) : Go error :=
  fsop (EvMkdirAll path) (fun fs => os.MkdirAll fs path).

Definition go_ReadFile (path : string) : Go (string * error) :=
  fsop (EvReadFile path) (fun fs => (os.ReadFile fs path, fs)).

(** [ioutil.WriteFile(path, data, perm)]: open with truncation, write,
    close.  The file is empty between the two steps. *)
Definition go_WriteFile (path data : string) : Go error :=
  err ← fsop (EvOpenTrunc path) (fun fs => os.OpenTrunc fs path);
  match err with
  | Some e => mret (Some e)
  | None =>
      _ ← fsop (EvWrite path data) (fun fs => (tt, os.Write fs path data));
      mret None
  end.

(** *** Collaborators

    The engine is parametric in what it calls.  [digestPathForManifest],
    [sanitizeImageName], the digest and the archive of a build context,
    the shell and the formatting of [fmt] are outside the source files.
    The two backends and [Module.loadBuildContext] (build.go, lines 782 to
    831) are in them and are taken as functions all the same:
    [loadBuildContext] gives what the call returns on a file system.  A
    call that does not return, because createDockerInclude or
    addFileToBuildContext panics inside it, ends the goroutine of the pool
    that runs Module.doBuild; [Module_doBuild] below describes the runs in
    which the call returns. *)
Class Collaborators : Type := {
  (** The digest record of a module directory,
      [<home>/.<app>/digests/<hash>]. *)
  digestPathForManifest : string -> string * error;
  sanitizeImageName : string -> string -> string -> string;
  BuildContext : Type;
  loadBuildContext :
    Module -> FileSystem -> (BuildContext * string * IgnoreMatcher) * error;
  Digest : BuildContext -> IgnoreMatcher -> string * error;
  Archive : BuildContext -> string * error;
  (** [exec.Command("sh", "-c", command).Run()] *)
  sh : string -> FileSystem -> error * FileSystem;
  buildDocker : Module -> string -> string -> string -> BuildOptions -> error;
  buildKaniko : Module -> string -> string -> string -> BuildOptions -> error;
  (** [fmt.Sprintf(format)] without operands. *)
  Sprintf0 : string -> string;
}.

Section Engine.

Context `{Collaborators}.

(** *** The digest cache *)

Definition CachedDigest (m : Module) : Go (string * error) :=
  match digestPathForManifest (Dir m) with
  | (_, Some e) => mret ("", Some e)
  | (path, None) =>
      r ← go_ReadFile path;
      match r with
      | (_, Some _) => mret ("", Some ErrModuleNotCached)
      | (body, None) => mret (body, None)
      end
  end.

Definition cacheDigest (m : Module) (digest : string) : Go error :=
  match digestPathForManifest (Dir m) with
  | (_, Some e) => mret (Some e)
  | (path, None) =>
      let dir := filepath.Dir path in
      st ← go_Stat dir;
      made ←
        (if os.IsNotExist st.2 then go_MkdirAll dir else mret None);
      match made with
      | Some e => mret (Some e)
      | None =>
          err ← go_WriteFile path digest;
          match err with
          | Some e => mret (Some e)
          | None => mret None
          end
      end
  end.

(** *** Hooks *)

Fixpoint runCommands (commands : list string) : Go error :=
  match commands with
  | [] => mret None
  | command :: rest =>
      err ← fsop (EvCommand command) (sh command);
      match err with
      | Some e => mret (Some e)
      | None => runCommands rest
      end
  end.

(** *** The backend dispatch, the package-level doBuild *)

Definition doBuildBackend (m : Module) (spec : BuildSpec)
    (buildContext relativeDockerfile : string) (options : BuildOptions)
  : Go error :=
  let dest := sanitizeImageName (Repository options) (Name spec) (Tag options) in
  if (String.eqb (Builder options) "" || String.eqb (Builder options) "docker")%bool then
    _ ← emit (EvBackend "docker");
    match buildDocker m dest buildContext relativeDockerfile options with
    | Some e => mret (Some (Errorf ("docker: " +:+ Error_ e)))
    | None => mret None
    end
  else if String.eqb (Builder options) "kaniko" then
    _ ← emit (EvBackend "kaniko");
    match buildKaniko m dest buildContext relativeDockerfile options with
    | Some e => mret (Some (Errorf ("kaniko: " +:+ Error_ e)))
    | None => mret None
    end
  else mret (Some (Errorf ("unknown builder '" +:+ Builder options +:+ "'"))).

(** *** Module.doBuild *)

(** [if !options.SkipHooks { if err := runCommands(cmds); err != nil
    { return fmt.Errorf(label + ": %v", err) } }]; the trace records
    which of the two hook phases is entered. *)
Definition runHooks (options : BuildOptions) (label : string)
    (commands : list string) : Go error :=
  if negb (SkipHooks options) then
    _ ← emit (EvHooks label);
    err ← runCommands commands;
    match err with
    | Some e => mret (Some (Errorf (label +:+ ": " +:+ Error_ e)))
    | None => mret None
    end
  else mret None.

(** The error comparison [err != nil && err != ErrModuleNotCached]. *)
Definition isOtherError (err : error) : bool :=
  match err with
  | None => false
  | Some ErrModuleNotCached => false
  | Some _ => true
  end.

(** The part of Module.doBuild after the cache test: archive, backend,
    store the digest, post-build hooks. *)
Definition buildAndStore (m : Module) (spec : BuildSpec)
    (options : BuildOptions) (buildContext : BuildContext)
    (relativeDockerfile digest : string) : Go error :=
  match Archive buildContext with
  | (_, Some e) => mret (Some e)
  | (tar, None) =>
  built ← doBuildBackend m spec tar relativeDockerfile options;
  match built with
  | Some e => mret (Some e)
  | None =>
  stored ← cacheDigest m digest;
  match stored with
  | Some e => mret (Some e)
  | None =>
  post ← runHooks options "post-build hook failure" (After spec);
  match post with
  | Some e => mret (Some e)
  | None => mret None
  end end end end.

(** Module.doBuild, for the runs in which [m.loadBuildContext()]
    returns; what the call returns is the collaborator
    [loadBuildContext]. *)
Definition Module_doBuild (m : Module) (spec : BuildSpec)
    (options : BuildOptions) : Go error :=
  pre ← runHooks options "pre-build hook failure" (Before spec);
  match pre with
  | Some e => mret (Some e)
  | None =>
  loaded ← fsop EvLoadBuildContext (fun fs => (loadBuildContext m fs, fs));
  match loaded with
  | (_, Some e) => mret (Some e)
  | ((buildContext, relativeDockerfile, include), None) =>
  match Digest buildContext include with
  | (_, Some e) => mret (Some e)
  | (digest, None) =>
  cached ← CachedDigest m;
  let '(cachedDigest, err) := cached in
  if isOtherError err then mret err
  else if (String.eqb digest cachedDigest && negb (NoCache options))%bool then
    mret None
  else buildAndStore m spec options buildContext relativeDockerfile digest
  end end end.

(** *** Dependency fan-out: Module.buildDependencies and collectErrors *)

(** What the goroutine started for [dependency] sends on its channel.
    [depBuild] is the outcome of [dependency.Build(options)]. *)
Definition dependencyResult (depBuild : Module -> BuildOptions -> error)
    (options : BuildOptions) (dependency : Module) : error :=
  match depBuild dependency options with
  | Some e => Some (Errorf (Dir dependency +:+ ": " +:+ Error_ e))
  | None => None
  end.

(** One iteration of collectErrors on the value received from a channel. *)
Definition collectOne (multi : error) (err : error) : error :=
  match err with
  | Some e => Some (multierror_Append multi e)
  | None => multi
  end.

(** collectErrors on the values received from [dones], in the order of
    the channels. *)
Definition collectErrors (received : list error) : error :=
  fold_left collectOne received None.

Definition Module_buildDependencies
    (depBuild : Module -> BuildOptions -> error)
    (m : Module) (options : BuildOptions) : error :=
  collectErrors (List.map (dependencyResult depBuild options) (Dependencies m)).

(** The goroutines and the collecting loop as a transition system.
    [dones] are the buffered channels, [None] while nothing was sent;
    [next] is the index of the channel collectErrors receives from;
    [multi] is its accumulator. *)
Record FanIn : Type := mkFanIn {
  dones : list (option error);
  next : nat;
  multi : error;
}.

Definition fanInit (n : nat) : FanIn := mkFanIn (replicate n None) 0 None.

Inductive fanAction : Type :=
  | Finish (i : nat)   (* goroutine [i] sends its result and closes *)
  | Receive.           (* collectErrors receives from [dones[next]] *)

(** [results] are the values the goroutines compute.  A receive on an
    empty channel blocks: there is no step. *)
Definition fanStep (results : list error) (a : fanAction) (s : FanIn)
  : option FanIn :=
  match a with
  | Finish i =>
      match dones s !! i, results !! i with
      | Some None, Some r => Some (mkFanIn (<[i := Some r]> (dones s)) (next s) (multi s))
      | _, _ => None
      end
  | Receive =>
      match dones s !! next s with
      | Some (Some r) => Some (mkFanIn (dones s) (S (next s)) (collectOne (multi s) r))
      | _ => None
      end
  end.

Fixpoint fanRun (results : list error) (schedule : list fanAction)
    (s : FanIn) : option FanIn :=
  match schedule with
  | [] => Some s
  | a :: rest =>
      match fanStep results a s with
      | Some s' => fanRun results rest s'
      | None => None
      end
  end.

(** *** Module.Build: the work of the caller that won the claim *)

(** Modelled from the spec: the job handler of the worker pool is not in
    the source files; the worker that receives [(module, options)]
    assembles the context, consults the cache, runs the backend if stale
    and refreshes the cache, which is Module.doBuild. *)
Definition pool_Process (m : Module) (spec : BuildSpec)
    (options : BuildOptions) : Go error :=
  Module_doBuild m spec options.

(** The body of Build between the claim and the deferred broadcast. *)
Definition Module_Build_body (depBuild : Module -> BuildOptions -> error)
    (m : Module) (options : BuildOptions) : Go error :=
  match Module_buildDependencies depBuild m options with
  | Some e => mret (Some e)
  | None =>
      match Build (Spec m) with
      | None => mret None
      | Some spec =>
          err ← pool_Process m spec options;
          match err with
          | Some e => mret (Some e)
          | None => mret None
          end
      end
  end.

(** *** claim, subscribe, broadcast: concurrent callers of Build *)

(** The mutable fields of a Module.  [err] is the pointer [m.err], [None]
    while it is nil; a subscriber is known by the index of its caller;
    [subscribersL] tells whether the mutex is held. *)
Record Shared : Type := mkShared {
  status : BuildStatus;
  err : option string;
  subscribers : list nat;
  subscribersL : bool;
}.

Definition Status (m : Shared) : BuildStatus := status m.

Definition setStatus (m : Shared) (st : BuildStatus) : Shared :=
  mkShared st (err m) (subscribers m) (subscribersL m).

(** [atomic.CompareAndSwapInt32(&m.status, Pending, InProgress)] *)
Definition claim (m : Shared) : bool * Shared :=
  if decide (status m = BuildStatusPending)
  then (true, setStatus m BuildStatusInProgress)
  else (false, m).

(** [atomic.StorePointer(&m.err, unsafe.Pointer(&msg))] *)
Definition storeErr (m : Shared) (msg : string) : Shared :=
  mkShared (status m) (Some msg) (subscribers m) (subscribersL m).

Definition setLock (m : Shared) (held : bool) : Shared :=
  mkShared (status m) (err m) (subscribers m) held.

(** Where a caller of Build stands.  The atomic accesses to the shared
    fields are the steps; the caller that won the claim goes through
    [Building] and the four steps of broadcast. *)
Inductive pc : Type :=
  | AtClaim                       (* before [m.claim()] *)
  | AtStatus                      (* the claim failed, before [m.Status()] *)
  | AtLoadErr                     (* saw Failed, before [atomic.LoadPointer(&m.err)] *)
  | AtSubscribe                   (* saw InProgress, before [m.subscribe(done)] *)
  | Waiting                       (* in [<-done] *)
  | Building                      (* owner: dependencies and doBuild *)
  | AtBroadcast (e : error)       (* owner: before [m.subscribersL.Lock()] *)
  | AtSetStatus (e : error)       (* owner: before [m.setStatus(...)] *)
  | AtStoreErr (e : goerror)      (* owner: before [atomic.StorePointer(&m.err, ...)] *)
  | AtDeliver (e : error)         (* owner: before the loop over the subscribers *)
  | Returned (e : error)
  | Panicked (msg : string).

Record Config : Type := mkConfig {
  shared : Shared;
  chans : list (option error);   (* [done] of each caller: the value sent *)
  callers : list pc;
  world : World;
}.

Definition setPc (c : Config) (i : nat) (p : pc) : Config :=
  mkConfig (shared c) (chans c) (<[i := p]> (callers c)) (world c).

Definition setShared (c : Config) (m : Shared) : Config :=
  mkConfig m (chans c) (callers c) (world c).

Definition send (c : Config) (i : nat) (e : error) : Config :=
  mkConfig (shared c) (<[i := Some e]> (chans c)) (callers c) (world c).

(** The body of subscribe, run under the mutex by caller [i]. *)
Definition subscribe (c : Config) (i : nat) : Config :=
  let m := shared c in
  match Status m with
  | BuildStatusInProgress =>
      setPc (setShared c (mkShared (status m) (err m) (subscribers m ++ [i]) (subscribersL m)))
            i Waiting
  | BuildStatusFailed =>
      match err m with
      | Some box => setPc (send c i (Some (Errorf (Sprintf0 box)))) i Waiting
      | None => setPc c i (Panicked "nil pointer dereference")
      end
  | BuildStatusSucceeded => setPc (send c i None) i Waiting
  | BuildStatusPending => setPc c i (Panicked "unreachable")
  end.

(** One step of caller [i]; [None] when the caller is blocked, has
    finished or does not exist.  [options i] are the options of the
    caller's Build. *)
Definition step (depBuild : Module -> BuildOptions -> error) (m : Module)
    (options : nat -> BuildOptions) (i : nat) (c : Config) : option Config :=
  match callers c !! i with
  | None => None
  | Some p =>
      match p with
      | AtClaim =>
          let '(won, sh') := claim (shared c) in
          Some (setPc (setShared c sh') i (if won then Building else AtStatus))
      | AtStatus =>
          Some (setPc c i
            match Status (shared c) with
            | BuildStatusInProgress => AtSubscribe
            | BuildStatusFailed => AtLoadErr
            | BuildStatusSucceeded => Returned None
            | BuildStatusPending => Panicked "unreachable"
            end)
      | AtLoadErr =>
          Some (setPc c i
            match err (shared c) with
            | None => Panicked "unreachable"
            | Some box => Returned (Some (Errorf (Sprintf0 box)))
            end)
      | AtSubscribe =>
          if subscribersL (shared c) then None
          else Some (subscribe c i)
      | Waiting =>
          match chans c !! i with
          | Some (Some e) => Some (setPc c i (Returned e))
          | _ => None
          end
      | Building =>
          let '(e, w) := Module_Build_body depBuild m (options i) (world c) in
          Some (setPc (mkConfig (shared c) (chans c) (callers c) w) i (AtBroadcast e))
      | AtBroadcast e =>
          if subscribersL (shared c) then None
          else Some (setPc (setShared c (setLock (shared c) true)) i (AtSetStatus e))
      | AtSetStatus e =>
          match e with
          | Some e' =>
              Some (setPc (setShared c (setStatus (shared c) BuildStatusFailed))
                          i (AtStoreErr e'))
          | None =>
              Some (setPc (setShared c (setStatus (shared c) BuildStatusSucceeded))
                          i (AtDeliver None))
          end
      | AtStoreErr e' =>
          Some (setPc (setShared c (storeErr (shared c) (Error_ e')))
                      i (AtDeliver (Some e')))
      | AtDeliver e =>
          let c' := foldl (fun c s => send c s e) c (subscribers (shared c)) in
          Some (setPc (setShared c' (setLock (shared c') false)) i (Returned e))
      | Returned _ => None
      | Panicked _ => None
      end
  end.

(** A schedule names the caller that moves at each step. *)
Fixpoint run (depBuild : Module -> BuildOptions -> error) (m : Module)
    (options : nat -> BuildOptions) (schedule : list nat) (c : Config)
  : option Config :=
  match schedule with
  | [] => Some c
  | i :: rest =>
      match step depBuild m options i c with
      | Some c' => run depBuild m options rest c'
      | None => None
      end
  end.

(** [n] callers about to call Build on a module nobody has claimed. *)
Definition initial (n : nat) (w : World) : Config :=
  mkConfig (mkShared BuildStatusPending None [] false)
           (replicate n None) (replicate n AtClaim) w.

(** The number of backend builds in a trace. *)
Definition isBackend (e : Event) : bool :=
  match e with
  | EvBackend _ => true
  | _ => false
  end.

Definition backendCalls (t : list Event) : nat :=
  length (filter (fun e => isBackend e = true) t).

End Engine.

(** ** A concrete environment

    A small file system and collaborators on which the engine can be run:
    a context [/ctx] with a recipe that copies the directory [app], a
    module in [/repo/web], and a digest cache under [/home/u/.kindest]. *)

Definition recipeFS : FileSystem :=
  {[ "/ctx" := Directory;
     "/ctx/app" := Directory;
     "/ctx/app/main.go" := File "package main";
     "/ctx/Dockerfile" := File "FROM alpine:3.11.6
COPY app /srv
" ]}.

(** The collaborators of the concrete environment.  The digest record of a
    directory is named after the directory with its separators replaced;
    the build context is the text of the recipe and its digest is that
    text behind a prefix; the shell fails on commands that start with
    [exit] and the backends fail on a recipe that runs [exit 1]. *)
Fixpoint flatName (dir : string) : string :=
  match dir with
  | EmptyString => EmptyString
  | String c dir' =>
      String (if Ascii.eqb c "/" then "_"%char else c) (flatName dir')
  end.

Definition failingRecipe : string := "FROM alpine:3.11.6
RUN exit 1".

Definition demoBackend (m : Module) (dest tar rel : string)
    (options : BuildOptions) : error :=
  if String.eqb tar failingRecipe
  then Some (Errorf "The command '/bin/sh -c exit 1' returned a non-zero code: 1")
  else None.

#[global] Instance demo : Collaborators := {|
  digestPathForManifest := fun dir =>
    ("/home/u/.kindest/digests/" +:+ flatName dir, None);
  sanitizeImageName := fun repository name tag =>
    (if String.eqb repository "" then "" else repository +:+ "/")
    +:+ name +:+ ":" +:+ (if String.eqb tag "" then "latest" else tag);
  BuildContext := string;
  loadBuildContext := fun m fs =>
    match fs !! (Dir m +:+ "/Dockerfile") with
    | Some (File recipe) => ((recipe, "Dockerfile", []), None)
    | _ => (("", "", []), Some (Errorf "failed to stat Dockerfile"))
    end;
  Digest := fun recipe _ => ("sha256:" +:+ recipe, None);
  Archive := fun recipe => (recipe, None);
  sh := fun command fs =>
    if strings.HasPrefix command "exit"
    then (Some (Errorf "exit status 1"), fs) else (None, fs);
  buildDocker := demoBackend;
  buildKaniko := demoBackend;
  Sprintf0 := fun format => format;
|}.

Definition defaultOptions : BuildOptions :=
  {| NoCache := false; SkipHooks := false; Builder := "";
     Repository := ""; Tag := ""; NoPush := false |}.

Definition webSpec : BuildSpec :=
  {| Name := "test/web"; Dockerfile := ""; Context := "";
     Before := ["make generate"]; After := ["make clean"] |}.

(** A module with a recipe and hooks, without dependencies. *)
Definition web : Module :=
  mkModule {| Build := Some webSpec |} "/repo/web" [].

Definition webRecipe : string := "FROM alpine:3.11.6
CMD echo hello".

(** The module directory and a home directory without a cache. *)
Definition freshFS : FileSystem :=
  {[ "/" := Directory; "/home" := Directory; "/home/u" := Directory;
     "/repo" := Directory; "/repo/web" := Directory;
     "/repo/web/Dockerfile" := File webRecipe ]}.

(** The same after a successful build: the digest of the recipe is
    recorded. *)
Definition cachedFS : FileSystem :=
  <["/home/u/.kindest/digests/_repo_web" := File ("sha256:" +:+ webRecipe)]>
  (<["/home/u/.kindest/digests" := Directory]>
  (<["/home/u/.kindest" := Directory]> freshFS)).

(** The record of an earlier build of a different recipe. *)
Definition staleFS : FileSystem :=
  <["/home/u/.kindest/digests/_repo_web" := File "sha256:FROM alpine:3.10"]> cachedFS.

(** A home directory in which the name of the cache root is taken by a
    regular file. *)
Definition blockedFS : FileSystem :=
  <["/home/u/.kindest" := File ""]> freshFS.

(** The module directory with a recipe whose build fails. *)
Definition brokenFS : FileSystem :=
  <["/repo/web/Dockerfile" := File failingRecipe]> freshFS.

Definition noDeps : Module -> BuildOptions -> error := fun _ _ => None.

(** ** Notions used to state the properties *)

(** The accumulator of collectErrors that holds the entries [es]. *)
Definition multiOf (es : list goerror) : error :=
  match es with
  | [] => None
  | _ => Some (MultiError es)
  end.

(** What holds of the channels and of the accumulator of the fan-in
    throughout: a channel holds the result of its own goroutine, the
    channels before [next] were filled, and the accumulator has collected
    them in order. *)
Record fanInv (results : list error) (s : FanIn) : Prop := {
  inv_length : length (dones s) = length results;
  inv_next : (next s <= length results)%nat;
  inv_sent : forall i r, dones s !! i = Some (Some r) -> results !! i = Some r;
  inv_done : forall i, (i < next s)%nat -> exists r, dones s !! i = Some (Some r);
  inv_multi : multi s = collectErrors (take (next s) results);
}.

(** *** The shape of the trace of Module.doBuild *)

Definition isCommand (e : Event) : Prop :=
  match e with
  | EvCommand _ => True
  | _ => False
  end.

Definition isFileOp (e : Event) : Prop :=
  match e with
  | EvStat _ | EvMkdirAll _ | EvOpenTrunc _ | EvWrite _ _
  | EvReadFile _ | EvRename _ _ => True
  | _ => False
  end.

Definition preLabel : string := "pre-build hook failure".
Definition postLabel : string := "post-build hook failure".

(** The events of one hook phase: none when hooks are skipped, otherwise
    the mark of the phase and the commands that were run, which are the
    first commands of the phase, at least one when there is any. *)
Definition hooksTrace (options : BuildOptions) (label : string)
    (commands : list string) (evs : list Event) : Prop :=
  if SkipHooks options then evs = []
  else exists ran,
      evs = EvHooks label :: List.map EvCommand ran /\
      ran `prefix_of` commands /\
      (commands <> [] -> ran <> []).

(** How far a run of Module.doBuild got before it returned. *)
Inductive Stage : Type :=
  | StHooks      (* a pre-build hook failed *)
  | StContext    (* the context or its digest failed *)
  | StCache      (* returned after consulting the cache, before any backend *)
  | StBackend    (* the backend failed *)
  | StStore      (* the digest could not be stored *)
  | StPost.      (* the post-build hooks were reached *)

Inductive doBuildTrace (spec : BuildSpec) (options : BuildOptions)
  : Stage -> list Event -> Prop :=
  | trace_hooks pre :
      hooksTrace options preLabel (Before spec) pre ->
      doBuildTrace spec options StHooks pre
  | trace_context pre :
      hooksTrace options preLabel (Before spec) pre ->
      doBuildTrace spec options StContext (pre ++ [EvLoadBuildContext])
  | trace_cache pre rd :
      hooksTrace options preLabel (Before spec) pre -> Forall isFileOp rd ->
      doBuildTrace spec options StCache (pre ++ [EvLoadBuildContext] ++ rd)
  | trace_backend pre rd b :
      hooksTrace options preLabel (Before spec) pre -> Forall isFileOp rd ->
      doBuildTrace spec options StBackend (pre ++ [EvLoadBuildContext] ++ rd ++ [EvBackend b])
  | trace_store pre rd b st :
      hooksTrace options preLabel (Before spec) pre -> Forall isFileOp rd -> Forall isFileOp st ->
      doBuildTrace spec options StStore
        (pre ++ [EvLoadBuildContext] ++ rd ++ [EvBackend b] ++ st)
  | trace_post pre rd b st post :
      hooksTrace options preLabel (Before spec) pre -> Forall isFileOp rd -> Forall isFileOp st ->
      hooksTrace options postLabel (After spec) post ->
      doBuildTrace spec options StPost
        (pre ++ [EvLoadBuildContext] ++ rd ++ [EvBackend b] ++ st ++ post).

(** The effect of a recorded event on the file system. *)
Definition applyEvent `{Collaborators} (e : Event) (fs : FileSystem) : FileSystem :=
  match e with
  | EvCommand command => (sh command fs).2
  | EvMkdirAll path => (os.MkdirAll fs path).2
  | EvOpenTrunc path => (os.OpenTrunc fs path).2
  | EvWrite path data => os.Write fs path data
  | _ => fs
  end.

Definition replay `{Collaborators} (evs : list Event) (fs : FileSystem)
    : FileSystem :=
  fold_left (fun fs e => applyEvent e fs) evs fs.

(** The hooks run exactly when a backend build occurs: both phases are in
    the trace if and only if a backend call is. *)
Definition hooksOnlyWithBackend (evs : list Event) : Prop :=
  (In (EvHooks preLabel) evs <-> (0 < backendCalls evs)%nat) /\
  (In (EvHooks postLabel) evs <-> (0 < backendCalls evs)%nat).

(** *** Concurrent callers: what holds in every reachable configuration *)

(** The caller owns the build and has not stored its outcome yet. *)
Definition ownsBuild (p : pc) : bool :=
  match p with
  | Building | AtBroadcast _ | AtSetStatus _ => true
  | _ => false
  end.

Definition isBuilding (p : pc) : bool :=
  match p with
  | Building => true
  | _ => false
  end.

Fixpoint countPc (f : pc -> bool) (l : list pc) : nat :=
  match l with
  | [] => 0
  | p :: l' => ((if f p then 1 else 0) + countPc f l')%nat
  end.

Definition reachable `{Collaborators}
    (depBuild : Module -> BuildOptions -> error) (m : Module)
    (options : nat -> BuildOptions) (n : nat) (w : World) (c : Config) : Prop :=
  exists schedule, run depBuild m options schedule (initial n w) = Some c.

(** As long as the status is Pending every caller is before its claim and
    nothing was built; exactly one caller owns the build while the status
    is InProgress and none otherwise; the backend calls made and the
    bodies still to run are at most one. *)
Record protocolInv (base : nat) (c : Config) : Prop := {
  inv_pending :
    status (shared c) = BuildStatusPending ->
    Forall (fun p => p = AtClaim) (callers c) /\
    backendCalls (trace (world c)) = base;
  inv_owner :
    countPc ownsBuild (callers c)
    = if decide (status (shared c) = BuildStatusInProgress) then 1%nat else 0%nat;
  inv_backend :
    (backendCalls (trace (world c)) + countPc isBuilding (callers c) <= base + 1)%nat;
}.

(** The transitions of the status that the state machine allows. *)
Definition statusTransition (s s' : BuildStatus) : Prop :=
  s' = s \/
  (s = BuildStatusPending /\ s' = BuildStatusInProgress) \/
  (s = BuildStatusInProgress /\
   (s' = BuildStatusSucceeded \/ s' = BuildStatusFailed)).

Definition terminal (s : BuildStatus) : Prop :=
  s = BuildStatusSucceeded \/ s = BuildStatusFailed.

(** ** Further notions: paths *)

(** The number of leading components two component lists share. *)
Fixpoint commonPrefixLen (xs ys : list string) : nat :=
  match xs, ys with
  | x :: xs', y :: ys' =>
      if String.eqb x y then S (commonPrefixLen xs' ys') else 0%nat
  | _, _ => 0%nat
  end.

(** [xs] is a prefix of [ys] and shorter. *)
Fixpoint isProperPrefix (xs ys : list string) : bool :=
  match xs, ys with
  | [], _ :: _ => true
  | x :: xs', y :: ys' => (String.eqb x y && isProperPrefix xs' ys')%bool
  | _, [] => false
  end.

(** ** Further notions: the build *)

(** What CachedDigest returns on a file system. *)
Definition readRecord `{Collaborators} (m : Module) (fs0 : FileSystem)
    : string * error :=
  match digestPathForManifest (Dir m) with
  | (_, Some e) => ("", Some e)
  | (path, None) =>
      match fs0 !! path with
      | Some (File content) => (content, None)
      | _ => ("", Some ErrModuleNotCached)
      end
  end.

Definition isHookEvent (e : Event) : Prop :=
  match e with
  | EvHooks _ | EvCommand _ => True
  | _ => False
  end.

Definition noCacheOptions : BuildOptions :=
  {| NoCache := true; SkipHooks := false; Builder := "";
     Repository := ""; Tag := ""; NoPush := false |}.

(** A module without hooks. *)
Definition plainSpec : BuildSpec :=
  {| Name := "test/web"; Dockerfile := ""; Context := "";
     Before := []; After := [] |}.

Definition plain : Module :=
  mkModule {| Build := Some plainSpec |} "/repo/web" [].

(** A module whose post-build hook fails. *)
Definition flakySpec : BuildSpec :=
  {| Name := "test/web"; Dockerfile := ""; Context := "";
     Before := []; After := ["exit 1"] |}.

Definition flaky : Module :=
  mkModule {| Build := Some flakySpec |} "/repo/web" [].

(** ** Further notions: concurrent callers *)

(** The steps a caller at a control point can still take, at most. *)
Definition rank (p : pc) : nat :=
  match p with
  | AtClaim => 6
  | Building => 5
  | AtBroadcast _ => 4
  | AtSetStatus _ => 3
  | AtStoreErr _ => 2
  | AtDeliver _ => 1
  | AtStatus => 3
  | AtSubscribe => 2
  | AtLoadErr => 1
  | Waiting => 1
  | Returned _ => 0
  | Panicked _ => 0
  end.

Fixpoint totalRank (l : list pc) : nat :=
  match l with
  | [] => 0
  | p :: l' => (rank p + totalRank l')%nat
  end.

(** The caller has left Build, by returning or by a panic. *)
Definition finished (p : pc) : bool :=
  match p with
  | Returned _ | Panicked _ => true
  | _ => false
  end.

(** The caller is inside broadcast and holds the mutex. *)
Definition inBroadcast (p : pc) : bool :=
  match p with
  | AtSetStatus _ | AtStoreErr _ | AtDeliver _ => true
  | _ => false
  end.

(** The caller won the claim and has not delivered the outcome yet. *)
Definition ownerActive (p : pc) : bool :=
  match p with
  | Building | AtBroadcast _ | AtSetStatus _ | AtStoreErr _ | AtDeliver _ => true
  | _ => false
  end.

(** What holds of the mutex, the channels and the waiting callers in every
    reachable configuration: every caller has its channel; the mutex is
    held exactly while a caller is inside broadcast; a registered
    subscriber is a caller; and a caller that waits on an empty channel is
    registered while the owner has still to deliver. *)
Record waitInv (c : Config) : Prop := {
  wi_length : length (chans c) = length (callers c);
  wi_lock :
    countPc inBroadcast (callers c)
    = if subscribersL (shared c) then 1%nat else 0%nat;
  wi_subscribers :
    forall i, In i (subscribers (shared c)) -> (i < length (callers c))%nat;
  wi_waiting :
    forall i, callers c !! i = Some Waiting -> chans c !! i = Some None ->
              In i (subscribers (shared c)) /\
              (0 < countPc ownerActive (callers c))%nat;
}.

(** The outcome [e] that a caller receives is the outcome [r] of the
    build, or, for a failed build, the error made anew from the recorded
    message by [fmt.Errorf]. *)
Definition similar `{Collaborators} (r e : error) : Prop :=
  e = r \/
  exists e0, r = Some e0 /\ e = Some (Errorf (Sprintf0 (Error_ e0))).

(** Control points at which nothing of the outcome is known. *)
Definition quietPc (p : pc) : Prop :=
  match p with
  | AtClaim | AtStatus | AtSubscribe | Waiting
  | Building | AtBroadcast _ | AtSetStatus _ => True
  | _ => False
  end.

(** What a control point knows of the outcome [r] once the status is
    Succeeded or Failed. *)
Definition pcOk `{Collaborators} (r : error) (sh : Shared) (p : pc) : Prop :=
  match p with
  | Building | AtBroadcast _ | AtSetStatus _ => False
  | AtStoreErr e' => r = Some e' /\ err sh = None
  | AtDeliver e => e = r /\ forall e0, r = Some e0 -> err sh = Some (Error_ e0)
  | Returned e => similar r e
  | Panicked msg => status sh = BuildStatusFailed /\ msg = "unreachable"
  | AtLoadErr => status sh = BuildStatusFailed
  | _ => True
  end.

Definition statusOk (r : error) (sh : Shared) : Prop :=
  match status sh with
  | BuildStatusSucceeded => r = None /\ err sh = None
  | BuildStatusFailed =>
      exists e0, r = Some e0 /\
                 (err sh = Some (Error_ e0) \/
                  (err sh = None /\ subscribersL sh = true))
  | _ => False
  end.

Definition decided `{Collaborators} (r : error) (c : Config) : Prop :=
  (forall i p, callers c !! i = Some p -> pcOk r (shared c) p) /\
  (forall i e, chans c !! i = Some (Some e) -> similar r e) /\
  statusOk r (shared c).

(** While the status is Pending or InProgress nothing of the outcome is
    known anywhere; afterwards there is one outcome that every control
    point and every channel agrees with. *)
Record outcomeInv `{Collaborators} (c : Config) : Prop := {
  oi_quiet :
    ~ terminal (status (shared c)) ->
    Forall quietPc (callers c) /\
    Forall (fun d => d = None) (chans c) /\
    err (shared c) = None;
  oi_decided :
    terminal (status (shared c)) -> exists r, decided r c;
}.

(** ** Further notions: the recipe *)

(** A recipe line that createDockerInclude takes for a COPY or ADD
    instruction although nothing follows the first word: [fields[1]] does
    not exist. *)
Definition bareInstruction (text : string) : bool :=
  let line := strings.TrimSpace text in
  (negb (Nat.eqb (String.length line) 0 || strings.HasPrefix line "#")
   && (strings.HasPrefix line "COPY" || strings.HasPrefix line "ADD")
   && (length (strings.Fields line) <=? 1)%nat)%bool.

(** The no-break space U+00A0 as UTF-8 text. *)
Definition nbsp : string :=
  String (ascii_of_nat 194) (String (ascii_of_nat 160) EmptyString).

(** A recipe whose COPY instruction has lost its arguments. *)
Definition bareFS : FileSystem :=
  {[ "/ctx" := Directory;
     "/ctx/Dockerfile" := File "FROM scratch
COPY
" ]}.

(** A recipe in which a no-break space parts the instruction from its
    first argument and another one starts a line. *)
Definition nbspFS : FileSystem :=
  {[ "/ctx" := Directory;
     "/ctx/app" := Directory;
     "/ctx/Dockerfile" := File ("FROM scratch
" +:+ nbsp +:+ "COPY" +:+ nbsp +:+ "app /srv
") ]}.

(** A two-stage recipe that copies the same directory twice and takes a
    file from the first stage. *)
Definition stagedFS : FileSystem :=
  {[ "/ctx" := Directory;
     "/ctx/app" := Directory;
     "/ctx/app/main.go" := File "package main";
     "/ctx/Dockerfile" := File "FROM golang:1.14 AS builder
# sources
COPY app /src
FROM alpine:3.11.6

COPY --from=builder /src/main /usr/bin/main
ADD app/main.go /srv/main.go
" ]}.

(** ** Further notions: the backend dispatch *)



(** ** addFileToBuildContext *)

(** The entities of a build context.  The types [Entity], [File] and
    [Directory] are declared in a file of the package other than
    build.go; the fields are those that build.go sets and reads: an
    [info] and a [Content] for a file, an [info] and the map [Contents]
    for a directory. *)
#[warnings="-register-all"]
Inductive Entity : Type :=
  | FileEntity (info : node) (Content : string)
  | DirectoryEntity (info : node) (Contents : gmap string Entity).

(** The loop [for i, part := range parts] of addFileToBuildContext over
    the remaining components; [rest] is empty when [i = len(parts)-1].
    The map is a reference in the source: what the loop has put into it
    stays there when the function returns an error, so the map is
    returned beside the error.  The type assertion of [e] to a pointer
    to a [Directory] panics on a file entity. *)
Fixpoint addFileLoop (fs0 : FileSystem) (filePath : string)
    (parts : list string) (c : gmap string Entity)
    : outcome (error * gmap string Entity) :=
  match parts with
  | [] => Ok (Some (Errorf "failed to add file"), c)
  | part :: rest =>
      let filePath := filepath.Join [filePath; part] in
      let descend (info : node) (contents : gmap string Entity) :=
        match addFileLoop fs0 filePath rest contents with
        | Ok (err, contents') =>
            Ok (err, <[part := DirectoryEntity info contents']> c)
        | Panic msg => Panic msg
        end in
      match c !! part with
      | Some e =>
          match rest with
          | [] => Ok (None, c)
          | _ :: _ =>
              match e with
              | DirectoryEntity info contents => descend info contents
              | FileEntity _ _ =>
                  Panic "interface conversion: kindest.Entity is *kindest.File, not *kindest.Directory"
              end
          end
      | None =>
          match os.Stat fs0 filePath with
          | None =>
              Ok (Some (Errorf ("failed to stat '" +:+ filePath +:+ "': stat "
                                +:+ filePath +:+ ": "
                                +:+ os.errnoText (os.lookupError fs0 filePath))), c)
          | Some info =>
              match rest with
              | [] =>
                  match os.ReadFile fs0 filePath with
                  | (_, Some e) =>
                      Ok (Some (Errorf ("failed to read file: " +:+ Error_ e)), c)
                  | (body, None) => Ok (None, <[part := FileEntity info body]> c)
                  end
              | _ :: _ => descend info ∅
              end
          end
      end
  end.

Definition addFileToBuildContext (fs0 : FileSystem)
    (dir relativePath : string) (c : gmap string Entity)
    : outcome (error * gmap string Entity) :=
  addFileLoop fs0 dir (strings.Split relativePath) c.

(** The entity of a context at a path given by its components. *)
Fixpoint lookupPath (parts : list string) (c : gmap string Entity)
    : option Entity :=
  match parts with
  | [] => None
  | part :: rest =>
      match rest with
      | [] => c !! part
      | _ :: _ =>
          match c !! part with
          | Some (DirectoryEntity _ contents) => lookupPath rest contents
          | _ => None
          end
      end
  end.

(** The path that the loop has built when it reaches the last component:
    [filePath = filepath.Join(filePath, part)] for every component. *)
Definition pathOf (dir : string) (parts : list string) : string :=
  fold_left (fun filePath part => filepath.Join [filePath; part]) parts dir.

(** A context that holds the program but not the recipe. *)
Definition appContext : gmap string Entity :=
  {[ "app" := DirectoryEntity Directory
                {[ "main.go" := FileEntity (File "package main") "package main" ]} ]}.

(** [appContext] with the recipe of [recipeFS] added. *)
Definition recipeContext : gmap string Entity :=
  <["Dockerfile" := FileEntity (File "FROM alpine:3.11.6
COPY app /srv
") "FROM alpine:3.11.6
COPY app /srv
"]> appContext.

(** ** Further notions: the one run of the build *)

(** Control points that a caller can be at before the body of Build has
    run. *)
Definition beforeBody (p : pc) : Prop :=
  match p with
  | AtClaim | AtStatus | AtSubscribe | Waiting | Building => True
  | _ => False
  end.

(** What a control point holds once the body of Build has returned [r]. *)
Definition pcFits `{Collaborators} (r : error) (p : pc) : Prop :=
  match p with
  | Building => False
  | AtBroadcast e | AtSetStatus e | AtDeliver e => e = r
  | AtStoreErr e' => r = Some e'
  | Returned e => similar r e
  | _ => True
  end.

(** What the shared fields hold once the body of Build has returned [r]. *)
Definition sharedFits (r : error) (sh : Shared) : Prop :=
  status sh <> BuildStatusPending /\
  (forall msg, err sh = Some msg -> exists e1, r = Some e1 /\ msg = Error_ e1) /\
  (status sh = BuildStatusSucceeded -> r = None) /\
  (status sh = BuildStatusFailed -> r <> None).

(** The body of Build has not run yet: the world is the initial one and
    nothing of an outcome is anywhere. *)
Record notRun (w0 : World) (c : Config) : Prop := {
  nr_world : world c = w0;
  nr_status : ~ terminal (status (shared c));
  nr_callers : Forall beforeBody (callers c);
  nr_chans : Forall (fun d => d = None) (chans c);
  nr_err : err (shared c) = None;
}.

(** The body of Build has run, has returned [r] and has left the world
    [w1]: nothing has touched the world since, and every outcome that is
    held anywhere is [r]. *)
Record hasRun `{Collaborators} (r : error) (w1 : World) (c : Config) : Prop := {
  hr_world : world c = w1;
  hr_callers : forall k p, callers c !! k = Some p -> pcFits r p;
  hr_chans : forall k e, chans c !! k = Some (Some e) -> similar r e;
  hr_shared : sharedFits r (shared c);
}.

(** ** The error of the kaniko backend *)

(** [strings.Contains(s, substr)] *)
Fixpoint strings_Contains (s substr : string) : bool :=
  (strings.HasPrefix s substr ||
   match s with
   | EmptyString => false
   | String _ s' => strings_Contains s' substr
   end)%bool.

(** [strings.Split(s, sep)] where [sep] is the line feed. *)
Fixpoint strings_SplitLines (s : string) : list string :=
  match s with
  | EmptyString => [EmptyString]
  | String c s' =>
      if Nat.eqb (nat_of_ascii c) 10 then EmptyString :: strings_SplitLines s'
      else match strings_SplitLines s' with
           | [] => [String c EmptyString]
           | piece :: pieces => String c piece :: pieces
           end
  end.

(** The loop [for i := len(parts) - 1; i >= 0; i--] at the end of
    buildKaniko, entered with [i + 1 = todo]: the first line from the end
    that is not blank, trimmed. *)
Fixpoint lastLine (todo : nat) (parts : list string) : outcome (option string) :=
  match todo with
  | O => Ok None
  | S i =>
      match parts !! i with
      | None => Panic "index out of range"
      | Some part =>
          let line := strings.TrimSpace part in
          if negb (String.eqb line "") then Ok (Some line)
          else lastLine i parts
      end
  end.

(** The end of buildKaniko: what it returns for the error [err] of the
    command run in the pod and the text [stderr] that the command wrote. *)
Definition kanikoResult `{Collaborators} (err : error) (stderr : string)
    : outcome error :=
  match err with
  | Some e =>
      if strings_Contains (Error_ e) "command terminated with exit code 1" then
        if (0 <? String.length stderr)%nat then
          let parts := strings_SplitLines stderr in
          match lastLine (length parts) parts with
          | Panic msg => Panic msg
          | Ok (Some line) => Ok (Some (Errorf (Sprintf0 line)))
          | Ok None => Ok (Some e)
          end
        else Ok (Some e)
      else Ok (Some e)
  | None => Ok None
  end.

(** ** The logger of the engine, pkg/logger *)

Module logger.

(** The levels of zap that NewZapLoggerFromEnv sets. *)
Inductive Level : Type :=
  | DebugLevel | InfoLevel | WarnLevel | ErrorLevel
  | DPanicLevel | PanicLevel | FatalLevel.

(** The level names that the switch knows. *)
Definition levelNames : list (string * Level) :=
  [("info", InfoLevel); ("debug", DebugLevel); ("warn", WarnLevel);
   ("error", ErrorLevel); ("dpanic", DPanicLevel); ("panic", PanicLevel);
   ("fatal", FatalLevel)].

(** The level of the logger that NewZapLoggerFromEnv returns.  [env] is
    the environment, [os.LookupEnv] is the lookup; the level of a new
    [zap.AtomicLevel] is info. *)
Definition NewZapLoggerFromEnv (env : gmap string string) : outcome Level :=
  let atom := InfoLevel in
  if match env !! "DEBUG" with
     | Some debug => negb (String.eqb debug "0")
     | None => false
     end
  then Ok DebugLevel
  else
    match env !! "LOG_LEVEL" with
    | Some logLevel =>
        if String.eqb logLevel "info" then Ok InfoLevel
        else if String.eqb logLevel "debug" then Ok DebugLevel
        else if String.eqb logLevel "warn" then Ok WarnLevel
        else if String.eqb logLevel "error" then Ok ErrorLevel
        else if String.eqb logLevel "dpanic" then Ok DPanicLevel
        else if String.eqb logLevel "panic" then Ok PanicLevel
        else if String.eqb logLevel "fatal" then Ok FatalLevel
        else Panic ("unknown log level '" +:+ logLevel +:+ "'")
    | None => Ok atom
    end.

End logger.

(** * Properties *)

(** ** resolveDockerfile *)

Section ResolveDockerfile.

Lemma loopBound_is_context_length (dockerfileParts contextParts : list string) :
  loopBound dockerfileParts contextParts = Z.of_nat (length contextParts).
Proof.
  unfold loopBound.
  destruct (Z.ltb_spec (Z.of_nat (length dockerfileParts)) 0); [lia | reflexivity].
Qed.


End ResolveDockerfile.



(** ** createDockerInclude *)

Section DockerInclude.

Lemma addPath_NoDup (addedPaths : list string) (full : string) :
  NoDup addedPaths -> NoDup (addPath addedPaths full).
Proof.
  intros Hnd. unfold addPath.
  destruct (existsb _ addedPaths) eqn:Hex; [assumption|].
  apply NoDup_app. split; [assumption|]. split; [|apply NoDup_singleton].
  intros x Hx Hx'. apply list_elem_of_singleton in Hx'. subst x.
  assert (existsb (fun item => String.eqb item full) addedPaths = true) as Habs.
  { apply existsb_exists. exists full. split.
    - apply list_elem_of_In. assumption.
    - apply String.eqb_refl. }
  congruence.
Qed.

Lemma addPrefixes_NoDup (parts addedPaths : list string) :
  NoDup addedPaths -> NoDup (addPrefixes parts addedPaths).
Proof.
  unfold addPrefixes. generalize (seq 0 (length parts)) as idx.
  intros idx. revert addedPaths.
  induction idx as [|i idx IH]; intros addedPaths Hnd; simpl; [assumption|].
  apply IH, addPath_NoDup, Hnd.
Qed.

(** Duplicate paths are added once: the pattern list never repeats an
    entry. *)
Lemma includeLoop_NoDup (fs : FileSystem) (contextPath : string)
    (lines addedPaths patterns : list string) :
  NoDup addedPaths ->
  includeLoop fs contextPath addedPaths lines = Ok (Some patterns, None) ->
  NoDup patterns.
Proof.
  revert addedPaths.
  induction lines as [|text rest IH]; intros addedPaths Hnd Hrun; simpl in Hrun.
  - congruence.
  - destruct (_ || _)%bool; [eauto|].
    destruct (_ || _)%bool; [|eauto].
    destruct (strings.Fields _ !! 1%nat) as [rel|]; [|discriminate].
    destruct (negb _); [|eauto].
    destruct (os.Stat _ _) as [info|]; [|discriminate].
    eapply IH; [|exact Hrun]. apply addPrefixes_NoDup, Hnd.
Qed.

(** Blank lines, comment lines and lines that are no COPY or ADD
    directive leave the pattern list as it is. *)
Lemma includeLoop_skips (fs : FileSystem) (contextPath text : string)
    (lines addedPaths : list string) :
  let line := strings.TrimSpace text in
  (String.length line = 0%nat \/ strings.HasPrefix line "#" = true \/
   (strings.HasPrefix line "COPY" = false /\ strings.HasPrefix line "ADD" = false)) ->
  includeLoop fs contextPath addedPaths (text :: lines)
  = includeLoop fs contextPath addedPaths lines.
Proof.
  intros line Hskip. simpl. fold line.
  destruct Hskip as [Hlen | [Hhash | [Hcopy Hadd]]].
  - rewrite Hlen. reflexivity.
  - rewrite Hhash, orb_true_r. reflexivity.
  - rewrite Hcopy, Hadd. simpl. destruct (_ || _)%bool; reflexivity.
Qed.

End DockerInclude.

(** C9: for the recipe line [COPY app /srv], where [app] is a directory of
    the context, the code appends the separator to the argument and splits
    it into [app] and the empty string, but joining the pieces with
    [filepath.Join] cleans the separator away again: the pattern list is
    [app] alone and holds no entry with a trailing separator. *)
Theorem createDockerInclude_loses_directory_separator :
  os.Stat recipeFS (filepath.Clean (filepath.Join ["/ctx"; "app"])) = Some Directory /\
  strings.Split ("app" +:+ "/") = ["app"; ""] /\
  joinPrefix ["app"; ""] 1 = "app" /\
  createDockerInclude recipeFS "/ctx" "/ctx/Dockerfile" = Ok (Some ["app"], None) /\
  ~ In "app/" ["app"].
Proof.
  repeat split; try reflexivity.
  intros [Heq | []]. discriminate Heq.
Qed.

(** ** Dependency fan-out and error aggregation *)

Section FanIn.

Context `{Collaborators}.
Variable depBuild : Module -> BuildOptions -> error.
Variable options : BuildOptions.

Lemma dependencyResult_plain (d : Module) (e : goerror) :
  dependencyResult depBuild options d = Some e -> flattenError e = [e].
Proof.
  unfold dependencyResult. destruct (depBuild d options); intros Heq; simplify_eq.
  reflexivity.
Qed.

Lemma collectOne_multiOf (es : list goerror) (e : goerror) :
  flattenError e = [e] ->
  collectOne (multiOf es) (Some e) = multiOf (es ++ [e]).
Proof.
  intros Hflat. destruct es as [|e0 es]; simpl; rewrite Hflat; reflexivity.
Qed.

Lemma collect_from (deps : list Module) (es : list goerror) :
  fold_left collectOne (List.map (dependencyResult depBuild options) deps) (multiOf es)
  = multiOf (es ++ omap (dependencyResult depBuild options) deps).
Proof.
  revert es. induction deps as [|d deps IH]; intros es; simpl.
  - rewrite app_nil_r. reflexivity.
  - destruct (dependencyResult depBuild options d) as [e|] eqn:Hd.
    + rewrite collectOne_multiOf by (eapply dependencyResult_plain; eassumption).
      rewrite IH, <- app_assoc. reflexivity.
    + simpl. apply IH.
Qed.

Lemma buildDependencies_entries (m : Module) :
  Module_buildDependencies depBuild m options
  = multiOf (omap (dependencyResult depBuild options) (Dependencies m)).
Proof. unfold Module_buildDependencies, collectErrors. apply (collect_from _ []). Qed.

(** *** Any order of completion *)

Variable results : list error.

Lemma collectErrors_take_S (k : nat) (r : error) :
  results !! k = Some r ->
  collectErrors (take (S k) results) = collectOne (collectErrors (take k results)) r.
Proof.
  intros Hk. rewrite (take_S_r _ _ _ Hk).
  unfold collectErrors. rewrite fold_left_app. reflexivity.
Qed.

Lemma fanInv_init : fanInv results (fanInit (length results)).
Proof.
  split; simpl.
  - apply length_replicate.
  - lia.
  - intros i r Hi. apply lookup_replicate in Hi. destruct Hi; discriminate.
  - intros i Hi. lia.
  - reflexivity.
Qed.

Lemma fanInv_step (a : fanAction) (s s' : FanIn) :
  fanInv results s -> fanStep results a s = Some s' -> fanInv results s'.
Proof.
  intros [Hlen Hnext Hsent Hdone Hmulti] Hstep.
  destruct a as [i|]; simpl in Hstep.
  - destruct (dones s !! i) as [[r0|]|] eqn:Hi; try discriminate.
    destruct (results !! i) as [r|] eqn:Hr; try discriminate.
    simplify_eq. split; simpl.
    + rewrite length_insert. assumption.
    + assumption.
    + intros j r' Hj. destruct (decide (i = j)) as [->|Hne].
      * rewrite list_lookup_insert_eq in Hj by (eapply lookup_lt_Some; eassumption).
        congruence.
      * rewrite list_lookup_insert_ne in Hj by assumption. eauto.
    + intros j Hj. destruct (Hdone j Hj) as [r' Hr'].
      destruct (decide (i = j)) as [->|Hne]; [congruence|].
      exists r'. rewrite list_lookup_insert_ne by assumption. assumption.
    + assumption.
  - destruct (dones s !! next s) as [[r|]|] eqn:Hn; try discriminate.
    simplify_eq. pose proof (Hsent _ _ Hn) as Hr. split; simpl.
    + assumption.
    + apply lookup_lt_Some in Hr. lia.
    + assumption.
    + intros j Hj. destruct (decide (j = next s)) as [->|Hne]; [eauto|].
      apply Hdone. lia.
    + rewrite (collectErrors_take_S _ _ Hr), Hmulti. reflexivity.
Qed.

Lemma fanInv_run (schedule : list fanAction) (s s' : FanIn) :
  fanInv results s -> fanRun results schedule s = Some s' -> fanInv results s'.
Proof.
  revert s. induction schedule as [|a schedule IH]; intros s Hinv Hrun; simpl in Hrun.
  - congruence.
  - destruct (fanStep results a s) as [s1|] eqn:Hstep; [|discriminate].
    eapply IH; [eapply fanInv_step; eassumption | assumption].
Qed.

(** When collectErrors has received from every channel, every goroutine
    has sent its result and the accumulator is the in-order collection,
    whatever the order in which the goroutines finished. *)
Lemma fanRun_complete (schedule : list fanAction) (s : FanIn) :
  fanRun results schedule (fanInit (length results)) = Some s ->
  next s = length results ->
  multi s = collectErrors results /\
  Forall (fun d => exists r, d = Some r) (dones s).
Proof.
  intros Hrun Hend.
  destruct (fanInv_run _ _ _ fanInv_init Hrun) as [Hlen Hnext Hsent Hdone Hmulti].
  split.
  - rewrite Hmulti, Hend, firstn_all. reflexivity.
  - apply Forall_lookup_2. intros i d Hi.
    destruct (Hdone i) as [r Hr].
    + apply lookup_lt_Some in Hi. lia.
    + exists r. congruence.
Qed.

(** Some schedule does complete: all goroutines finish, last first, and
    then the loop receives from each channel. *)
Lemma finish_all (k : nat) (s : FanIn) :
  length (dones s) = length results ->
  (k <= length results)%nat ->
  (forall i, (i < k)%nat -> dones s !! i = Some None) ->
  exists s', fanRun results (List.map Finish (rev (seq 0 k))) s = Some s' /\
             next s' = next s /\ multi s' = multi s /\
             length (dones s') = length results /\
             (forall i, (i < k)%nat -> exists r, dones s' !! i = Some (Some r)) /\
             (forall i, (k <= i)%nat -> dones s' !! i = dones s !! i).
Proof.
  revert s. induction k as [|k IH]; intros s Hlen Hk Hempty.
  - exists s. simpl. repeat split; try reflexivity; try assumption. intros i Hi; lia.
  - rewrite seq_S, rev_app_distr. simpl.
    rewrite (Hempty k) by lia.
    destruct (results !! k) as [r|] eqn:Hr;
      [|apply lookup_ge_None in Hr; lia].
    destruct (IH (mkFanIn (<[k := Some r]> (dones s)) (next s) (multi s)))
      as (s' & Hrun & Hn & Hm & Hl & Hfilled & Hrest).
    + simpl. rewrite length_insert. assumption.
    + lia.
    + intros i Hi. simpl. rewrite list_lookup_insert_ne by lia. apply Hempty. lia.
    + exists s'. simpl in *. repeat split; try assumption.
      * intros i Hi. destruct (decide (i = k)) as [->|Hne].
        -- exists r. rewrite Hrest by lia.
           apply list_lookup_insert_eq. lia.
        -- apply Hfilled. lia.
      * intros i Hi. rewrite Hrest by lia. apply list_lookup_insert_ne. lia.
Qed.

Lemma receive_all (k : nat) (s : FanIn) :
  (forall i, (next s <= i < next s + k)%nat -> exists r, dones s !! i = Some (Some r)) ->
  exists s', fanRun results (replicate k Receive) s = Some s' /\
             next s' = (next s + k)%nat.
Proof.
  revert s. induction k as [|k IH]; intros s Hfilled; simpl.
  - exists s. split; [reflexivity | lia].
  - destruct (Hfilled (next s)) as [r Hr]; [lia|]. rewrite Hr.
    destruct (IH (mkFanIn (dones s) (S (next s)) (collectOne (multi s) r)))
      as (s' & Hrun & Hn).
    + simpl. intros i Hi. apply Hfilled. lia.
    + exists s'. split; [assumption | simpl in Hn; lia].
Qed.

Lemma fanRun_app (sched1 sched2 : list fanAction) (s s1 : FanIn) :
  fanRun results sched1 s = Some s1 ->
  fanRun results (sched1 ++ sched2) s = fanRun results sched2 s1.
Proof.
  revert s. induction sched1 as [|a sched1 IH]; intros s Hrun; simpl in *.
  - congruence.
  - destruct (fanStep results a s); [eauto | discriminate].
Qed.

Lemma fanRun_terminates :
  exists schedule s,
    fanRun results schedule (fanInit (length results)) = Some s /\
    next s = length results.
Proof.
  destruct (finish_all (length results) (fanInit (length results)))
    as (s1 & Hrun1 & Hn1 & _ & _ & Hfilled & _).
  - apply length_replicate.
  - lia.
  - intros i Hi. apply lookup_replicate. split; [reflexivity | assumption].
  - destruct (receive_all (length results) s1) as (s2 & Hrun2 & Hn2).
    + intros i Hi. apply Hfilled. simpl in Hn1. lia.
    + exists (List.map Finish (rev (seq 0 (length results)))
              ++ replicate (length results) Receive), s2.
      split.
      * rewrite (fanRun_app _ _ _ _ Hrun1). assumption.
      * simpl in Hn1. lia.
Qed.

End FanIn.

(** C8: the error of the dependencies is [nil] when none fails and
    otherwise one multi-error whose entries are, in the declared order of
    the dependencies, one entry per failing dependency made of its
    directory, a colon and the dependency's error; Build returns that
    error; and in every interleaving of the goroutines with the collecting
    loop the loop ends only after every dependency build has delivered its
    result, with that same error.  Some interleaving does end. *)
Theorem buildDependencies_aggregates `{Collaborators}
    (depBuild : Module -> BuildOptions -> error) (m : Module)
    (options : BuildOptions) :
  let entryOf := fun d : Module =>
    match depBuild d options with
    | Some e => Some (Errorf (Dir d +:+ ": " +:+ Error_ e))
    | None => None
    end in
  let entries := omap entryOf (Dependencies m) in
  let results := List.map (dependencyResult depBuild options) (Dependencies m) in
  Module_buildDependencies depBuild m options
    = match entries with [] => None | _ => Some (MultiError entries) end /\
  length entries
    = length (filter (fun d => is_Some (depBuild d options)) (Dependencies m)) /\
  (forall w, entries <> [] ->
     Module_Build_body depBuild m options w = (Some (MultiError entries), w)) /\
  (forall schedule s,
     fanRun results schedule (fanInit (length results)) = Some s ->
     next s = length results ->
     multi s = Module_buildDependencies depBuild m options /\
     Forall (fun d => exists r, d = Some r) (dones s)) /\
  (exists schedule s,
     fanRun results schedule (fanInit (length results)) = Some s /\
     next s = length results).
Proof.
  intros entryOf entries results.
  assert (Module_buildDependencies depBuild m options
          = match entries with [] => None | _ => Some (MultiError entries) end) as Hres.
  { apply buildDependencies_entries. }
  split; [exact Hres|]. split; [|split; [|split]].
  - clear Hres. subst entries results.
    induction (Dependencies m) as [|d deps IH]; [reflexivity|].
    simpl. unfold entryOf at 1.
    destruct (depBuild d options) as [e|] eqn:Hd.
    + rewrite filter_cons_True by (rewrite Hd; eauto). simpl. f_equal. exact IH.
    + rewrite filter_cons_False by (rewrite Hd; intros [? ?]; discriminate). exact IH.
  - intros w Hne. unfold Module_Build_body. rewrite Hres.
    destruct entries; [congruence | reflexivity].
  - intros schedule s Hrun Hend.
    apply (fanRun_complete results schedule s Hrun Hend).
  - apply fanRun_terminates.
Qed.

(** ** Module.doBuild: what it adds to the trace *)

Section DoBuild.

Context `{Collaborators}.

Lemma bind_run {A B} (a : Go A) (k : A -> Go B) (w : World) :
  (a ≫= k) w = let '(x, w') := a w in k x w'.
Proof. reflexivity. Qed.

Lemma fsop_run {A} (e : Event) (op : FileSystem -> A * FileSystem) (w : World) :
  fsop e op w = ((op (fs w)).1, mkWorld (op (fs w)).2 (trace w ++ [e])).
Proof. unfold fsop. destruct (op (fs w)). reflexivity. Qed.

Lemma runCommands_trace (commands : list string) (w w' : World) (r : error) :
  runCommands commands w = (r, w') ->
  exists ran, trace w' = trace w ++ List.map EvCommand ran /\
              ran `prefix_of` commands /\
              (commands <> [] -> ran <> []).
Proof.
  revert w. induction commands as [|command rest IH]; intros w Hrun; simpl in Hrun.
  - inversion Hrun; subst. exists []. rewrite app_nil_r. auto.
  - rewrite bind_run, fsop_run in Hrun.
    destruct (sh command (fs w)) as [[e|] fs1]; simpl in Hrun.
    + inversion Hrun; subst. exists [command]. simpl.
      split; [reflexivity|]. split; [|discriminate].
      exists rest. reflexivity.
    + apply IH in Hrun. destruct Hrun as (ran & Htr & Hpre & _). simpl in Htr.
      exists (command :: ran). split; [|split; [|discriminate]].
      * rewrite Htr, <- app_assoc. reflexivity.
      * apply prefix_cons. assumption.
Qed.

Lemma runHooks_trace (options : BuildOptions) (label : string)
    (commands : list string) (w w' : World) (r : error) :
  runHooks options label commands w = (r, w') ->
  exists evs, trace w' = trace w ++ evs /\ hooksTrace options label commands evs.
Proof.
  unfold runHooks, hooksTrace. intros Hrun.
  destruct (SkipHooks options); simpl in Hrun.
  - inversion Hrun; subst. exists []. rewrite app_nil_r. auto.
  - rewrite bind_run in Hrun. simpl in Hrun. rewrite bind_run in Hrun.
    match type of Hrun with
    | context [runCommands commands ?w0] =>
        destruct (runCommands commands w0) as [err w1] eqn:Hcmds
    end.
    apply runCommands_trace in Hcmds. destruct Hcmds as (ran & Htr & Hcmd).
    simpl in Htr.
    assert (w' = w1) as -> by (destruct err; inversion Hrun; reflexivity).
    exists (EvHooks label :: List.map EvCommand ran). split; [|eauto].
    rewrite Htr, <- app_assoc. reflexivity.
Qed.

Lemma CachedDigest_trace (m : Module) (w w' : World) (r : string * error) :
  CachedDigest m w = (r, w') ->
  fs w' = fs w /\ exists evs, trace w' = trace w ++ evs /\ Forall isFileOp evs.
Proof.
  unfold CachedDigest. intros Hrun.
  destruct (digestPathForManifest (Dir m)) as [path [e|]].
  - inversion Hrun; subst. split; [reflexivity|].
    exists []. rewrite app_nil_r. auto.
  - rewrite bind_run in Hrun. unfold go_ReadFile in Hrun.
    rewrite fsop_run in Hrun. simpl in Hrun.
    assert (w' = mkWorld (fs w) (trace w ++ [EvReadFile path])) as ->.
    { destruct (os.ReadFile (fs w) path) as [body [e|]]; inversion Hrun; reflexivity. }
    split; [reflexivity|].
    exists [EvReadFile path]. split; [reflexivity | repeat constructor].
Qed.

Lemma go_WriteFile_trace (path data : string) (w w' : World) (r : error) :
  go_WriteFile path data w = (r, w') ->
  exists evs, trace w' = trace w ++ evs /\ Forall isFileOp evs.
Proof.
  unfold go_WriteFile. rewrite bind_run, fsop_run. intros Hrun.
  destruct (os.OpenTrunc (fs w) path) as [[e|] fs1]; simpl in Hrun.
  - inversion Hrun; subst. exists [EvOpenTrunc path].
    split; [reflexivity | repeat constructor].
  - rewrite bind_run, fsop_run in Hrun. simpl in Hrun. inversion Hrun; subst.
    exists [EvOpenTrunc path; EvWrite path data]. simpl.
    split; [rewrite <- app_assoc; reflexivity | repeat constructor].
Qed.

Lemma cacheDigest_trace (m : Module) (digest : string) (w w' : World) (r : error) :
  cacheDigest m digest w = (r, w') ->
  exists evs, trace w' = trace w ++ evs /\ Forall isFileOp evs.
Proof.
  unfold cacheDigest. intros Hrun.
  destruct (digestPathForManifest (Dir m)) as [path [e|]].
  - inversion Hrun; subst. exists []. rewrite app_nil_r. auto.
  - rewrite bind_run in Hrun. unfold go_Stat in Hrun.
    rewrite fsop_run in Hrun. simpl in Hrun.
    rewrite bind_run in Hrun.
    set (dir := filepath.Dir path) in *.
    set (w0 := mkWorld (fs w) (trace w ++ [EvStat dir])) in *.
    assert (exists made w1 evs1,
               (if os.IsNotExist (os.StatError (fs w) dir)
                then go_MkdirAll dir else mret None) w0 = (made, w1) /\
               trace w1 = trace w0 ++ evs1 /\ Forall isFileOp evs1)
      as (made & w1 & evs1 & Hmade & Htr1 & Hops1).
    { destruct (os.IsNotExist (os.StatError (fs w) dir)).
      - unfold go_MkdirAll. rewrite fsop_run.
        eexists _, _, [EvMkdirAll dir].
        split; [reflexivity|]. split; [reflexivity | repeat constructor].
      - exists None, w0, []. rewrite app_nil_r. auto. }
    rewrite Hmade in Hrun.
    destruct made as [e|].
    + inversion Hrun; subst. exists (EvStat dir :: evs1). split.
      * rewrite Htr1. simpl. rewrite <- app_assoc. reflexivity.
      * constructor; [exact I | assumption].
    + rewrite bind_run in Hrun.
      destruct (go_WriteFile path digest w1) as [err w2] eqn:Hwrite.
      apply go_WriteFile_trace in Hwrite. destruct Hwrite as (evs2 & Htr2 & Hops2).
      assert (w' = w2) as -> by (destruct err; inversion Hrun; reflexivity).
      exists (EvStat dir :: evs1 ++ evs2). split.
      * rewrite Htr2, Htr1. simpl. rewrite <- !app_assoc. reflexivity.
      * constructor; [exact I | apply Forall_app; auto].
Qed.

Lemma doBuildBackend_trace (m : Module) (spec : BuildSpec)
    (tar rel : string) (options : BuildOptions) (w w' : World) (r : error) :
  doBuildBackend m spec tar rel options w = (r, w') ->
  fs w' = fs w /\
  ((exists b, trace w' = trace w ++ [EvBackend b]) \/
   (trace w' = trace w /\ r <> None)).
Proof.
  unfold doBuildBackend. intros Hrun.
  destruct (_ || _)%bool.
  - rewrite bind_run in Hrun. simpl in Hrun.
    destruct (buildDocker _ _ _ _ _); inversion Hrun; subst; simpl; eauto.
  - destruct (String.eqb _ "kaniko").
    + rewrite bind_run in Hrun. simpl in Hrun.
      destruct (buildKaniko _ _ _ _ _); inversion Hrun; subst; simpl; eauto.
    + inversion Hrun; subst. split; [reflexivity|]. right. split; [reflexivity | discriminate].
Qed.

(** runCommands runs the commands in order up to the first that fails;
    it returns [nil] only when all of them have run. *)
Lemma runCommands_exact (commands : list string) (w w' : World) (r : error) :
  runCommands commands w = (r, w') ->
  exists ran, trace w' = trace w ++ List.map EvCommand ran /\
              ran `prefix_of` commands /\
              (commands <> [] -> ran <> []) /\
              (r = None -> ran = commands).
Proof.
  revert w. induction commands as [|command rest IH]; intros w Hrun; simpl in Hrun.
  - inversion Hrun; subst. exists []. rewrite app_nil_r. auto.
  - rewrite bind_run, fsop_run in Hrun.
    destruct (sh command (fs w)) as [[e|] fs1]; simpl in Hrun.
    + inversion Hrun; subst. exists [command]. simpl.
      split; [reflexivity|]. split; [exists rest; reflexivity|].
      split; [discriminate | discriminate].
    + apply IH in Hrun. destruct Hrun as (ran & Htr & Hpre & _ & Hall). simpl in Htr.
      exists (command :: ran). split; [|split; [|split]].
      * rewrite Htr, <- app_assoc. reflexivity.
      * apply prefix_cons. assumption.
      * discriminate.
      * intros Hr. rewrite (Hall Hr). reflexivity.
Qed.

Lemma runHooks_exact (options : BuildOptions) (label : string)
    (commands : list string) (w w' : World) (r : error) :
  SkipHooks options = false ->
  runHooks options label commands w = (r, w') ->
  exists ran, trace w' = trace w ++ EvHooks label :: List.map EvCommand ran /\
              ran `prefix_of` commands /\
              (commands <> [] -> ran <> []) /\
              (r = None -> ran = commands).
Proof.
  unfold runHooks. intros -> Hrun. simpl in Hrun.
  rewrite bind_run in Hrun. simpl in Hrun. rewrite bind_run in Hrun.
  match type of Hrun with
  | context [runCommands commands ?w0] =>
      destruct (runCommands commands w0) as [err w1] eqn:Hcmds
  end.
  apply runCommands_exact in Hcmds. destruct Hcmds as (ran & Htr & Hpre & Hne & Hall).
  simpl in Htr.
  exists ran. split; [|split; [exact Hpre|split; [exact Hne|]]].
  - destruct err; inversion Hrun; subst; rewrite Htr, <- app_assoc; reflexivity.
  - intros Hr. apply Hall. destruct err; inversion Hrun; subst; [discriminate | reflexivity].
Qed.

(** The ways in which the part of Module.doBuild after the cache test
    returns. *)
Lemma buildAndStore_inv (m : Module) (spec : BuildSpec) (options : BuildOptions)
    (bc : BuildContext) (rel digest : string) (w w' : World) (r : error) :
  buildAndStore m spec options bc rel digest w = (r, w') ->
  match Archive bc with
  | (_, Some e) => r = Some e /\ w' = w
  | (tar, None) =>
      exists built w3,
        doBuildBackend m spec tar rel options w = (built, w3) /\
        match built with
        | Some e => r = Some e /\ w' = w3
        | None =>
            exists stored w4,
              cacheDigest m digest w3 = (stored, w4) /\
              match stored with
              | Some e => r = Some e /\ w' = w4
              | None =>
                  runHooks options "post-build hook failure" (After spec) w4 = (r, w')
              end
        end
  end.
Proof.
  unfold buildAndStore. destruct (Archive bc) as [tar [e|]].
  { intros Hrun. inversion Hrun. auto. }
  rewrite bind_run.
  destruct (doBuildBackend m spec tar rel options w) as [built w3].
  intros Hrun. exists built, w3. split; [reflexivity|].
  destruct built as [e|]; [inversion Hrun; auto|].
  rewrite bind_run in Hrun.
  destruct (cacheDigest m digest w3) as [stored w4].
  exists stored, w4. split; [reflexivity|].
  destruct stored as [e|]; [inversion Hrun; auto|].
  rewrite bind_run in Hrun.
  destruct (runHooks options "post-build hook failure" (After spec) w4)
    as [post w5].
  destruct post; inversion Hrun; reflexivity.
Qed.

(** The ways in which Module.doBuild returns. *)
Lemma Module_doBuild_inv (m : Module) (spec : BuildSpec) (options : BuildOptions)
    (w w' : World) (r : error) :
  Module_doBuild m spec options w = (r, w') ->
  exists pre w1,
    runHooks options "pre-build hook failure" (Before spec) w = (pre, w1) /\
    match pre with
    | Some e => r = Some e /\ w' = w1
    | None =>
        let w1' := mkWorld (fs w1) (trace w1 ++ [EvLoadBuildContext]) in
        match loadBuildContext m (fs w1) with
        | (_, Some e) => r = Some e /\ w' = w1'
        | ((bc, rel, inc), None) =>
            match Digest bc inc with
            | (_, Some e) => r = Some e /\ w' = w1'
            | (digest, None) =>
                exists cached err w2,
                  CachedDigest m w1' = ((cached, err), w2) /\
                  if isOtherError err then r = err /\ w' = w2
                  else if (String.eqb digest cached && negb (NoCache options))%bool
                       then r = None /\ w' = w2
                       else buildAndStore m spec options bc rel digest w2 = (r, w')
            end
        end
    end.
Proof.
  unfold Module_doBuild. rewrite bind_run.
  destruct (runHooks options "pre-build hook failure" (Before spec) w) as [pre w1].
  intros Hrun. exists pre, w1. split; [reflexivity|].
  destruct pre as [e|]; [inversion Hrun; auto|].
  rewrite bind_run, fsop_run in Hrun. simpl in Hrun. cbv zeta.
  destruct (loadBuildContext m (fs w1)) as [[[bc rel] inc] [e|]];
    [inversion Hrun; auto|].
  destruct (Digest bc inc) as [digest [e|]]; [inversion Hrun; auto|].
  rewrite bind_run in Hrun.
  match type of Hrun with
  | context [CachedDigest m ?w0] =>
      destruct (CachedDigest m w0) as [[cached err] w2]
  end.
  exists cached, err, w2. split; [reflexivity|].
  destruct (isOtherError err); [inversion Hrun; auto|].
  destruct (_ && _)%bool; [inversion Hrun; auto | exact Hrun].
Qed.


(** The events of a run of Module.doBuild with hooks, by the stage at
    which it returned: the pre-build phase with the commands that ran,
    all of them unless one failed, then the context, the cache, the
    backend, the store and the post-build phase. *)
Lemma Module_doBuild_exact (m : Module) (spec : BuildSpec)
    (options : BuildOptions) (w w' : World) (r : error) :
  SkipHooks options = false ->
  Module_doBuild m spec options w = (r, w') ->
  exists stage ran rest,
    trace w' = trace w ++ EvHooks preLabel :: List.map EvCommand ran ++ rest /\
    ran `prefix_of` Before spec /\
    (Before spec <> [] -> ran <> []) /\
    match stage with
    | StHooks => rest = [] /\ r <> None
    | StContext =>
        ran = Before spec /\ rest = [EvLoadBuildContext] /\ r <> None
    | StCache =>
        ran = Before spec /\
        exists rd, rest = EvLoadBuildContext :: rd /\ Forall isFileOp rd
    | StBackend =>
        ran = Before spec /\ r <> None /\
        exists rd b, rest = EvLoadBuildContext :: rd ++ [EvBackend b] /\
                     Forall isFileOp rd
    | StStore =>
        ran = Before spec /\ r <> None /\
        exists rd b st, rest = EvLoadBuildContext :: rd ++ EvBackend b :: st /\
                        Forall isFileOp rd /\ Forall isFileOp st
    | StPost =>
        ran = Before spec /\
        exists rd b st ran',
          rest = EvLoadBuildContext :: rd ++ EvBackend b :: st
                   ++ EvHooks postLabel :: List.map EvCommand ran' /\
          Forall isFileOp rd /\ Forall isFileOp st /\
          ran' `prefix_of` After spec /\
          (After spec <> [] -> ran' <> []) /\
          (r = None -> ran' = After spec)
    end.
Proof.
  intros Hskip Hrun.
  apply Module_doBuild_inv in Hrun.
  destruct Hrun as (pre & w1 & Hpre & Hrun).
  apply (runHooks_exact _ _ _ _ _ _ Hskip) in Hpre.
  destruct Hpre as (ran & Htr1 & Hprefix & Hne & Hall).
  destruct pre as [e|].
  { destruct Hrun as [-> ->]. exists StHooks, ran, [].
    rewrite app_nil_r. repeat split; try assumption. discriminate. }
  specialize (Hall eq_refl). subst ran. cbv zeta in Hrun.
  destruct (loadBuildContext m (fs w1)) as [[[bc rel] inc] [e|]].
  { destruct Hrun as [-> ->]. exists StContext, (Before spec), [EvLoadBuildContext].
    simpl. rewrite Htr1, <- app_assoc. repeat split; try assumption. discriminate. }
  destruct (Digest bc inc) as [digest [e|]].
  { destruct Hrun as [-> ->]. exists StContext, (Before spec), [EvLoadBuildContext].
    simpl. rewrite Htr1, <- app_assoc. repeat split; try assumption. discriminate. }
  destruct Hrun as (cached & err & w2 & Hcached & Hrun).
  apply CachedDigest_trace in Hcached.
  destruct Hcached as (_ & rd & Htr2 & Hrd). simpl in Htr2.
  assert (trace w2 = trace w ++ EvHooks preLabel :: List.map EvCommand (Before spec)
                       ++ EvLoadBuildContext :: rd) as Htr2'.
  { rewrite Htr2, Htr1. repeat (rewrite <- app_assoc || rewrite <- app_comm_cons).
    reflexivity. }
  assert (exists stage ran rest,
            trace w2 = trace w ++ EvHooks preLabel :: List.map EvCommand ran ++ rest /\
            ran `prefix_of` Before spec /\ (Before spec <> [] -> ran <> []) /\
            match stage with
            | StHooks => rest = [] /\ r <> None
            | StContext =>
                ran = Before spec /\ rest = [EvLoadBuildContext] /\ r <> None
            | StCache =>
                ran = Before spec /\
                exists rd, rest = EvLoadBuildContext :: rd /\ Forall isFileOp rd
            | StBackend =>
                ran = Before spec /\ r <> None /\
                exists rd b, rest = EvLoadBuildContext :: rd ++ [EvBackend b] /\
                             Forall isFileOp rd
            | StStore =>
                ran = Before spec /\ r <> None /\
                exists rd b st, rest = EvLoadBuildContext :: rd ++ EvBackend b :: st /\
                                Forall isFileOp rd /\ Forall isFileOp st
            | StPost =>
                ran = Before spec /\
                exists rd b st ran',
                  rest = EvLoadBuildContext :: rd ++ EvBackend b :: st
                           ++ EvHooks postLabel :: List.map EvCommand ran' /\
                  Forall isFileOp rd /\ Forall isFileOp st /\
                  ran' `prefix_of` After spec /\
                  (After spec <> [] -> ran' <> []) /\
                  (r = None -> ran' = After spec)
            end) as Hhere.
  { exists StCache, (Before spec), (EvLoadBuildContext :: rd).
    split; [exact Htr2'|]. split; [exact Hprefix|]. split; [exact Hne|].
    split; [reflexivity|]. eauto. }
  destruct (isOtherError err).
  { destruct Hrun as [_ ->]. exact Hhere. }
  destruct (_ && _)%bool.
  { destruct Hrun as [_ ->]. exact Hhere. }
  apply buildAndStore_inv in Hrun.
  destruct (Archive bc) as [tar [e|]].
  { destruct Hrun as [_ ->]. exact Hhere. }
  destruct Hrun as (built & w3 & Hbuilt & Hrun).
  apply doBuildBackend_trace in Hbuilt.
  destruct Hbuilt as (_ & [[b Htr3] | [Htr3 Hfailed]]).
  2:{ destruct built as [e|]; [|congruence]. destruct Hrun as [_ ->].
      rewrite Htr3. exact Hhere. }
  clear Hhere.
  assert (trace w3 = trace w ++ EvHooks preLabel :: List.map EvCommand (Before spec)
                       ++ EvLoadBuildContext :: rd ++ [EvBackend b]) as Htr3'.
  { rewrite Htr3, Htr2'. repeat (rewrite <- app_assoc || rewrite <- app_comm_cons).
    reflexivity. }
  destruct built as [e|].
  { destruct Hrun as [-> ->].
    exists StBackend, (Before spec), (EvLoadBuildContext :: rd ++ [EvBackend b]).
    split; [exact Htr3'|]. split; [exact Hprefix|]. split; [exact Hne|].
    split; [reflexivity|]. split; [discriminate|]. eauto. }
  destruct Hrun as (stored & w4 & Hstored & Hrun).
  apply cacheDigest_trace in Hstored. destruct Hstored as (st & Htr4 & Hst).
  assert (trace w4 = trace w ++ EvHooks preLabel :: List.map EvCommand (Before spec)
                       ++ EvLoadBuildContext :: rd ++ EvBackend b :: st) as Htr4'.
  { rewrite Htr4, Htr3'. repeat (rewrite <- app_assoc || rewrite <- app_comm_cons).
    reflexivity. }
  destruct stored as [e|].
  { destruct Hrun as [-> ->].
    exists StStore, (Before spec), (EvLoadBuildContext :: rd ++ EvBackend b :: st).
    split; [exact Htr4'|]. split; [exact Hprefix|]. split; [exact Hne|].
    split; [reflexivity|]. split; [discriminate|]. eauto 10. }
  apply (runHooks_exact _ _ _ _ _ _ Hskip) in Hrun.
  destruct Hrun as (ran' & Htr5 & Hprefix' & Hne' & Hall').
  exists StPost, (Before spec),
    (EvLoadBuildContext :: rd ++ EvBackend b :: st
       ++ EvHooks postLabel :: List.map EvCommand ran').
  split.
  { rewrite Htr5, Htr4'. repeat (rewrite <- app_assoc || rewrite <- app_comm_cons).
    reflexivity. }
  split; [exact Hprefix|]. split; [exact Hne|]. split; [reflexivity|].
  exists rd, b, st, ran'. auto 10.
Qed.

(** Every run of Module.doBuild ends in one of six stages, and the events
    it adds have the shape of that stage; it returns [nil] only from the
    cache stage or after the post-build hooks. *)
Lemma Module_doBuild_stages (m : Module) (spec : BuildSpec)
    (options : BuildOptions) (w w' : World) (r : error) :
  Module_doBuild m spec options w = (r, w') ->
  exists stage evs,
    trace w' = trace w ++ evs /\
    doBuildTrace spec options stage evs /\
    (r = None -> stage = StCache \/ stage = StPost).
Proof.
  unfold Module_doBuild. intros Hrun.
  rewrite bind_run in Hrun.
  destruct (runHooks options "pre-build hook failure" (Before spec) w)
    as [pre w1] eqn:Hpre.
  apply runHooks_trace in Hpre. destruct Hpre as (evp & Htr1 & Hshape1).
  destruct pre as [e|].
  { inversion Hrun; subst. exists StHooks, evp.
    split; [assumption|]. split; [constructor; assumption | discriminate]. }
  rewrite bind_run, fsop_run in Hrun. simpl in Hrun.
  destruct (loadBuildContext m (fs w1)) as [[[bc rel] inc] [e|]].
  { inversion Hrun; subst. exists StContext, (evp ++ [EvLoadBuildContext]). simpl.
    split; [rewrite Htr1, <- app_assoc; reflexivity|].
    split; [constructor; assumption | discriminate]. }
  destruct (Digest bc inc) as [digest [e|]].
  { inversion Hrun; subst. exists StContext, (evp ++ [EvLoadBuildContext]). simpl.
    split; [rewrite Htr1, <- app_assoc; reflexivity|].
    split; [constructor; assumption | discriminate]. }
  rewrite bind_run in Hrun.
  match type of Hrun with
  | context [CachedDigest m ?w0] =>
      destruct (CachedDigest m w0) as [[cachedDigest err] w2] eqn:Hcached
  end.
  apply CachedDigest_trace in Hcached. destruct Hcached as (_ & evr & Htr2 & Hops2).
  simpl in Htr2.
  assert (trace w2 = trace w ++ evp ++ [EvLoadBuildContext] ++ evr) as Htr2'.
  { rewrite Htr2, Htr1, <- !app_assoc. reflexivity. }
  destruct (isOtherError err) eqn:Hother.
  { inversion Hrun; subst. exists StCache, (evp ++ [EvLoadBuildContext] ++ evr).
    split; [assumption|]. split; [constructor; assumption|].
    intros ->. discriminate. }
  destruct (_ && _)%bool.
  { inversion Hrun; subst. exists StCache, (evp ++ [EvLoadBuildContext] ++ evr).
    split; [assumption|]. split; [constructor; assumption | auto]. }
  unfold buildAndStore in Hrun.
  destruct (Archive bc) as [tar [e|]].
  { inversion Hrun; subst. exists StCache, (evp ++ [EvLoadBuildContext] ++ evr).
    split; [assumption|]. split; [constructor; assumption | discriminate]. }
  rewrite bind_run in Hrun.
  destruct (doBuildBackend m spec tar rel options w2) as [built w3] eqn:Hbuilt.
  apply doBuildBackend_trace in Hbuilt.
  destruct Hbuilt as (_ & [[b Htr3] | [Htr3 Hfail]]).
  2:{ destruct built as [e|]; [|congruence].
      inversion Hrun; subst. exists StCache, (evp ++ [EvLoadBuildContext] ++ evr).
      split; [congruence|]. split; [constructor; assumption | discriminate]. }
  assert (trace w3 = trace w ++ evp ++ [EvLoadBuildContext] ++ evr ++ [EvBackend b])
    as Htr3'.
  { rewrite Htr3, Htr2'. rewrite <- !app_assoc. reflexivity. }
  destruct built as [e|].
  { inversion Hrun; subst. eexists StBackend, _.
    split; [eassumption|]. split; [constructor; assumption | discriminate]. }
  rewrite bind_run in Hrun.
  destruct (cacheDigest m digest w3) as [stored w4] eqn:Hstored.
  apply cacheDigest_trace in Hstored. destruct Hstored as (evs & Htr4 & Hops4).
  assert (trace w4
          = trace w ++ evp ++ [EvLoadBuildContext] ++ evr ++ [EvBackend b] ++ evs)
    as Htr4'.
  { rewrite Htr4, Htr3'. rewrite <- !app_assoc. reflexivity. }
  destruct stored as [e|].
  { inversion Hrun; subst. eexists StStore, _.
    split; [eassumption|]. split; [constructor; assumption | discriminate]. }
  rewrite bind_run in Hrun.
  destruct (runHooks options "post-build hook failure" (After spec) w4)
    as [post w5] eqn:Hpost.
  apply runHooks_trace in Hpost. destruct Hpost as (evq & Htr5 & Hshape5).
  assert (w' = w5) as -> by (destruct post; inversion Hrun; reflexivity).
  exists StPost, (evp ++ [EvLoadBuildContext] ++ evr ++ [EvBackend b] ++ evs ++ evq).
  split.
  { rewrite Htr5, Htr4'. rewrite <- !app_assoc. reflexivity. }
  split; [constructor; assumption | auto].
Qed.

End DoBuild.

(** ** The cache test of Module.doBuild *)

Section CacheHit.

Context `{Collaborators}.

Lemma backendCalls_app (t1 t2 : list Event) :
  backendCalls (t1 ++ t2) = (backendCalls t1 + backendCalls t2)%nat.
Proof. unfold backendCalls. rewrite filter_app, length_app. reflexivity. Qed.

Lemma backendCalls_commands (ran : list string) :
  backendCalls (List.map EvCommand ran) = 0%nat.
Proof. induction ran as [|c ran IH]; [reflexivity | exact IH]. Qed.

Lemma backendCalls_hooks (options : BuildOptions) (label : string)
    (commands : list string) (evs : list Event) :
  hooksTrace options label commands evs -> backendCalls evs = 0%nat.
Proof.
  unfold hooksTrace. destruct (SkipHooks options).
  - intros ->. reflexivity.
  - intros (ran & -> & _). apply (backendCalls_commands ran).
Qed.

Lemma backendCalls_fileOps (evs : list Event) :
  Forall isFileOp evs -> backendCalls evs = 0%nat.
Proof.
  induction 1 as [|e evs He _ IH]; [reflexivity|].
  destruct e; simpl in He; try contradiction; exact IH.
Qed.

(** A caller that is alone runs Build to its end in five steps when the
    body succeeds: claim, body, lock, status, delivery. *)
Lemma run_alone_success (depBuild : Module -> BuildOptions -> error)
    (m : Module) (options : BuildOptions) (w w' : World) :
  Module_Build_body depBuild m options w = (None, w') ->
  run depBuild m (fun _ => options) [0; 0; 0; 0; 0]%nat (initial 1 w)
  = Some (mkConfig (mkShared BuildStatusSucceeded None [] false)
                   [None] [Returned None] w').
Proof.
  intros Hbody. cbv -[Module_Build_body]. rewrite Hbody. reflexivity.
Qed.

(** The same when the body fails, in six steps: the status is stored
    before the error. *)
Lemma run_alone_failure (depBuild : Module -> BuildOptions -> error)
    (m : Module) (options : BuildOptions) (w w' : World) (e : goerror) :
  Module_Build_body depBuild m options w = (Some e, w') ->
  run depBuild m (fun _ => options) [0; 0; 0; 0; 0; 0]%nat (initial 1 w)
  = Some (mkConfig (mkShared BuildStatusFailed (Some (Error_ e)) [] false)
                   [None] [Returned (Some e)] w').
Proof.
  intros Hbody. cbv -[Module_Build_body]. rewrite Hbody. reflexivity.
Qed.

End CacheHit.

(** C2: when the pre-build hooks passed, the context was assembled, its
    digest equals the digest read from the cache and NoCache is false,
    Module.doBuild returns [nil] without any backend call, and the Build
    that runs it takes the module from Pending through InProgress to
    Succeeded. *)
Theorem cache_hit_skips_backend `{Collaborators}
    (depBuild : Module -> BuildOptions -> error)
    (m : Module) (spec : BuildSpec) (options : BuildOptions)
    (w w1 w2 : World) (bc : BuildContext) (rel digest : string)
    (inc : IgnoreMatcher) :
  Build (Spec m) = Some spec ->
  NoCache options = false ->
  Module_buildDependencies depBuild m options = None ->
  runHooks options "pre-build hook failure" (Before spec) w = (None, w1) ->
  loadBuildContext m (fs w1) = ((bc, rel, inc), None) ->
  Digest bc inc = (digest, None) ->
  CachedDigest m (mkWorld (fs w1) (trace w1 ++ [EvLoadBuildContext]))
    = ((digest, None), w2) ->
  Module_doBuild m spec options w = (None, w2) /\
  backendCalls (trace w2) = backendCalls (trace w) /\
  (exists c, run depBuild m (fun _ => options) [0]%nat (initial 1 w) = Some c /\
             status (shared c) = BuildStatusInProgress) /\
  (exists c, run depBuild m (fun _ => options) [0; 0; 0; 0; 0]%nat (initial 1 w) = Some c /\
             status (shared c) = BuildStatusSucceeded /\
             callers c = [Returned None] /\
             backendCalls (trace (world c)) = backendCalls (trace w)).
Proof.
  intros Hspec Hnocache Hdeps Hpre Hload Hdigest Hcached.
  assert (Module_doBuild m spec options w = (None, w2)) as Hrun.
  { unfold Module_doBuild. rewrite bind_run, Hpre, bind_run, fsop_run. simpl.
    rewrite Hload, Hdigest, bind_run, Hcached. simpl.
    rewrite String.eqb_refl, Hnocache. reflexivity. }
  assert (backendCalls (trace w2) = backendCalls (trace w)) as Hcalls.
  { apply runHooks_trace in Hpre. destruct Hpre as (evp & Htr1 & Hshape).
    apply CachedDigest_trace in Hcached. destruct Hcached as (_ & evr & Htr2 & Hops).
    simpl in Htr2. rewrite Htr2, Htr1, !backendCalls_app.
    rewrite (backendCalls_hooks _ _ _ _ Hshape), (backendCalls_fileOps _ Hops).
    change (backendCalls [EvLoadBuildContext]) with 0%nat. lia. }
  assert (Module_Build_body depBuild m options w = (None, w2)) as Hbody.
  { unfold Module_Build_body, pool_Process.
    rewrite Hdeps, Hspec, bind_run, Hrun. reflexivity. }
  split; [exact Hrun|]. split; [exact Hcalls|]. split.
  - eexists. split; [reflexivity | reflexivity].
  - eexists. split; [apply (run_alone_success _ _ _ _ _ Hbody)|].
    simpl. auto.
Qed.

(** A second build of the module [web] with its recipe unchanged. *)
Lemma cache_hit_skips_backend_witness :
  Module_doBuild web webSpec defaultOptions (mkWorld cachedFS []) =
    (None, mkWorld cachedFS
       [EvHooks "pre-build hook failure"; EvCommand "make generate";
        EvLoadBuildContext; EvReadFile "/home/u/.kindest/digests/_repo_web"]) /\
  backendCalls
    [EvHooks "pre-build hook failure"; EvCommand "make generate";
     EvLoadBuildContext; EvReadFile "/home/u/.kindest/digests/_repo_web"] = 0%nat.
Proof.
  pose proof (cache_hit_skips_backend noDeps web webSpec defaultOptions
    (mkWorld cachedFS [])
    (mkWorld cachedFS [EvHooks "pre-build hook failure"; EvCommand "make generate"])
    (mkWorld cachedFS
       [EvHooks "pre-build hook failure"; EvCommand "make generate";
        EvLoadBuildContext; EvReadFile "/home/u/.kindest/digests/_repo_web"])
    webRecipe "Dockerfile" ("sha256:" +:+ webRecipe) []
    eq_refl eq_refl eq_refl eq_refl eq_refl eq_refl eq_refl) as (Hrun & Hcalls & _).
  split; [exact Hrun | exact Hcalls].
Defined.

(** ** Hooks *)

Section Hooks.

Context `{Collaborators}.

Lemma fileOps_no_hooks (evs : list Event) (label : string) :
  Forall isFileOp evs -> ~ In (EvHooks label) evs.
Proof.
  intros Hops Hin. rewrite Forall_forall in Hops.
  apply (Hops (EvHooks label)). apply list_elem_of_In. exact Hin.
Qed.

Lemma hooksTrace_run (options : BuildOptions) (label : string)
    (commands : list string) (evs : list Event) :
  SkipHooks options = false ->
  hooksTrace options label commands evs ->
  exists ran, evs = EvHooks label :: List.map EvCommand ran /\
              ran `prefix_of` commands /\ (commands <> [] -> ran <> []).
Proof. unfold hooksTrace. intros ->. auto. Qed.

Lemma backendCalls_one (b : string) : backendCalls [EvBackend b] = 1%nat.
Proof. reflexivity. Qed.

End Hooks.

(** C5, as the code has it: with SkipHooks false every Module.doBuild
    starts with the pre-build hooks, before the context is assembled and
    the digest compared, hence also on a cache hit.  The pre-build
    commands run in order from the first; either all of them run, or the
    run ends in the pre-build phase with an error and nothing else
    happens.  After the pre-build phase no command runs but the
    post-build commands, and these run only after the one backend call of
    the run, in order from the first, all of them when the run returns
    [nil].  So a run that goes past the pre-build phase without a backend
    call, a cache hit among them, has run every pre-build command and
    runs no post-build command. *)
Theorem hooks_around_backend `{Collaborators}
    (m : Module) (spec : BuildSpec) (options : BuildOptions)
    (w w' : World) (r : error) :
  SkipHooks options = false ->
  Module_doBuild m spec options w = (r, w') ->
  exists ran evs,
    trace w' = trace w ++ EvHooks preLabel :: List.map EvCommand ran ++ evs /\
    ran `prefix_of` Before spec /\
    (Before spec <> [] -> ran <> []) /\
    (backendCalls evs <= 1)%nat /\
    (In (EvHooks postLabel) evs ->
       exists before b after,
         evs = before ++ EvBackend b :: after /\ In (EvHooks postLabel) after) /\
    (backendCalls evs = 0%nat -> ~ In (EvHooks postLabel) evs) /\
    (evs <> [] \/ r = None -> ran = Before spec) /\
    (evs = [] -> r <> None) /\
    (forall e evs', evs = e :: evs' -> e = EvLoadBuildContext) /\
    exists quiet post,
      evs = quiet ++ post /\
      Forall (fun e => e = EvLoadBuildContext \/ isFileOp e \/
                       exists b, e = EvBackend b) quiet /\
      (post = [] \/
       exists ran',
         post = EvHooks postLabel :: List.map EvCommand ran' /\
         ran' `prefix_of` After spec /\
         (After spec <> [] -> ran' <> []) /\
         (r = None -> ran' = After spec) /\
         backendCalls quiet = 1%nat) /\
      (r = None -> backendCalls evs = 1%nat -> post <> []).
Proof.
  intros Hskip Hrun.
  apply (Module_doBuild_exact _ _ _ _ _ _ Hskip) in Hrun.
  destruct Hrun as (stage & ran & evs & Htr & Hprefix & Hne & Hstage).
  exists ran, evs.
  split; [exact Htr|]. split; [exact Hprefix|]. split; [exact Hne|].
  assert (forall rd : list Event, Forall isFileOp rd ->
            Forall (fun e => e = EvLoadBuildContext \/ isFileOp e \/
                             exists b, e = EvBackend b) rd) as Hquiet.
  { intros rd Hrd. eapply Forall_impl; [exact Hrd|]. simpl. auto. }
  destruct stage.
  - (* a pre-build hook failed *)
    destruct Hstage as [-> Hr].
    split; [vm_compute; lia|]. split; [intros []|]. split; [intros _ []|].
    split; [intros [Habs | Habs]; congruence|]. split; [intros _; exact Hr|].
    split; [intros e evs' Habs; discriminate Habs|].
    exists [], []. split; [reflexivity|]. split; [constructor|].
    split; [left; reflexivity | intros Habs; congruence].
  - (* the context or its digest failed *)
    destruct Hstage as (-> & -> & Hr).
    split; [vm_compute; lia|].
    split; [intros [Heq | []]; discriminate Heq|].
    split; [intros _ [Heq | []]; discriminate Heq|].
    split; [reflexivity|]. split; [discriminate|].
    split; [intros e evs' Heq; inversion Heq; reflexivity|].
    exists [EvLoadBuildContext], []. split; [reflexivity|].
    split; [repeat constructor; auto|].
    split; [left; reflexivity | intros Habs; congruence].
  - (* returned after the cache was consulted *)
    destruct Hstage as (-> & rd & -> & Hrd).
    assert (backendCalls (EvLoadBuildContext :: rd) = 0%nat) as Hzero.
    { change (EvLoadBuildContext :: rd) with ([EvLoadBuildContext] ++ rd).
      rewrite backendCalls_app, (backendCalls_fileOps _ Hrd). reflexivity. }
    assert (~ In (EvHooks postLabel) (EvLoadBuildContext :: rd)) as Hnot.
    { intros [Heq | Hin]; [discriminate Heq|].
      exact (fileOps_no_hooks _ _ Hrd Hin). }
    split; [lia|]. split; [intros Hin; contradiction|]. split; [auto|].
    split; [reflexivity|]. split; [discriminate|].
    split; [intros e evs' Heq; inversion Heq; reflexivity|].
    exists (EvLoadBuildContext :: rd), []. split; [rewrite app_nil_r; reflexivity|].
    split; [constructor; [auto | apply Hquiet, Hrd]|].
    split; [left; reflexivity | intros _ Hone; lia].
  - (* the backend failed *)
    destruct Hstage as (-> & Hr & rd & b & -> & Hrd).
    assert (backendCalls (EvLoadBuildContext :: rd ++ [EvBackend b]) = 1%nat) as Hone.
    { change (EvLoadBuildContext :: rd ++ [EvBackend b])
        with ([EvLoadBuildContext] ++ rd ++ [EvBackend b]).
      rewrite !backendCalls_app, (backendCalls_fileOps _ Hrd). reflexivity. }
    split; [lia|]. split.
    { intros [Heq | Hin]; [discriminate Heq|].
      apply in_app_or in Hin. destruct Hin as [Hin | [Heq | []]].
      - destruct (fileOps_no_hooks _ _ Hrd Hin).
      - discriminate Heq. }
    split; [lia|]. split; [reflexivity|]. split; [discriminate|].
    split; [intros e evs' Heq; inversion Heq; reflexivity|].
    exists (EvLoadBuildContext :: rd ++ [EvBackend b]), [].
    split; [rewrite app_nil_r; reflexivity|]. split.
    { constructor; [auto|]. apply Forall_app. split; [apply Hquiet, Hrd|].
      apply Forall_cons_2; [eauto | apply Forall_nil_2]. }
    split; [left; reflexivity | intros Habs; congruence].
  - (* the digest could not be stored *)
    destruct Hstage as (-> & Hr & rd & b & st & -> & Hrd & Hst).
    assert (backendCalls (EvLoadBuildContext :: rd ++ EvBackend b :: st) = 1%nat) as Hone.
    { change (EvLoadBuildContext :: rd ++ EvBackend b :: st)
        with ([EvLoadBuildContext] ++ rd ++ [EvBackend b] ++ st).
      rewrite !backendCalls_app, (backendCalls_fileOps _ Hrd),
        (backendCalls_fileOps _ Hst). reflexivity. }
    split; [lia|]. split.
    { intros [Heq | Hin]; [discriminate Heq|].
      apply in_app_or in Hin. destruct Hin as [Hin | [Heq | Hin]].
      - destruct (fileOps_no_hooks _ _ Hrd Hin).
      - discriminate Heq.
      - destruct (fileOps_no_hooks _ _ Hst Hin). }
    split; [lia|]. split; [reflexivity|]. split; [discriminate|].
    split; [intros e evs' Heq; inversion Heq; reflexivity|].
    exists (EvLoadBuildContext :: rd ++ EvBackend b :: st), [].
    split; [rewrite app_nil_r; reflexivity|]. split.
    { constructor; [auto|]. apply Forall_app. split; [apply Hquiet, Hrd|].
      constructor; [eauto | apply Hquiet, Hst]. }
    split; [left; reflexivity | intros Habs; congruence].
  - (* the post-build hooks were reached *)
    destruct Hstage as (-> & rd & b & st & ran' & -> & Hrd & Hst & Hprefix' & Hne' & Hall').
    assert (backendCalls (EvLoadBuildContext :: rd ++ EvBackend b :: st) = 1%nat) as Hq.
    { change (EvLoadBuildContext :: rd ++ EvBackend b :: st)
        with ([EvLoadBuildContext] ++ rd ++ [EvBackend b] ++ st).
      rewrite !backendCalls_app, (backendCalls_fileOps _ Hrd),
        (backendCalls_fileOps _ Hst). reflexivity. }
    assert (backendCalls (EvLoadBuildContext :: rd ++ EvBackend b :: st
                 ++ EvHooks postLabel :: List.map EvCommand ran') = 1%nat) as Hone.
    { change (EvLoadBuildContext :: rd ++ EvBackend b :: st
                 ++ EvHooks postLabel :: List.map EvCommand ran')
        with ([EvLoadBuildContext] ++ rd ++ [EvBackend b] ++ st
                 ++ [EvHooks postLabel] ++ List.map EvCommand ran').
      rewrite !backendCalls_app, (backendCalls_fileOps _ Hrd),
        (backendCalls_fileOps _ Hst), backendCalls_commands. reflexivity. }
    split; [lia|]. split.
    { intros _. exists (EvLoadBuildContext :: rd), b,
        (st ++ EvHooks postLabel :: List.map EvCommand ran').
      split; [reflexivity|].
      apply in_or_app. right. left. reflexivity. }
    split; [lia|]. split; [reflexivity|]. split; [discriminate|].
    split; [intros e evs' Heq; inversion Heq; reflexivity|].
    exists (EvLoadBuildContext :: rd ++ EvBackend b :: st),
      (EvHooks postLabel :: List.map EvCommand ran').
    split.
    { repeat (rewrite <- app_assoc || rewrite <- app_comm_cons). reflexivity. }
    split.
    { constructor; [auto|]. apply Forall_app. split; [apply Hquiet, Hrd|].
      constructor; [eauto | apply Hquiet, Hst]. }
    split; [right; exists ran'; auto 10 | intros _ _; discriminate].
Qed.

(** The first build of the module [web]: both hook phases and one backend
    call. *)
Lemma hooks_around_backend_witness :
  SkipHooks defaultOptions = false /\
  exists ran evs,
    [EvHooks "pre-build hook failure"; EvCommand "make generate";
     EvLoadBuildContext; EvReadFile "/home/u/.kindest/digests/_repo_web";
     EvBackend "docker"; EvStat "/home/u/.kindest/digests";
     EvMkdirAll "/home/u/.kindest/digests";
     EvOpenTrunc "/home/u/.kindest/digests/_repo_web";
     EvWrite "/home/u/.kindest/digests/_repo_web" ("sha256:" +:+ webRecipe);
     EvHooks "post-build hook failure"; EvCommand "make clean"]
    = [] ++ EvHooks preLabel :: List.map EvCommand ran ++ evs /\
    ran `prefix_of` ["make generate"] /\
    (backendCalls evs <= 1)%nat /\
    ran = ["make generate"].
Proof.
  split; [reflexivity|].
  destruct (hooks_around_backend web webSpec defaultOptions
              (mkWorld freshFS [])
              (Module_doBuild web webSpec defaultOptions (mkWorld freshFS [])).2
              None)
    as (ran & evs & Htr & Hprefix & _ & Hcalls & _ & _ & Hall & _);
    [reflexivity | vm_compute; reflexivity |].
  exists ran, evs. split; [exact Htr|]. split; [exact Hprefix|].
  split; [exact Hcalls | exact (Hall (or_intror eq_refl))].
Defined.

(** C5 as stated fails on a cache hit: the second build of [web] runs the
    pre-build command although no backend build occurs. *)
Lemma hooks_run_on_cache_hit :
  SkipHooks defaultOptions = false /\
  NoCache defaultOptions = false /\
  (Module_doBuild web webSpec defaultOptions (mkWorld cachedFS [])).1 = None /\
  let t := trace (Module_doBuild web webSpec defaultOptions (mkWorld cachedFS [])).2 in
  In (EvHooks preLabel) t /\
  In (EvCommand "make generate") t /\
  backendCalls t = 0%nat /\
  ~ hooksOnlyWithBackend t.
Proof.
  split; [reflexivity|]. split; [reflexivity|]. split; [reflexivity|].
  cbv zeta.
  assert (trace (Module_doBuild web webSpec defaultOptions (mkWorld cachedFS [])).2
          = [EvHooks preLabel; EvCommand "make generate"; EvLoadBuildContext;
             EvReadFile "/home/u/.kindest/digests/_repo_web"]) as -> by reflexivity.
  split; [left; reflexivity|]. split; [right; left; reflexivity|].
  split; [reflexivity|].
  intros [[Hpre _] _].
  assert (0 < 0)%nat as Habs; [|lia].
  apply Hpre. left. reflexivity.
Qed.

(** ** The digest cache *)

Section DigestCache.

Context `{Collaborators}.

Lemma replay_app (evs1 evs2 : list Event) (fs0 : FileSystem) :
  replay (evs1 ++ evs2) fs0 = replay evs2 (replay evs1 fs0).
Proof. unfold replay. apply fold_left_app. Qed.

End DigestCache.

(** C7, as the code has it: cacheDigest looks at the directory of the
    record, creates it with its parents when [os.Stat] reports that it
    does not exist, and only then (after any other error of [os.Stat],
    such as a regular file among the ancestors, it creates nothing), and
    then writes the digest to the record's own path by opening it with
    truncation and writing; these are its only effects on the file system:
    it writes no other file and renames nothing.  When it returns [nil]
    the record holds the digest. *)
Theorem cacheDigest_writes_in_place `{Collaborators}
    (m : Module) (digest path : string) (w w' : World) (r : error) :
  digestPathForManifest (Dir m) = (path, None) ->
  cacheDigest m digest w = (r, w') ->
  let dir := filepath.Dir path in
  exists evs,
    trace w' = trace w ++ EvStat dir :: evs /\
    fs w' = replay (EvStat dir :: evs) (fs w) /\
    Forall (fun e => e = EvMkdirAll dir \/ e = EvOpenTrunc path \/
                     e = EvWrite path digest) evs /\
    (os.IsNotExist (os.StatError (fs w) dir) = true ->
       exists evs', evs = EvMkdirAll dir :: evs') /\
    (os.IsNotExist (os.StatError (fs w) dir) = false ->
       evs = [EvOpenTrunc path] \/ evs = [EvOpenTrunc path; EvWrite path digest]) /\
    (r = None ->
       (exists pre, evs = pre ++ [EvOpenTrunc path; EvWrite path digest]) /\
       fs w' !! path = Some (File digest)).
Proof.
  intros Hpath Hrun dir. unfold cacheDigest in Hrun. rewrite Hpath in Hrun.
  fold dir in Hrun.
  rewrite bind_run in Hrun. unfold go_Stat in Hrun. rewrite fsop_run in Hrun.
  simpl in Hrun. rewrite bind_run in Hrun.
  set (w0 := mkWorld (fs w) (trace w ++ [EvStat dir])) in *.
  assert (exists made w1 evs1,
             (if os.IsNotExist (os.StatError (fs w) dir)
              then go_MkdirAll dir else mret None) w0 = (made, w1) /\
             trace w1 = trace w0 ++ evs1 /\
             fs w1 = replay evs1 (fs w) /\
             Forall (fun e => e = EvMkdirAll dir) evs1 /\
             (os.IsNotExist (os.StatError (fs w) dir) = true ->
                evs1 = [EvMkdirAll dir]) /\
             (os.IsNotExist (os.StatError (fs w) dir) = false ->
                evs1 = [] /\ made = None))
    as (made & w1 & evs1 & Hmade & Htr1 & Hfs1 & Hops1 & Hmk & Hnomk).
  { destruct (os.IsNotExist (os.StatError (fs w) dir)).
    - unfold go_MkdirAll. rewrite fsop_run.
      eexists _, _, [EvMkdirAll dir].
      split; [reflexivity|]. split; [reflexivity|]. split; [reflexivity|].
      split; [repeat constructor|]. split; [reflexivity | discriminate].
    - exists None, w0, []. rewrite app_nil_r.
      repeat split; [constructor | discriminate]. }
  rewrite Hmade in Hrun.
  destruct made as [e|].
  { inversion Hrun; subst. exists evs1.
    split; [rewrite Htr1; simpl; rewrite <- app_assoc; reflexivity|].
    split; [exact Hfs1|].
    split; [eapply Forall_impl; [exact Hops1 | intros ? ->; auto]|].
    split; [intros Hnone; rewrite (Hmk Hnone); eauto|].
    split; [|discriminate].
    intros Hnot. destruct (Hnomk Hnot) as [_ Habs]. discriminate Habs. }
  rewrite bind_run in Hrun. unfold go_WriteFile in Hrun.
  rewrite bind_run, fsop_run in Hrun.
  destruct (os.OpenTrunc (fs w1) path) as [[e|] fs2] eqn:Hopen; simpl in Hrun.
  { inversion Hrun; subst. exists (evs1 ++ [EvOpenTrunc path]).
    split; [simpl; rewrite Htr1; simpl; rewrite <- ?app_assoc; reflexivity|].
    split.
    { simpl. change (replay (EvStat dir :: evs1 ++ [EvOpenTrunc path]) (fs w))
        with (replay (evs1 ++ [EvOpenTrunc path]) (fs w)).
      rewrite replay_app, <- Hfs1. simpl. rewrite Hopen. reflexivity. }
    split.
    { apply Forall_app. split.
      - eapply Forall_impl; [exact Hops1 | intros ? ->; auto].
      - repeat (apply Forall_cons_2; [auto|]). apply Forall_nil_2. }
    split; [intros Hnone; rewrite (Hmk Hnone); eauto|].
    split; [|discriminate].
    intros Hnot. destruct (Hnomk Hnot) as [-> _]. left. reflexivity. }
  inversion Hrun; subst.
  exists (evs1 ++ [EvOpenTrunc path; EvWrite path digest]).
  split; [simpl; rewrite Htr1; simpl; rewrite <- ?app_assoc; reflexivity|].
  split.
  { simpl.
    change (replay (EvStat dir :: evs1 ++ [EvOpenTrunc path; EvWrite path digest]) (fs w))
      with (replay (evs1 ++ [EvOpenTrunc path; EvWrite path digest]) (fs w)).
    rewrite replay_app, <- Hfs1. simpl. rewrite Hopen. reflexivity. }
  split.
  { apply Forall_app. split.
    - eapply Forall_impl; [exact Hops1 | intros ? ->; auto].
    - repeat (apply Forall_cons_2; [auto|]). apply Forall_nil_2. }
  split; [intros Hnone; rewrite (Hmk Hnone); eauto|].
  split.
  { intros Hnot. destruct (Hnomk Hnot) as [-> _]. right. reflexivity. }
  intros _. split; [eauto|].
  simpl. unfold os.Write. apply lookup_insert_eq.
Qed.

(** Storing a new digest over the record of an earlier build. *)
Lemma cacheDigest_writes_in_place_witness :
  digestPathForManifest (Dir web) = ("/home/u/.kindest/digests/_repo_web", None) /\
  exists evs,
    [EvStat "/home/u/.kindest/digests";
     EvOpenTrunc "/home/u/.kindest/digests/_repo_web";
     EvWrite "/home/u/.kindest/digests/_repo_web" "sha256:new"]
    = [] ++ EvStat "/home/u/.kindest/digests" :: evs /\
    Forall (fun e => e = EvMkdirAll "/home/u/.kindest/digests" \/
                     e = EvOpenTrunc "/home/u/.kindest/digests/_repo_web" \/
                     e = EvWrite "/home/u/.kindest/digests/_repo_web" "sha256:new") evs.
Proof.
  split; [reflexivity|].
  destruct (cacheDigest_writes_in_place web "sha256:new"
              "/home/u/.kindest/digests/_repo_web"
              (mkWorld staleFS [])
              (cacheDigest web "sha256:new" (mkWorld staleFS [])).2
              None)
    as (evs & Htr & _ & Hops & _); [reflexivity | reflexivity |].
  exists evs. split; [exact Htr | exact Hops].
Defined.

(** C7 as stated fails: storing a digest over an earlier record neither
    writes a temporary file nor renames one, and between the two steps of
    the write the record reads as the empty string, which is neither the
    old digest nor the new one. *)
Lemma cacheDigest_not_atomic :
  let path := "/home/u/.kindest/digests/_repo_web" in
  let t := trace (cacheDigest web "sha256:new" (mkWorld staleFS [])).2 in
  (cacheDigest web "sha256:new" (mkWorld staleFS [])).1 = None /\
  t = [EvStat "/home/u/.kindest/digests"; EvOpenTrunc path;
       EvWrite path "sha256:new"] /\
  (forall oldpath newpath, ~ In (EvRename oldpath newpath) t) /\
  os.ReadFile staleFS path = ("sha256:FROM alpine:3.10", None) /\
  os.ReadFile (replay (take 2 t) staleFS) path = ("", None) /\
  os.ReadFile (replay t staleFS) path = ("sha256:new", None).
Proof.
  cbv zeta.
  assert (trace (cacheDigest web "sha256:new" (mkWorld staleFS [])).2
          = [EvStat "/home/u/.kindest/digests";
             EvOpenTrunc "/home/u/.kindest/digests/_repo_web";
             EvWrite "/home/u/.kindest/digests/_repo_web" "sha256:new"]) as ->
    by reflexivity.
  split; [reflexivity|]. split; [reflexivity|]. split.
  - intros oldpath newpath [Heq | [Heq | [Heq | []]]]; discriminate Heq.
  - split; [reflexivity|]. split; reflexivity.
Qed.

(** C6, as the code has it: a digest record that cannot be read is
    reported as "module is not cached" with an empty cached digest, which
    Module.doBuild does not treat as an error: it goes on to the archive
    and the backend, unless the digest of the context is itself the empty
    string and NoCache is false, when it returns [nil] as on a cache hit.
    But when the backend build succeeded and the new digest cannot be
    stored, Module.doBuild returns the error of the store, and the Build
    that ran it fails and leaves the module Failed. *)
Theorem cache_read_advisory_write_fatal `{Collaborators}
    (depBuild : Module -> BuildOptions -> error)
    (m : Module) (spec : BuildSpec) (options : BuildOptions)
    (w w1 w2 : World) (bc : BuildContext) (rel digest cached : string)
    (inc : IgnoreMatcher) (err : error) :
  Build (Spec m) = Some spec ->
  Module_buildDependencies depBuild m options = None ->
  runHooks options "pre-build hook failure" (Before spec) w = (None, w1) ->
  loadBuildContext m (fs w1) = ((bc, rel, inc), None) ->
  Digest bc inc = (digest, None) ->
  CachedDigest m (mkWorld (fs w1) (trace w1 ++ [EvLoadBuildContext]))
    = ((cached, err), w2) ->
  (forall path,
     digestPathForManifest (Dir m) = (path, None) ->
     (os.ReadFile (fs w1) path).2 <> None ->
     cached = "" /\ err = Some ErrModuleNotCached /\
     Module_doBuild m spec options w
     = if (String.eqb digest "" && negb (NoCache options))%bool
       then (None, w2)
       else buildAndStore m spec options bc rel digest w2) /\
  (forall tar w3 e w4,
     Module_doBuild m spec options w
       = buildAndStore m spec options bc rel digest w2 ->
     Archive bc = (tar, None) ->
     doBuildBackend m spec tar rel options w2 = (None, w3) ->
     cacheDigest m digest w3 = (Some e, w4) ->
     Module_doBuild m spec options w = (Some e, w4) /\
     exists c,
       run depBuild m (fun _ => options) [0; 0; 0; 0; 0; 0]%nat (initial 1 w) = Some c /\
       status (shared c) = BuildStatusFailed /\
       callers c = [Returned (Some e)]).
Proof.
  intros Hspec Hdeps Hpre Hload Hdigest Hcached.
  assert (Module_doBuild m spec options w
          = if isOtherError err then (err, w2)
            else if (String.eqb digest cached && negb (NoCache options))%bool
                 then (None, w2)
                 else buildAndStore m spec options bc rel digest w2) as Hunfold.
  { unfold Module_doBuild. rewrite bind_run, Hpre, bind_run, fsop_run. simpl.
    rewrite Hload, Hdigest, bind_run, Hcached. simpl.
    destruct (isOtherError err); [reflexivity|].
    destruct (_ && _)%bool; reflexivity. }
  split.
  - intros path Hpath Hread.
    unfold CachedDigest in Hcached. rewrite Hpath in Hcached.
    rewrite bind_run in Hcached. unfold go_ReadFile in Hcached.
    rewrite fsop_run in Hcached. simpl in Hcached.
    destruct (os.ReadFile (fs w1) path) as [body [e|]]; [|simpl in Hread; congruence].
    inversion Hcached; subst.
    split; [reflexivity|]. split; [reflexivity|].
    rewrite Hunfold. reflexivity.
  - intros tar w3 e w4 Hgo Harchive Hbuilt Hstore.
    assert (Module_doBuild m spec options w = (Some e, w4)) as Hrun.
    { rewrite Hgo. unfold buildAndStore.
      rewrite Harchive, bind_run, Hbuilt, bind_run, Hstore. reflexivity. }
    split; [exact Hrun|].
    assert (Module_Build_body depBuild m options w = (Some e, w4)) as Hbody.
    { unfold Module_Build_body, pool_Process.
      rewrite Hdeps, Hspec, bind_run, Hrun. reflexivity. }
    eexists. split; [apply (run_alone_failure _ _ _ _ _ _ Hbody)|].
    simpl. auto.
Qed.

(** The first build of [web] in a home directory where the name of the
    cache root is taken by a file: the record cannot be read, the backend
    builds the image, the digest cannot be stored. *)
Lemma cache_read_advisory_write_fatal_witness :
  let w := mkWorld blockedFS [] in
  (os.ReadFile blockedFS "/home/u/.kindest/digests/_repo_web").2 <> None /\
  (exists w3, doBuildBackend web webSpec webRecipe "Dockerfile" defaultOptions
                (mkWorld blockedFS
                   [EvHooks "pre-build hook failure"; EvCommand "make generate";
                    EvLoadBuildContext;
                    EvReadFile "/home/u/.kindest/digests/_repo_web"])
              = (None, w3)) /\
  (Module_doBuild web webSpec defaultOptions w).1
    = Some (Errorf "open /home/u/.kindest/digests/_repo_web: not a directory") /\
  exists c,
    run noDeps web (fun _ => defaultOptions) [0; 0; 0; 0; 0; 0]%nat (initial 1 w) = Some c /\
    status (shared c) = BuildStatusFailed.
Proof.
  intros w.
  destruct (cache_read_advisory_write_fatal (H := demo)
              noDeps web webSpec defaultOptions
              w
              (mkWorld blockedFS
                 [EvHooks "pre-build hook failure"; EvCommand "make generate"])
              (mkWorld blockedFS
                 [EvHooks "pre-build hook failure"; EvCommand "make generate";
                  EvLoadBuildContext;
                  EvReadFile "/home/u/.kindest/digests/_repo_web"])
              webRecipe "Dockerfile" ("sha256:" +:+ webRecipe) "" []
              (Some ErrModuleNotCached)
              eq_refl eq_refl eq_refl eq_refl eq_refl eq_refl)
    as [Hread Hwrite].
  assert ((os.ReadFile blockedFS "/home/u/.kindest/digests/_repo_web").2 <> None)
    as Hunreadable by (vm_compute; discriminate).
  destruct (Hread "/home/u/.kindest/digests/_repo_web" eq_refl Hunreadable)
    as (_ & _ & Hgo).
  destruct (Hwrite webRecipe
              (doBuildBackend web webSpec webRecipe "Dockerfile" defaultOptions
                 (mkWorld blockedFS
                    [EvHooks "pre-build hook failure"; EvCommand "make generate";
                     EvLoadBuildContext;
                     EvReadFile "/home/u/.kindest/digests/_repo_web"])).2
              (Errorf "open /home/u/.kindest/digests/_repo_web: not a directory")
              (Module_doBuild web webSpec defaultOptions w).2)
    as (Hrun & c & Hc & Hstatus & _);
    [exact Hgo | reflexivity | reflexivity | vm_compute; reflexivity |].
  split; [exact Hunreadable|].
  split; [eexists; reflexivity|].
  split; [rewrite Hrun; reflexivity|].
  exists c. split; [exact Hc | exact Hstatus].
Defined.

(** C6 as stated fails in its second half: in that build the backend is
    called once and builds the image; the directory of the record cannot
    be looked at because a regular file is in the way, which is not the
    error of a missing directory, so nothing is created and the write
    fails; Build returns the error of the write and leaves the module
    Failed. *)
Lemma persist_failure_fails_build :
  let w := mkWorld blockedFS [] in
  let t := trace (Module_doBuild web webSpec defaultOptions w).2 in
  backendCalls t = 1%nat /\
  buildDocker web "test/web:latest" webRecipe "Dockerfile" defaultOptions = None /\
  t = [EvHooks "pre-build hook failure"; EvCommand "make generate";
       EvLoadBuildContext; EvReadFile "/home/u/.kindest/digests/_repo_web";
       EvBackend "docker"; EvStat "/home/u/.kindest/digests";
       EvOpenTrunc "/home/u/.kindest/digests/_repo_web"] /\
  (Module_doBuild web webSpec defaultOptions w).1
    = Some (Errorf "open /home/u/.kindest/digests/_repo_web: not a directory") /\
  run noDeps web (fun _ => defaultOptions) [0; 0; 0; 0; 0; 0]%nat (initial 1 w)
  = Some (mkConfig
            (mkShared BuildStatusFailed
               (Some "open /home/u/.kindest/digests/_repo_web: not a directory")
               [] false)
            [None]
            [Returned (Some (Errorf
               "open /home/u/.kindest/digests/_repo_web: not a directory"))]
            (Module_doBuild web webSpec defaultOptions w).2).
Proof.
  cbv zeta. split; [vm_compute; reflexivity|]. split; [reflexivity|].
  split; [vm_compute; reflexivity|].
  split; [vm_compute; reflexivity|]. vm_compute. reflexivity.
Qed.

(** ** Concurrent callers of Build *)

Section Protocol.

Context `{Collaborators}.
Variable depBuild : Module -> BuildOptions -> error.
Variable m : Module.
Variable options : nat -> BuildOptions.

Lemma doBuildTrace_backendCalls (spec : BuildSpec) (opts : BuildOptions)
    (stage : Stage) (evs : list Event) :
  doBuildTrace spec opts stage evs -> (backendCalls evs <= 1)%nat.
Proof.
  intros Hshape.
  inversion Hshape as
    [pre Hpre | pre Hpre | pre rd Hpre Hrd | pre rd b Hpre Hrd
    | pre rd b st Hpre Hrd Hst | pre rd b st post Hpre Hrd Hst Hpost]; subst;
    rewrite ?backendCalls_app;
    rewrite ?(backendCalls_hooks _ _ _ _ Hpre), ?(backendCalls_fileOps _ Hrd);
    try rewrite (backendCalls_fileOps _ Hst);
    try rewrite (backendCalls_hooks _ _ _ _ Hpost);
    change (backendCalls [EvLoadBuildContext]) with 0%nat;
    rewrite ?backendCalls_one; lia.
Qed.

Lemma Module_Build_body_backendCalls (opts : BuildOptions) (w w' : World)
    (r : error) :
  Module_Build_body depBuild m opts w = (r, w') ->
  (backendCalls (trace w') <= backendCalls (trace w) + 1)%nat.
Proof.
  unfold Module_Build_body, pool_Process. intros Hrun.
  destruct (Module_buildDependencies depBuild m opts).
  { inversion Hrun; subst. lia. }
  destruct (Build (Spec m)) as [spec|].
  2:{ inversion Hrun; subst. lia. }
  rewrite bind_run in Hrun.
  destruct (Module_doBuild m spec opts w) as [err w1] eqn:Hdo.
  assert (w' = w1) as -> by (destruct err; inversion Hrun; reflexivity).
  apply Module_doBuild_stages in Hdo.
  destruct Hdo as (stage & evs & Htr & Hshape & _).
  rewrite Htr, backendCalls_app.
  pose proof (doBuildTrace_backendCalls _ _ _ _ Hshape). lia.
Qed.

Lemma countPc_insert (f : pc -> bool) (l : list pc) (i : nat) (p q : pc) :
  l !! i = Some p ->
  (countPc f (<[i := q]> l) + (if f p then 1 else 0)
   = countPc f l + (if f q then 1 else 0))%nat.
Proof.
  revert i. induction l as [|x l IH]; intros i Hi; [discriminate|].
  destruct i as [|i]; simpl in *.
  - inversion Hi; subst. lia.
  - specialize (IH i Hi). lia.
Qed.

Lemma countPc_all_AtClaim (f : pc -> bool) (l : list pc) :
  f AtClaim = false -> Forall (fun p => p = AtClaim) l -> countPc f l = 0%nat.
Proof.
  intros Hf. induction 1 as [|p l -> _ IH]; [reflexivity|].
  simpl. rewrite Hf, IH. reflexivity.
Qed.

Lemma deliver_fields (e : error) (subs : list nat) (c : Config) :
  shared (foldl (fun c s => send c s e) c subs) = shared c /\
  callers (foldl (fun c s => send c s e) c subs) = callers c /\
  world (foldl (fun c s => send c s e) c subs) = world c.
Proof.
  revert c. induction subs as [|s subs IH]; intros c; simpl; [auto|].
  destruct (IH (send c s e)) as (-> & -> & ->). auto.
Qed.

Lemma protocolInv_initial (n : nat) (w : World) :
  protocolInv (backendCalls (trace w)) (initial n w).
Proof.
  assert (Forall (fun p => p = AtClaim) (replicate n AtClaim)) as Hall.
  { apply Forall_replicate. reflexivity. }
  split; simpl.
  - intros _. split; [exact Hall | reflexivity].
  - apply countPc_all_AtClaim; [reflexivity | exact Hall].
  - rewrite (countPc_all_AtClaim isBuilding _ eq_refl Hall). lia.
Qed.

(** A caller that is past its claim excludes the status Pending. *)
Lemma not_pending (base : nat) (c : Config) (i : nat) (p : pc) :
  protocolInv base c -> callers c !! i = Some p -> p <> AtClaim ->
  status (shared c) <> BuildStatusPending.
Proof.
  intros Hinv Hi Hp Hpending.
  destruct (inv_pending _ _ Hinv Hpending) as [Hall _].
  rewrite Forall_lookup in Hall. apply Hp. exact (Hall i p Hi).
Qed.

(** The one caller that owns the build excludes every status but
    InProgress. *)
Lemma owner_in_progress (base : nat) (c : Config) (i : nat) (p : pc) :
  protocolInv base c -> callers c !! i = Some p -> ownsBuild p = true ->
  status (shared c) = BuildStatusInProgress.
Proof.
  intros Hinv Hi Hp.
  pose proof (inv_owner _ _ Hinv) as Hcount.
  pose proof (countPc_insert ownsBuild _ _ _ AtStatus Hi) as Hins.
  rewrite Hp in Hins. simpl in Hins.
  destruct (decide (status (shared c) = BuildStatusInProgress)); [assumption | lia].
Qed.

Lemma protocolInv_step (base : nat) (c c' : Config) (i : nat) :
  protocolInv base c -> step depBuild m options i c = Some c' ->
  protocolInv base c' /\
  statusTransition (status (shared c)) (status (shared c')).
Proof.
  intros Hinv Hstep. unfold step in Hstep.
  destruct (callers c !! i) as [p|] eqn:Hi; [|discriminate].
  pose proof (inv_owner _ _ Hinv) as Hown.
  pose proof (inv_backend _ _ Hinv) as Hback.
  pose proof (fun q => countPc_insert ownsBuild (callers c) i p q Hi) as Hco.
  pose proof (fun q => countPc_insert isBuilding (callers c) i p q Hi) as Hcb.
  destruct p; simpl in Hstep.
  - (* AtClaim *)
    unfold claim in Hstep.
    destruct (decide (status (shared c) = BuildStatusPending)) as [Hpend|Hpend];
      inversion Hstep; subst; clear Hstep.
    + destruct (inv_pending _ _ Hinv Hpend) as [Hall Hbase].
      split; [|right; left; auto].
      specialize (Hco Building). specialize (Hcb Building).
      rewrite Hpend in Hown. simpl in *.
      rewrite (countPc_all_AtClaim isBuilding _ eq_refl Hall) in Hcb, Hback.
      split; simpl.
      * discriminate.
      * lia.
      * lia.
    + split; [|left; reflexivity].
      specialize (Hco AtStatus). specialize (Hcb AtStatus). simpl in *.
      split; simpl.
      * intros Habs. contradiction.
      * lia.
      * lia.
  - (* AtStatus *)
    inversion Hstep; subst; clear Hstep.
    pose proof (not_pending _ _ _ _ Hinv Hi ltac:(discriminate)) as Hnp.
    split; [|left; reflexivity].
    match goal with
    | |- protocolInv _ (setPc _ _ ?q) =>
        specialize (Hco q); specialize (Hcb q)
    end.
    destruct (Status (shared c)) eqn:Hst; unfold Status in Hst;
      simpl in *; try contradiction;
      (split; simpl; [intros Habs; contradiction | lia | lia]).
  - (* AtLoadErr *)
    inversion Hstep; subst; clear Hstep.
    pose proof (not_pending _ _ _ _ Hinv Hi ltac:(discriminate)) as Hnp.
    split; [|left; reflexivity].
    match goal with
    | |- protocolInv _ (setPc _ _ ?q) =>
        specialize (Hco q); specialize (Hcb q)
    end.
    destruct (err (shared c)); simpl in *;
      (split; simpl; [intros Habs; contradiction | lia | lia]).
  - (* AtSubscribe *)
    destruct (subscribersL (shared c)); [discriminate|].
    inversion Hstep; subst; clear Hstep.
    pose proof (not_pending _ _ _ _ Hinv Hi ltac:(discriminate)) as Hnp.
    unfold subscribe, Status.
    destruct (status (shared c)) eqn:Hst; try contradiction.
    + specialize (Hco Waiting). specialize (Hcb Waiting). simpl in *.
      split; [|left; simpl; congruence].
      split; simpl; rewrite ?Hst; [discriminate | simpl; lia | lia].
    + destruct (err (shared c)).
      * specialize (Hco Waiting). specialize (Hcb Waiting). simpl in *.
        split; [|left; simpl; congruence].
        split; simpl; rewrite ?Hst; [discriminate | simpl; lia | lia].
      * specialize (Hco (Panicked "nil pointer dereference")).
        specialize (Hcb (Panicked "nil pointer dereference")). simpl in *.
        split; [|left; simpl; congruence].
        split; simpl; rewrite ?Hst; [discriminate | simpl; lia | lia].
    + specialize (Hco Waiting). specialize (Hcb Waiting). simpl in *.
      split; [|left; simpl; congruence].
      split; simpl; rewrite ?Hst; [discriminate | simpl; lia | lia].
  - (* Waiting *)
    destruct (chans c !! i) as [[e|]|]; try discriminate.
    inversion Hstep; subst; clear Hstep.
    pose proof (not_pending _ _ _ _ Hinv Hi ltac:(discriminate)) as Hnp.
    specialize (Hco (Returned e)). specialize (Hcb (Returned e)). simpl in *.
    split; [|left; reflexivity].
    split; simpl; [intros Habs; contradiction | lia | lia].
  - (* Building *)
    destruct (Module_Build_body depBuild m (options i) (world c)) as [e w'] eqn:Hbody.
    inversion Hstep; subst; clear Hstep.
    pose proof (not_pending _ _ _ _ Hinv Hi ltac:(discriminate)) as Hnp.
    apply Module_Build_body_backendCalls in Hbody.
    specialize (Hco (AtBroadcast e)). specialize (Hcb (AtBroadcast e)).
    simpl in *.
    split; [|left; reflexivity].
    split; simpl; [intros Habs; contradiction | lia | lia].
  - (* AtBroadcast *)
    destruct (subscribersL (shared c)); [discriminate|].
    inversion Hstep; subst; clear Hstep.
    pose proof (not_pending _ _ _ _ Hinv Hi ltac:(discriminate)) as Hnp.
    specialize (Hco (AtSetStatus e)). specialize (Hcb (AtSetStatus e)).
    simpl in *.
    split; [|left; reflexivity].
    split; simpl; [intros Habs; contradiction | lia | lia].
  - (* AtSetStatus *)
    pose proof (owner_in_progress _ _ _ _ Hinv Hi eq_refl) as Hprog.
    rewrite Hprog in Hown. simpl in Hown.
    destruct e as [e'|]; inversion Hstep; subst; clear Hstep.
    + specialize (Hco (AtStoreErr e')). specialize (Hcb (AtStoreErr e')).
      simpl in *.
      split; [|right; right; auto].
      split; simpl; [discriminate | lia | lia].
    + specialize (Hco (AtDeliver None)). specialize (Hcb (AtDeliver None)).
      simpl in *.
      split; [|right; right; auto].
      split; simpl; [discriminate | lia | lia].
  - (* AtStoreErr *)
    inversion Hstep; subst; clear Hstep.
    pose proof (not_pending _ _ _ _ Hinv Hi ltac:(discriminate)) as Hnp.
    specialize (Hco (AtDeliver (Some e))). specialize (Hcb (AtDeliver (Some e))).
    simpl in *.
    split; [|left; reflexivity].
    split; simpl; [intros Habs; contradiction | lia | lia].
  - (* AtDeliver *)
    inversion Hstep; subst; clear Hstep.
    pose proof (not_pending _ _ _ _ Hinv Hi ltac:(discriminate)) as Hnp.
    destruct (deliver_fields e (subscribers (shared c)) c) as (Hsh & Hcs & Hw).
    specialize (Hco (Returned e)). specialize (Hcb (Returned e)).
    simpl in *.
    split; [|left; simpl; rewrite Hsh; reflexivity].
    split; simpl; rewrite ?Hsh, ?Hcs, ?Hw; [intros Habs; contradiction | lia | lia].
  - discriminate.
  - discriminate.
Qed.

Lemma protocolInv_run (base : nat) (schedule : list nat) (c c' : Config) :
  protocolInv base c -> run depBuild m options schedule c = Some c' ->
  protocolInv base c'.
Proof.
  revert c. induction schedule as [|i schedule IH]; intros c Hinv Hrun; simpl in Hrun.
  - congruence.
  - destruct (step depBuild m options i c) as [c1|] eqn:Hstep; [|discriminate].
    eapply IH; [|exact Hrun].
    exact (proj1 (protocolInv_step _ _ _ _ Hinv Hstep)).
Qed.

Lemma protocolInv_reachable (n : nat) (w : World) (c : Config) :
  reachable depBuild m options n w c ->
  protocolInv (backendCalls (trace w)) c.
Proof.
  intros [schedule Hrun].
  exact (protocolInv_run _ _ _ _ (protocolInv_initial n w) Hrun).
Qed.

(** X10: Whatever the number of callers and the interleaving, the backend is
    called at most once for the module. *)
Lemma backend_called_at_most_once (n : nat) (w : World) (c : Config) :
  reachable depBuild m options n w c ->
  (backendCalls (trace (world c)) <= backendCalls (trace w) + 1)%nat /\
  (countPc ownsBuild (callers c) <= 1)%nat.
Proof.
  intros Hreach. apply protocolInv_reachable in Hreach.
  pose proof (inv_backend _ _ Hreach). pose proof (inv_owner _ _ Hreach) as Hown.
  split; [lia|]. rewrite Hown. destruct (decide _); lia.
Qed.

Lemma terminal_sticky (base : nat) (schedule : list nat) (c c' : Config) :
  protocolInv base c -> terminal (status (shared c)) ->
  run depBuild m options schedule c = Some c' ->
  status (shared c') = status (shared c).
Proof.
  revert c. induction schedule as [|i schedule IH]; intros c Hinv Hterm Hrun;
    simpl in Hrun.
  - congruence.
  - destruct (step depBuild m options i c) as [c1|] eqn:Hstep; [|discriminate].
    destruct (protocolInv_step _ _ _ _ Hinv Hstep) as [Hinv1 Htrans].
    assert (status (shared c1) = status (shared c)) as Heq.
    { destruct Htrans as [Heq | [[Hp _] | [Hp _]]]; [exact Heq | |];
        destruct Hterm as [Ht | Ht]; congruence. }
    rewrite <- Heq. apply IH; [exact Hinv1 | rewrite Heq; exact Hterm | exact Hrun].
Qed.

End Protocol.

(** C3: in every configuration that concurrent callers of Build can reach
    from a module that is Pending, a step leaves the status as it is or
    takes it from Pending to InProgress or from InProgress to Succeeded or
    Failed; and once the status is Succeeded or Failed no further run
    changes it. *)
Theorem status_transitions_are_monotone `{Collaborators}
    (depBuild : Module -> BuildOptions -> error) (m : Module)
    (options : nat -> BuildOptions) (n : nat) (w : World)
    (schedule : list nat) (c c' : Config) (i : nat) :
  run depBuild m options schedule (initial n w) = Some c ->
  step depBuild m options i c = Some c' ->
  status (shared (initial n w)) = BuildStatusPending /\
  (status (shared c') = status (shared c) \/
   (status (shared c) = BuildStatusPending /\
    status (shared c') = BuildStatusInProgress) \/
   (status (shared c) = BuildStatusInProgress /\
    (status (shared c') = BuildStatusSucceeded \/
     status (shared c') = BuildStatusFailed))) /\
  (status (shared c) = BuildStatusSucceeded \/
   status (shared c) = BuildStatusFailed ->
   forall later c'',
     run depBuild m options later c = Some c'' ->
     status (shared c'') = status (shared c)).
Proof.
  intros Hrun Hstep.
  assert (protocolInv (backendCalls (trace w)) c) as Hinv.
  { apply (protocolInv_reachable depBuild m options n). exists schedule. exact Hrun. }
  split; [reflexivity|]. split.
  - exact (proj2 (protocolInv_step _ _ _ _ _ _ _ Hinv Hstep)).
  - intros Hterm later c'' Hlater.
    exact (terminal_sticky _ _ _ _ _ _ _ Hinv Hterm Hlater).
Qed.

(** Two callers build [web] with a recipe that fails; the first has
    claimed, built and taken the lock, and its next step stores Failed. *)
Lemma status_transitions_are_monotone_witness :
  exists c c',
    run noDeps web (fun _ => defaultOptions) [0; 0; 0]%nat
        (initial 2 (mkWorld brokenFS [])) = Some c /\
    step noDeps web (fun _ => defaultOptions) 0 c = Some c' /\
    status (shared c) = BuildStatusInProgress /\
    status (shared c') = BuildStatusFailed /\
    (status (shared c') = status (shared c) \/
     (status (shared c) = BuildStatusPending /\
      status (shared c') = BuildStatusInProgress) \/
     (status (shared c) = BuildStatusInProgress /\
      (status (shared c') = BuildStatusSucceeded \/
       status (shared c') = BuildStatusFailed))).
Proof.
  eexists _, _.
  split; [vm_compute; reflexivity|]. split; [vm_compute; reflexivity|].
  split; [reflexivity|]. split; [reflexivity|].
  refine (proj1 (proj2 (status_transitions_are_monotone
            noDeps web (fun _ => defaultOptions) 2 (mkWorld brokenFS [])
            [0; 0; 0]%nat _ _ 0%nat _ _))); vm_compute; reflexivity.
Defined.

(** C4: broadcast stores the status Failed before it stores the error.
    Two callers build [web] with a recipe that fails; after the first has
    claimed, built, taken the lock and stored the status, the module is
    Failed while its error is still nil, and the second caller, whose
    claim fails, reads Failed, loads the nil error and panics in the
    branch that the code marks unreachable. *)
Theorem failed_status_is_stored_before_error :
  exists c c',
    run noDeps web (fun _ => defaultOptions) [0; 0; 0; 0]%nat
        (initial 2 (mkWorld brokenFS [])) = Some c /\
    status (shared c) = BuildStatusFailed /\
    err (shared c) = None /\
    callers c !! 0%nat
      = Some (AtStoreErr (Errorf
          "docker: The command '/bin/sh -c exit 1' returned a non-zero code: 1")) /\
    run noDeps web (fun _ => defaultOptions) [1; 1; 1]%nat c = Some c' /\
    status (shared c') = BuildStatusFailed /\
    err (shared c') = None /\
    callers c' !! 1%nat = Some (Panicked "unreachable").
Proof.
  eexists _, _.
  split; [vm_compute; reflexivity|].
  repeat split; vm_compute; reflexivity.
Qed.

(** C1: the backend is called once, but a concurrent caller need not
    receive the outcome.  In the same build, run to the end of the first
    caller, the first caller returns the error of the build and the second
    caller has panicked without waiting for it or receiving it. *)
Theorem concurrent_caller_receives_no_outcome :
  exists c,
    run noDeps web (fun _ => defaultOptions) [0; 0; 0; 0; 1; 1; 1; 0; 0]%nat
        (initial 2 (mkWorld brokenFS [])) = Some c /\
    backendCalls (trace (world c)) = 1%nat /\
    callers c
    = [Returned (Some (Errorf
         "docker: The command '/bin/sh -c exit 1' returned a non-zero code: 1"));
       Panicked "unreachable"] /\
    chans c = [None; None].
Proof.
  eexists. split; [vm_compute; reflexivity|].
  repeat split; vm_compute; reflexivity.
Qed.

(** * Further properties of the code *)

(** ** resolveDockerfile: when it panics and what it returns *)

Lemma isProperPrefix_spec (xs ys : list string) :
  isProperPrefix xs ys = true <-> exists rest, rest <> [] /\ ys = xs ++ rest.
Proof.
  revert ys. induction xs as [|x xs IH]; intros ys; simpl.
  - destruct ys as [|y ys]; split.
    + discriminate.
    + intros (rest & Hne & Heq). simpl in Heq. congruence.
    + intros _. exists (y :: ys). split; [discriminate | reflexivity].
    + reflexivity.
  - destruct ys as [|y ys]; [split; [discriminate | intros (rest & _ & Heq); discriminate]|].
    rewrite andb_true_iff, String.eqb_eq, IH. split.
    + intros [-> (rest & Hne & ->)]. exists rest. split; [assumption | reflexivity].
    + intros (rest & Hne & Heq). inversion Heq; subst. eauto.
Qed.

(** The loop of resolveDockerfile, started after [k] equal components and
    bounded by the length of the context components, panics when the
    dockerfile components run out first and otherwise counts the common
    components. *)
Lemma commonLoop_from (p d c : list string) :
  commonLoop (length c) (length p) (length p) (p ++ d) (p ++ c)
  = if isProperPrefix d c then Panic "index out of range"
    else Ok (length p + commonPrefixLen d c)%nat.
Proof.
  revert p d. induction c as [|y c IH]; intros p d; simpl.
  - destruct d; simpl; f_equal; lia.
  - rewrite (lookup_app_r p d) by lia. rewrite (lookup_app_r p (y :: c)) by lia.
    rewrite Nat.sub_diag. destruct d as [|x d]; simpl; [reflexivity|].
    destruct (String.eqb_spec x y) as [->|Hne]; simpl.
    + specialize (IH (p ++ [y]) d).
      rewrite length_app in IH. simpl in IH.
      rewrite Nat.add_1_r, <- !app_assoc in IH. simpl in IH.
      rewrite IH. destruct (isProperPrefix d c); [reflexivity|].
      f_equal. lia.
    + f_equal. lia.
Qed.

Lemma commonPrefixLen_le (xs ys : list string) :
  (commonPrefixLen xs ys <= length xs)%nat.
Proof.
  revert ys. induction xs as [|x xs IH]; intros [|y ys]; simpl; try lia.
  destruct (String.eqb x y); [specialize (IH ys)|]; lia.
Qed.

(** X1: resolveDockerfile panics exactly when the components of the cleaned
    dockerfile path are a proper prefix of the components of the cleaned
    context path; in every other case it returns, without an error, the
    dockerfile components after those the two paths share, joined. *)
Theorem resolveDockerfile_characterised
    (manifestPath dockerfilePath contextPath : string) :
  let rootDir := filepath.Dir manifestPath in
  let dockerfileParts :=
    strings.Split (filepath.Clean (filepath.Join [rootDir; dockerfilePath])) in
  let contextParts :=
    strings.Split (filepath.Clean (filepath.Join [rootDir; contextPath])) in
  resolveDockerfile manifestPath dockerfilePath contextPath
  = if isProperPrefix dockerfileParts contextParts
    then Panic "index out of range"
    else Ok (filepath.Join
               (drop (commonPrefixLen dockerfileParts contextParts) dockerfileParts),
             None).
Proof.
  intros rootDir dockerfileParts contextParts.
  unfold resolveDockerfile.
  fold rootDir. fold dockerfileParts. fold contextParts.
  rewrite loopBound_is_context_length, Nat2Z.id.
  pose proof (commonLoop_from [] dockerfileParts contextParts) as Hloop.
  simpl in Hloop. rewrite Hloop.
  destruct (isProperPrefix dockerfileParts contextParts); [reflexivity|].
  simpl. unfold sliceFrom.
  pose proof (commonPrefixLen_le dockerfileParts contextParts) as Hle.
  destruct (Nat.leb_spec (commonPrefixLen dockerfileParts contextParts)
              (length dockerfileParts)); [reflexivity | lia].
Qed.

Lemma commonPrefixLen_app (xs rest : list string) :
  commonPrefixLen (xs ++ rest) xs = length xs.
Proof.
  induction xs as [|x xs IH]; simpl; [destruct rest; reflexivity|].
  rewrite String.eqb_refl, IH. reflexivity.
Qed.

Lemma isProperPrefix_app (xs rest : list string) :
  isProperPrefix (xs ++ rest) xs = false.
Proof.
  induction xs as [|x xs IH]; simpl; [destruct rest; reflexivity|].
  rewrite IH. apply andb_false_r.
Qed.

(** X2: When the recipe file lies in the context directory or below it, that
    is, when the context components are a prefix of the dockerfile
    components, resolveDockerfile returns the remaining components joined:
    the path of the recipe relative to the context. *)
Theorem resolveDockerfile_below_context
    (manifestPath dockerfilePath contextPath : string) (rest : list string) :
  let rootDir := filepath.Dir manifestPath in
  strings.Split (filepath.Clean (filepath.Join [rootDir; dockerfilePath]))
  = strings.Split (filepath.Clean (filepath.Join [rootDir; contextPath])) ++ rest ->
  resolveDockerfile manifestPath dockerfilePath contextPath
  = Ok (filepath.Join rest, None).
Proof.
  intros rootDir Hparts.
  rewrite resolveDockerfile_characterised. fold rootDir. rewrite Hparts.
  rewrite isProperPrefix_app, commonPrefixLen_app, drop_app_length. reflexivity.
Qed.

(** The manifest of the test of a custom context: the recipe
    [../other/Dockerfile] with the context [..]. *)
Lemma resolveDockerfile_below_context_witness :
  strings.Split (filepath.Clean
    (filepath.Join [filepath.Dir "/repo/other/kindest.yaml"; "../other/Dockerfile"]))
  = strings.Split (filepath.Clean
      (filepath.Join [filepath.Dir "/repo/other/kindest.yaml"; ".."]))
    ++ ["other"; "Dockerfile"] /\
  resolveDockerfile "/repo/other/kindest.yaml" "../other/Dockerfile" ".."
  = Ok ("other/Dockerfile", None).
Proof.
  split; [reflexivity|].
  apply (resolveDockerfile_below_context
           "/repo/other/kindest.yaml" "../other/Dockerfile" ".."
           ["other"; "Dockerfile"]).
  reflexivity.
Defined.

(** ** The digest cache: what is stored is what is read *)

Section DigestCacheMore.

Context `{Collaborators}.

(** A cacheDigest that returns [nil] has derived the path of the record and
    left the digest in it. *)
Lemma cacheDigest_stored (m : Module) (digest : string) (w w' : World) :
  cacheDigest m digest w = (None, w') ->
  exists path,
    digestPathForManifest (Dir m) = (path, None) /\
    fs w' !! path = Some (File digest).
Proof.
  unfold cacheDigest. destruct (digestPathForManifest (Dir m)) as [path [e|]].
  { intros Hrun. inversion Hrun. }
  intros Hrun. exists path. split; [reflexivity|].
  rewrite bind_run in Hrun. unfold go_Stat in Hrun. rewrite fsop_run in Hrun.
  simpl in Hrun. rewrite bind_run in Hrun.
  match type of Hrun with
  | context [(if ?b then ?g else mret None) ?w0] =>
      destruct ((if b then g else mret None) w0) as [made w1] eqn:Hmade
  end.
  destruct made as [e|]; [inversion Hrun|].
  rewrite bind_run in Hrun. unfold go_WriteFile in Hrun.
  rewrite bind_run, fsop_run in Hrun.
  destruct (os.OpenTrunc (fs w1) path) as [[e|] fs2]; simpl in Hrun;
    inversion Hrun; subst.
  simpl. unfold os.Write. apply lookup_insert_eq.
Qed.

(** The ways in which CachedDigest returns: it never changes the file
    system; with a path for the record it returns the content of the
    record when that is a file, and otherwise the empty digest with
    ErrModuleNotCached, whatever made the read fail. *)
Lemma CachedDigest_inv (m : Module) (w w' : World) (digest : string) (e : error) :
  CachedDigest m w = ((digest, e), w') ->
  fs w' = fs w /\
  match digestPathForManifest (Dir m) with
  | (_, Some e0) => digest = "" /\ e = Some e0 /\ w' = w
  | (path, None) =>
      trace w' = trace w ++ [EvReadFile path] /\
      match fs w !! path with
      | Some (File content) => digest = content /\ e = None
      | _ => digest = "" /\ e = Some ErrModuleNotCached
      end
  end.
Proof.
  unfold CachedDigest. destruct (digestPathForManifest (Dir m)) as [path [e0|]].
  { intros Hrun. inversion Hrun; subst. auto. }
  rewrite bind_run. unfold go_ReadFile. rewrite fsop_run. simpl.
  unfold os.ReadFile.
  destruct (fs w !! path) as [[content|]|]; simpl;
    intros Hrun; inversion Hrun; subst; simpl; auto.
Qed.

End DigestCacheMore.

(** X3: Round trip of the digest cache: after cacheDigest has returned [nil],
    CachedDigest returns the digest that was stored, without an error. *)
Theorem cacheDigest_then_CachedDigest `{Collaborators}
    (m : Module) (digest : string) (w w' : World) :
  cacheDigest m digest w = (None, w') ->
  exists w'', CachedDigest m w' = ((digest, None), w'') /\ fs w'' = fs w'.
Proof.
  intros Hstore. apply cacheDigest_stored in Hstore.
  destruct Hstore as (path & Hpath & Hrecord).
  destruct (CachedDigest m w') as [[d e] w''] eqn:Hread.
  pose proof (CachedDigest_inv _ _ _ _ _ Hread) as [Hfs Hcases].
  rewrite Hpath, Hrecord in Hcases. destruct Hcases as (_ & -> & ->).
  exists w''. split; [reflexivity | exact Hfs].
Qed.

(** Storing the digest of [web] where no cache exists yet. *)
Lemma cacheDigest_then_CachedDigest_witness :
  (cacheDigest web "sha256:new" (mkWorld freshFS [])).1 = None /\
  exists w'',
    CachedDigest web (cacheDigest web "sha256:new" (mkWorld freshFS [])).2
    = (("sha256:new", None), w'').
Proof.
  split; [vm_compute; reflexivity|].
  destruct (cacheDigest_then_CachedDigest web "sha256:new" (mkWorld freshFS [])
              (cacheDigest web "sha256:new" (mkWorld freshFS [])).2)
    as (w'' & Hread & _); [vm_compute; reflexivity|].
  exists w''. exact Hread.
Defined.

(** X4: CachedDigest hides why a record cannot be read: whenever it returns an
    error although the path of the record could be derived, the error is
    ErrModuleNotCached and the digest is empty; and it never changes the
    file system. *)
Theorem CachedDigest_masks_read_errors `{Collaborators}
    (m : Module) (w w' : World) (path digest : string) (e : goerror) :
  digestPathForManifest (Dir m) = (path, None) ->
  CachedDigest m w = ((digest, Some e), w') ->
  e = ErrModuleNotCached /\ digest = "" /\ fs w' = fs w /\
  (forall content, fs w !! path <> Some (File content)).
Proof.
  intros Hpath Hread.
  pose proof (CachedDigest_inv _ _ _ _ _ Hread) as [Hfs Hcases].
  rewrite Hpath in Hcases. destruct Hcases as [_ Hcases].
  destruct (fs w !! path) as [[content|]|]; destruct Hcases as [-> He];
    inversion He; subst; repeat split; auto; discriminate.
Qed.

(** The record of [web] in a home directory where the name of the cache
    root is taken by a file. *)
Lemma CachedDigest_masks_read_errors_witness :
  digestPathForManifest (Dir web) = ("/home/u/.kindest/digests/_repo_web", None) /\
  (CachedDigest web (mkWorld blockedFS [])).1 = ("", Some ErrModuleNotCached) /\
  (forall content,
     blockedFS !! "/home/u/.kindest/digests/_repo_web" <> Some (File content)).
Proof.
  split; [reflexivity|]. split; [vm_compute; reflexivity|].
  refine (proj2 (proj2 (proj2 (CachedDigest_masks_read_errors web
            (mkWorld blockedFS []) (CachedDigest web (mkWorld blockedFS [])).2
            "/home/u/.kindest/digests/_repo_web" "" ErrModuleNotCached _ _))));
    vm_compute; reflexivity.
Defined.

(** ** Hooks: commands run in order up to the first failure *)

(** X5: runCommands runs the commands in order and stops at the first one that
    fails: it returns [nil] only after all of them have run, and an error
    is the error of the last command that was run, the commands after it
    being left out. *)
Theorem runCommands_stops_at_first_failure `{Collaborators}
    (commands : list string) (w w' : World) (r : error) :
  runCommands commands w = (r, w') ->
  exists ran,
    trace w' = trace w ++ List.map EvCommand ran /\
    fs w' = replay (List.map EvCommand ran) (fs w) /\
    match r with
    | None => ran = commands
    | Some e =>
        exists before c after,
          commands = before ++ c :: after /\
          ran = before ++ [c] /\
          (sh c (replay (List.map EvCommand before) (fs w))).1 = Some e
    end.
Proof.
  revert w. induction commands as [|command rest IH]; intros w Hrun; simpl in Hrun.
  - inversion Hrun; subst. exists []. rewrite app_nil_r. auto.
  - rewrite bind_run, fsop_run in Hrun.
    destruct (sh command (fs w)) as [[e|] fs1] eqn:Hsh; simpl in Hrun.
    + inversion Hrun; subst. exists [command]. simpl.
      split; [reflexivity|]. split; [unfold replay; simpl; rewrite Hsh; reflexivity|].
      exists [], command, rest. simpl. rewrite Hsh. auto.
    + apply IH in Hrun. destruct Hrun as (ran & Htr & Hfs & Hres). simpl in Htr, Hfs.
      exists (command :: ran). split; [|split].
      * rewrite Htr, <- app_assoc. reflexivity.
      * rewrite Hfs. unfold replay. simpl. rewrite Hsh. reflexivity.
      * destruct r as [e|]; [|congruence].
        destruct Hres as (before & c & after & -> & -> & Hfail).
        exists (command :: before), c, after.
        split; [reflexivity|]. split; [reflexivity|].
        unfold replay in *. simpl. rewrite Hsh. exact Hfail.
Qed.

(** Three commands of which the second fails. *)
Lemma runCommands_stops_at_first_failure_witness :
  exists ran,
    trace (runCommands ["make generate"; "exit 1"; "make clean"]
             (mkWorld freshFS [])).2
    = [] ++ List.map EvCommand ran /\
    exists before c after,
      ["make generate"; "exit 1"; "make clean"] = before ++ c :: after /\
      ran = before ++ [c].
Proof.
  destruct (runCommands_stops_at_first_failure
              ["make generate"; "exit 1"; "make clean"]
              (mkWorld freshFS [])
              (runCommands ["make generate"; "exit 1"; "make clean"]
                 (mkWorld freshFS [])).2
              (Some (Errorf "exit status 1")))
    as (ran & Htr & _ & before & c & after & Hsplit & Hran & _);
    [vm_compute; reflexivity|].
  exists ran. split; [exact Htr|]. exists before, c, after. auto.
Defined.

(** ** Module.doBuild: the paths through it *)

Section DoBuildPaths.

Context `{Collaborators}.

Lemma CachedDigest_run (m : Module) (w : World) :
  exists evs,
    CachedDigest m w = (readRecord m (fs w), mkWorld (fs w) (trace w ++ evs)) /\
    Forall isFileOp evs.
Proof.
  unfold CachedDigest, readRecord.
  destruct (digestPathForManifest (Dir m)) as [path [e|]].
  - exists []. rewrite app_nil_r. destruct w. split; [reflexivity | constructor].
  - exists [EvReadFile path]. rewrite bind_run. unfold go_ReadFile.
    rewrite fsop_run. simpl. unfold os.ReadFile.
    split; [|repeat constructor].
    destruct (fs w !! path) as [[content|]|]; reflexivity.
Qed.

Lemma runHooks_empty (options : BuildOptions) (label : string) (w : World) :
  exists evs,
    runHooks options label [] w = (None, mkWorld (fs w) (trace w ++ evs)) /\
    backendCalls evs = 0%nat.
Proof.
  unfold runHooks. destruct (SkipHooks options); simpl.
  - exists []. rewrite app_nil_r. destruct w. auto.
  - exists [EvHooks label]. auto.
Qed.

End DoBuildPaths.

(** X6: NoCache forces the backend: with NoCache set, a Module.doBuild that
    returns [nil] has called the backend exactly once, whether or not the
    digest equals the cached one. *)
Theorem NoCache_forces_backend `{Collaborators}
    (m : Module) (spec : BuildSpec) (options : BuildOptions)
    (w w' : World) :
  NoCache options = true ->
  Module_doBuild m spec options w = (None, w') ->
  backendCalls (trace w') = (backendCalls (trace w) + 1)%nat.
Proof.
  intros Hnocache Hrun.
  apply Module_doBuild_inv in Hrun.
  destruct Hrun as (pre & w1 & Hpre & Hrun).
  destruct pre as [e|]; [destruct Hrun; discriminate|].
  cbv zeta in Hrun.
  destruct (loadBuildContext m (fs w1)) as [[[bc rel] inc] [e|]];
    [destruct Hrun; discriminate|].
  destruct (Digest bc inc) as [digest [e|]]; [destruct Hrun; discriminate|].
  destruct Hrun as (cached & err & w2 & Hcached & Hrun).
  destruct (isOtherError err) eqn:Hother.
  { destruct Hrun as [<- _]. discriminate Hother. }
  rewrite Hnocache, andb_false_r in Hrun.
  apply buildAndStore_inv in Hrun.
  destruct (Archive bc) as [tar [e|]]; [destruct Hrun; discriminate|].
  destruct Hrun as (built & w3 & Hbuilt & Hrun).
  destruct built as [e|]; [destruct Hrun; discriminate|].
  destruct Hrun as (stored & w4 & Hstored & Hrun).
  destruct stored as [e|]; [destruct Hrun; discriminate|].
  apply runHooks_trace in Hpre. destruct Hpre as (evp & Htr1 & Hshape1).
  apply CachedDigest_trace in Hcached. destruct Hcached as (_ & evr & Htr2 & Hops2).
  apply doBuildBackend_trace in Hbuilt.
  destruct Hbuilt as (_ & [[b Htr3] | [_ Habs]]); [|congruence].
  apply cacheDigest_trace in Hstored. destruct Hstored as (evs & Htr4 & Hops4).
  apply runHooks_trace in Hrun. destruct Hrun as (evq & Htr5 & Hshape5).
  simpl in Htr2.
  rewrite Htr5, Htr4, Htr3, Htr2, Htr1, !backendCalls_app.
  rewrite (backendCalls_hooks _ _ _ _ Hshape1), (backendCalls_hooks _ _ _ _ Hshape5),
    (backendCalls_fileOps _ Hops2), (backendCalls_fileOps _ Hops4).
  change (backendCalls [EvLoadBuildContext]) with 0%nat.
  change (backendCalls [EvBackend b]) with 1%nat. lia.
Qed.

(** A build of [web] with NoCache although the recipe is unchanged. *)
Lemma NoCache_forces_backend_witness :
  NoCache noCacheOptions = true /\
  (Module_doBuild web webSpec noCacheOptions (mkWorld cachedFS [])).1 = None /\
  backendCalls (trace (Module_doBuild web webSpec noCacheOptions
                         (mkWorld cachedFS [])).2) = 1%nat.
Proof.
  split; [reflexivity|]. split; [vm_compute; reflexivity|].
  apply (NoCache_forces_backend web webSpec noCacheOptions (mkWorld cachedFS []));
    [reflexivity | vm_compute; reflexivity].
Defined.

(** X7: The cache works: for a module without hook commands and with NoCache
    false, after a Module.doBuild that returned [nil] a second
    Module.doBuild on an unchanged context returns [nil] as well, calls no
    backend and leaves the file system as it is. *)
Theorem rebuild_is_cache_hit `{Collaborators}
    (m : Module) (spec : BuildSpec) (options : BuildOptions)
    (w w' : World) :
  Before spec = [] ->
  After spec = [] ->
  NoCache options = false ->
  Module_doBuild m spec options w = (None, w') ->
  loadBuildContext m (fs w') = loadBuildContext m (fs w) ->
  exists w'',
    Module_doBuild m spec options w' = (None, w'') /\
    backendCalls (trace w'') = backendCalls (trace w') /\
    fs w'' = fs w'.
Proof.
  intros Hbefore Hafter Hnocache Hrun Hsame.
  (* what the second run does, given what it reads from the record *)
  assert (forall bc rel inc digest,
            loadBuildContext m (fs w') = ((bc, rel, inc), None) ->
            Digest bc inc = (digest, None) ->
            readRecord m (fs w') = (digest, None) \/
            (readRecord m (fs w') = ("", Some ErrModuleNotCached) /\ digest = "") ->
            exists w'',
              Module_doBuild m spec options w' = (None, w'') /\
              backendCalls (trace w'') = backendCalls (trace w') /\
              fs w'' = fs w') as Hsecond.
  { intros bc rel inc digest Hload Hdigest Hrecord.
    unfold Module_doBuild. rewrite Hbefore, bind_run.
    destruct (runHooks_empty options "pre-build hook failure" w')
      as (evp & -> & Hcalls).
    rewrite bind_run, fsop_run. simpl. rewrite Hload, Hdigest, bind_run.
    match goal with
    | |- context [CachedDigest m ?w0] =>
        destruct (CachedDigest_run m w0) as (evr & -> & Hops)
    end.
    simpl.
    assert (exists cached err,
               readRecord m (fs w') = (cached, err) /\
               isOtherError err = false /\ String.eqb digest cached = true)
      as (cached & err & -> & -> & ->).
    { destruct Hrecord as [-> | [-> ->]].
      - exists digest, None. rewrite String.eqb_refl. auto.
      - exists "", (Some ErrModuleNotCached). auto. }
    rewrite Hnocache. simpl. eexists. split; [reflexivity|]. simpl.
    split; [|reflexivity].
    rewrite !backendCalls_app, Hcalls, (backendCalls_fileOps _ Hops).
    change (backendCalls [EvLoadBuildContext]) with 0%nat. lia. }
  apply Module_doBuild_inv in Hrun.
  destruct Hrun as (pre & w1 & Hpre & Hrun).
  rewrite Hbefore in Hpre.
  destruct (runHooks_empty options "pre-build hook failure" w) as (evp & Hpre' & _).
  rewrite Hpre' in Hpre. inversion Hpre; subst pre w1; clear Hpre.
  cbv zeta in Hrun. simpl in Hrun.
  destruct (loadBuildContext m (fs w)) as [[[bc rel] inc] [e|]] eqn:Hload;
    [destruct Hrun; discriminate|].
  destruct (Digest bc inc) as [digest [e|]] eqn:Hdigest; [destruct Hrun; discriminate|].
  destruct Hrun as (cached & err & w2 & Hcached & Hrun).
  match type of Hcached with
  | CachedDigest m ?w0 = _ =>
      destruct (CachedDigest_run m w0) as (evr & Hcached' & _)
  end.
  rewrite Hcached' in Hcached. simpl in Hcached.
  inversion Hcached as [[Hrecord Hw2]]; clear Hcached Hcached'. subst w2.
  destruct (isOtherError err) eqn:Hother.
  { destruct Hrun as [<- _]. discriminate Hother. }
  rewrite Hnocache, andb_true_r in Hrun.
  destruct (String.eqb_spec digest cached) as [<-|Hne].
  - (* the first run was a cache hit *)
    destruct Hrun as [_ ->]. simpl in *.
    apply (Hsecond bc rel inc digest); [rewrite Hsame; reflexivity | assumption|].
    simpl. rewrite Hrecord. destruct err as [[| |]|]; try discriminate Hother; [|auto].
    right. unfold readRecord in Hrecord.
    destruct (digestPathForManifest (Dir m)) as [path [e|]];
      [inversion Hrecord; auto|].
    destruct (fs w !! path) as [[c|]|]; inversion Hrecord; auto.
  - (* the first run built the image and stored the digest *)
    apply buildAndStore_inv in Hrun.
    destruct (Archive bc) as [tar [e|]]; [destruct Hrun; discriminate|].
    destruct Hrun as (built & w3 & Hbuilt & Hrun).
    destruct built as [e|]; [destruct Hrun; discriminate|].
    destruct Hrun as (stored & w4 & Hstored & Hrun).
    destruct stored as [e|]; [destruct Hrun; discriminate|].
    rewrite Hafter in Hrun.
    destruct (runHooks_empty options "post-build hook failure" w4) as (evq & Hpost & _).
    rewrite Hpost in Hrun. inversion Hrun; subst w'; clear Hrun. simpl in *.
    apply cacheDigest_stored in Hstored. destruct Hstored as (path & Hpath & Hfile).
    apply (Hsecond bc rel inc digest); [rewrite Hsame; reflexivity | assumption|].
    left. unfold readRecord. rewrite Hpath, Hfile. reflexivity.
Qed.

(** The first build of a module without hooks, then the second. *)
Lemma rebuild_is_cache_hit_witness :
  (Module_doBuild plain plainSpec defaultOptions (mkWorld freshFS [])).1 = None /\
  backendCalls (trace (Module_doBuild plain plainSpec defaultOptions
                         (mkWorld freshFS [])).2) = 1%nat /\
  exists w'',
    Module_doBuild plain plainSpec defaultOptions
      (Module_doBuild plain plainSpec defaultOptions (mkWorld freshFS [])).2
    = (None, w'') /\
    backendCalls (trace w'') = 1%nat.
Proof.
  split; [vm_compute; reflexivity|]. split; [vm_compute; reflexivity|].
  destruct (rebuild_is_cache_hit plain plainSpec defaultOptions
              (mkWorld freshFS [])
              (Module_doBuild plain plainSpec defaultOptions (mkWorld freshFS [])).2)
    as (w'' & Hrun & Hcalls & _);
    [reflexivity | reflexivity | reflexivity | vm_compute; reflexivity
    | vm_compute; reflexivity |].
  exists w''. split; [exact Hrun|]. rewrite Hcalls. vm_compute. reflexivity.
Defined.

Section HooksMore.

Context `{Collaborators}.

Lemma fileOp_not_hook (evs : list Event) :
  Forall isFileOp evs -> Forall (fun e => ~ isHookEvent e) evs.
Proof.
  intros Hops. eapply Forall_impl; [exact Hops|].
  intros e He Hh. destruct e; simpl in *; contradiction.
Qed.

Lemma hooksTrace_label (options : BuildOptions) (label label' : string)
    (commands : list string) (evs : list Event) :
  hooksTrace options label commands evs -> In (EvHooks label') evs -> label' = label.
Proof.
  unfold hooksTrace. destruct (SkipHooks options).
  - intros -> [].
  - intros (ran & -> & _) [Heq | Hin]; [congruence|].
    apply in_map_iff in Hin. destruct Hin as (c & Hc & _). discriminate Hc.
Qed.

Lemma runHooks_skipped (options : BuildOptions) (label : string)
    (commands : list string) (w : World) :
  SkipHooks options = true -> runHooks options label commands w = (None, w).
Proof. unfold runHooks. intros ->. reflexivity. Qed.

End HooksMore.

(** X8: With SkipHooks set, Module.doBuild runs no hook command at all, and a
    run that does not reach the backend leaves the file system as it
    was. *)
Theorem SkipHooks_runs_no_command `{Collaborators}
    (m : Module) (spec : BuildSpec) (options : BuildOptions)
    (w w' : World) (r : error) :
  SkipHooks options = true ->
  Module_doBuild m spec options w = (r, w') ->
  exists evs,
    trace w' = trace w ++ evs /\
    Forall (fun e => ~ isHookEvent e) evs /\
    (backendCalls evs = 0%nat -> fs w' = fs w).
Proof.
  intros Hskip Hrun.
  apply Module_doBuild_inv in Hrun.
  destruct Hrun as (pre & w1 & Hpre & Hrun).
  rewrite (runHooks_skipped _ _ _ _ Hskip) in Hpre.
  inversion Hpre; subst pre w1; clear Hpre. cbv zeta in Hrun.
  assert (Forall (fun e => ~ isHookEvent e) [EvLoadBuildContext]) as Hload0.
  { repeat constructor. intros []. }
  destruct (loadBuildContext m (fs w)) as [[[bc rel] inc] [e|]].
  { destruct Hrun as [_ ->]. exists [EvLoadBuildContext]. auto. }
  destruct (Digest bc inc) as [digest [e|]].
  { destruct Hrun as [_ ->]. exists [EvLoadBuildContext]. auto. }
  destruct Hrun as (cached & err & w2 & Hcached & Hrun).
  apply CachedDigest_trace in Hcached.
  destruct Hcached as (Hfs2 & evr & Htr2 & Hops2). simpl in Hfs2, Htr2.
  assert (exists evs,
             trace w2 = trace w ++ evs /\
             Forall (fun e => ~ isHookEvent e) evs /\ fs w2 = fs w) as Hcache.
  { exists ([EvLoadBuildContext] ++ evr). rewrite Htr2, <- app_assoc.
    split; [reflexivity|]. split; [|assumption].
    apply Forall_app. split; [assumption | apply fileOp_not_hook; assumption]. }
  destruct Hcache as (evc & Htrc & Hnoc & Hfsc).
  destruct (isOtherError err).
  { destruct Hrun as [_ ->]. exists evc. auto. }
  destruct (_ && _)%bool.
  { destruct Hrun as [_ ->]. exists evc. auto. }
  apply buildAndStore_inv in Hrun.
  destruct (Archive bc) as [tar [e|]].
  { destruct Hrun as [_ ->]. exists evc. auto. }
  destruct Hrun as (built & w3 & Hbuilt & Hrun).
  apply doBuildBackend_trace in Hbuilt.
  destruct Hbuilt as (Hfs3 & [[b Htr3] | [Htr3 Hfail]]).
  2:{ destruct built as [e|]; [|congruence]. destruct Hrun as [_ ->].
      exists evc. split; [congruence|]. split; [assumption|]. intros _. congruence. }
  assert (forall evs4 w4,
             trace w4 = trace w3 ++ evs4 -> Forall isFileOp evs4 ->
             exists evs, trace w4 = trace w ++ evs /\
                         Forall (fun e => ~ isHookEvent e) evs /\
                         (backendCalls evs = 0%nat -> fs w4 = fs w)) as Hafter.
  { intros evs4 w4 Htr4 Hops4. exists (evc ++ [EvBackend b] ++ evs4).
    rewrite Htr4, Htr3, Htrc, <- !app_assoc. split; [reflexivity|]. split.
    - apply Forall_app. split; [assumption|]. apply Forall_app. split.
      + repeat constructor. intros [].
      + apply fileOp_not_hook. assumption.
    - rewrite !backendCalls_app. change (backendCalls [EvBackend b]) with 1%nat. lia. }
  destruct built as [e|].
  { destruct Hrun as [_ ->]. apply (Hafter []); [rewrite app_nil_r; reflexivity | constructor]. }
  destruct Hrun as (stored & w4 & Hstored & Hrun).
  apply cacheDigest_trace in Hstored. destruct Hstored as (evs4 & Htr4 & Hops4).
  destruct stored as [e|].
  { destruct Hrun as [_ ->]. apply (Hafter evs4); assumption. }
  rewrite (runHooks_skipped _ _ _ _ Hskip) in Hrun.
  inversion Hrun; subst. apply (Hafter evs4); assumption.
Qed.

(** A cache hit of [web] with hooks skipped. *)
Lemma SkipHooks_runs_no_command_witness :
  let options := {| NoCache := false; SkipHooks := true; Builder := "";
                    Repository := ""; Tag := ""; NoPush := false |} in
  SkipHooks options = true /\
  exists evs,
    trace (Module_doBuild web webSpec options (mkWorld cachedFS [])).2 = [] ++ evs /\
    Forall (fun e => ~ isHookEvent e) evs /\
    (backendCalls evs = 0%nat ->
     fs (Module_doBuild web webSpec options (mkWorld cachedFS [])).2 = cachedFS).
Proof.
  intros options. split; [reflexivity|].
  apply (SkipHooks_runs_no_command web webSpec options (mkWorld cachedFS [])
           (Module_doBuild web webSpec options (mkWorld cachedFS [])).2
           (Module_doBuild web webSpec options (mkWorld cachedFS [])).1);
    [reflexivity | vm_compute; reflexivity].
Defined.

(** X9: The post-build hooks are entered only after the new digest has been
    stored: when the post-build phase is in the trace of Module.doBuild,
    the run went through a world in which the record holds a digest, and
    its result is the result of the post-build hooks started there.  A
    failing post-build hook therefore fails the build with the digest
    already cached. *)
Theorem post_hooks_follow_stored_digest `{Collaborators}
    (m : Module) (spec : BuildSpec) (options : BuildOptions)
    (w w' : World) (r : error) (evs : list Event) :
  Module_doBuild m spec options w = (r, w') ->
  trace w' = trace w ++ evs ->
  In (EvHooks "post-build hook failure") evs ->
  exists w4 path digest,
    digestPathForManifest (Dir m) = (path, None) /\
    fs w4 !! path = Some (File digest) /\
    runHooks options "post-build hook failure" (After spec) w4 = (r, w').
Proof.
  intros Hrun Htr Hin.
  apply Module_doBuild_inv in Hrun.
  destruct Hrun as (pre & w1 & Hpre & Hrun).
  apply runHooks_trace in Hpre. destruct Hpre as (evp & Htr1 & Hshape1).
  assert (~ In (EvHooks "post-build hook failure") evp) as Hnp.
  { intros Hp. apply (hooksTrace_label _ _ _ _ _ Hshape1) in Hp. discriminate Hp. }
  assert (~ In (EvHooks "post-build hook failure") [EvLoadBuildContext]) as Hnl.
  { intros [Heq | []]. discriminate Heq. }
  assert (forall w0 evs0,
             w' = w0 -> trace w0 = trace w ++ evs0 ->
             ~ In (EvHooks "post-build hook failure") evs0 -> False) as Hearly.
  { intros w0 evs0 -> Htr0 Hno. apply Hno.
    rewrite Htr0 in Htr. apply app_inv_head in Htr. rewrite Htr. exact Hin. }
  destruct pre as [e|].
  { destruct Hrun as [_ Hw]. destruct (Hearly w1 evp Hw Htr1 Hnp). }
  cbv zeta in Hrun.
  assert (forall w0, w' = w0 ->
            w0 = mkWorld (fs w1) (trace w1 ++ [EvLoadBuildContext]) -> False) as Hload0.
  { intros w0 Hw ->. apply (Hearly _ (evp ++ [EvLoadBuildContext]) Hw).
    - simpl. rewrite Htr1, <- app_assoc. reflexivity.
    - rewrite in_app_iff. tauto. }
  destruct (loadBuildContext m (fs w1)) as [[[bc rel] inc] [e|]].
  { destruct Hrun as [_ Hw]. destruct (Hload0 _ Hw eq_refl). }
  destruct (Digest bc inc) as [digest [e|]].
  { destruct Hrun as [_ Hw]. destruct (Hload0 _ Hw eq_refl). }
  destruct Hrun as (cached & err & w2 & Hcached & Hrun).
  apply CachedDigest_trace in Hcached.
  destruct Hcached as (_ & evr & Htr2 & Hops2). simpl in Htr2.
  assert (trace w2 = trace w ++ evp ++ [EvLoadBuildContext] ++ evr) as Htr2'.
  { rewrite Htr2, Htr1, <- !app_assoc. reflexivity. }
  assert (~ In (EvHooks "post-build hook failure")
            (evp ++ [EvLoadBuildContext] ++ evr)) as Hn2.
  { rewrite !in_app_iff. intros [Hp | [Hl | Hr]]; [tauto | tauto|].
    exact (fileOps_no_hooks _ _ Hops2 Hr). }
  destruct (isOtherError err).
  { destruct Hrun as [_ Hw]. destruct (Hearly w2 _ Hw Htr2' Hn2). }
  destruct (_ && _)%bool.
  { destruct Hrun as [_ Hw]. destruct (Hearly w2 _ Hw Htr2' Hn2). }
  apply buildAndStore_inv in Hrun.
  destruct (Archive bc) as [tar [e|]].
  { destruct Hrun as [_ Hw]. destruct (Hearly w2 _ Hw Htr2' Hn2). }
  destruct Hrun as (built & w3 & Hbuilt & Hrun).
  apply doBuildBackend_trace in Hbuilt.
  destruct Hbuilt as (_ & [[b Htr3] | [Htr3 Hfail]]).
  2:{ destruct built as [e|]; [|congruence]. destruct Hrun as [_ Hw].
      exfalso. apply (Hearly w3 (evp ++ [EvLoadBuildContext] ++ evr) Hw);
        [rewrite Htr3; exact Htr2' | exact Hn2]. }
  assert (trace w3 = trace w ++ (evp ++ [EvLoadBuildContext] ++ evr) ++ [EvBackend b])
    as Htr3'.
  { rewrite Htr3, Htr2', <- !app_assoc. reflexivity. }
  assert (~ In (EvHooks "post-build hook failure")
            ((evp ++ [EvLoadBuildContext] ++ evr) ++ [EvBackend b])) as Hn3.
  { rewrite in_app_iff. intros [Hp | [Heq | []]]; [tauto | discriminate Heq]. }
  destruct built as [e|].
  { destruct Hrun as [_ Hw]. destruct (Hearly w3 _ Hw Htr3' Hn3). }
  destruct Hrun as (stored & w4 & Hstored & Hrun).
  destruct stored as [e|].
  { destruct Hrun as [_ Hw].
    apply cacheDigest_trace in Hstored. destruct Hstored as (evs4 & Htr4 & Hops4).
    exfalso.
    apply (Hearly w4 (((evp ++ [EvLoadBuildContext] ++ evr) ++ [EvBackend b]) ++ evs4) Hw).
    - rewrite Htr4, Htr3', <- !app_assoc. reflexivity.
    - rewrite in_app_iff. intros [Hp | Hs]; [tauto|].
      exact (fileOps_no_hooks _ _ Hops4 Hs). }
  apply cacheDigest_stored in Hstored. destruct Hstored as (path & Hpath & Hfile).
  exists w4, path, digest. auto.
Qed.

(** The first build of a module whose post-build hook fails: the build
    fails, and the digest is in the cache. *)
Lemma post_hooks_follow_stored_digest_witness :
  let run := Module_doBuild flaky flakySpec defaultOptions (mkWorld freshFS []) in
  run.1 = Some (Errorf "post-build hook failure: exit status 1") /\
  fs run.2 !! "/home/u/.kindest/digests/_repo_web"
  = Some (File ("sha256:" +:+ webRecipe)) /\
  exists w4 path digest,
    digestPathForManifest (Dir flaky) = (path, None) /\
    fs w4 !! path = Some (File digest) /\
    runHooks defaultOptions "post-build hook failure" (After flakySpec) w4 = run.
Proof.
  intros run. split; [vm_compute; reflexivity|]. split; [vm_compute; reflexivity|].
  destruct (post_hooks_follow_stored_digest flaky flakySpec defaultOptions
              (mkWorld freshFS []) run.2 run.1 (trace run.2))
    as (w4 & path & digest & Hpath & Hfile & Hpost).
  - vm_compute. reflexivity.
  - reflexivity.
  - vm_compute. tauto.
  - exists w4, path, digest. split; [exact Hpath|]. split; [exact Hfile|].
    rewrite Hpost. vm_compute. reflexivity.
Defined.

(** ** Concurrent callers: termination *)

Section ProtocolMore.

Context `{Collaborators}.
Variable depBuild : Module -> BuildOptions -> error.
Variable m : Module.
Variable options : nat -> BuildOptions.

Lemma totalRank_insert (l : list pc) (i : nat) (p q : pc) :
  l !! i = Some p ->
  (totalRank (<[i := q]> l) + rank p = totalRank l + rank q)%nat.
Proof.
  revert i. induction l as [|x l IH]; intros i Hi; [discriminate|].
  destruct i as [|i]; simpl in *.
  - inversion Hi; subst. lia.
  - specialize (IH i Hi). lia.
Qed.

(** What a step does to the control points: the caller that moves goes to
    a control point of smaller rank, the others stay. *)
Lemma step_callers (i : nat) (c c' : Config) :
  step depBuild m options i c = Some c' ->
  exists p q, callers c !! i = Some p /\
              callers c' = <[i := q]> (callers c) /\
              (rank q < rank p)%nat.
Proof.
  unfold step. destruct (callers c !! i) as [p|] eqn:Hi; [|discriminate].
  intros Hstep. exists p.
  destruct p; simpl in Hstep.
  - unfold claim in Hstep. destruct (decide _); inversion Hstep; subst;
      eexists; (split; [reflexivity|]); (split; [reflexivity|]); simpl; lia.
  - inversion Hstep; subst. eexists. split; [reflexivity|]. split; [reflexivity|].
    destruct (Status (shared c)); simpl; lia.
  - inversion Hstep; subst. eexists. split; [reflexivity|]. split; [reflexivity|].
    destruct (err (shared c)); simpl; lia.
  - destruct (subscribersL (shared c)); [discriminate|].
    inversion Hstep; subst. unfold subscribe.
    destruct (Status (shared c)); [| |destruct (err (shared c))|];
      eexists; (split; [reflexivity|]); (split; [reflexivity|]); simpl; lia.
  - destruct (chans c !! i) as [[e|]|]; try discriminate.
    inversion Hstep; subst. eexists. split; [reflexivity|]. split; [reflexivity|].
    simpl; lia.
  - destruct (Module_Build_body depBuild m (options i) (world c)) as [e w'].
    inversion Hstep; subst. eexists. split; [reflexivity|]. split; [reflexivity|].
    simpl; lia.
  - destruct (subscribersL (shared c)); [discriminate|].
    inversion Hstep; subst. eexists. split; [reflexivity|]. split; [reflexivity|].
    simpl; lia.
  - destruct e as [e'|]; inversion Hstep; subst;
      eexists; (split; [reflexivity|]); (split; [reflexivity|]); simpl; lia.
  - inversion Hstep; subst. eexists. split; [reflexivity|]. split; [reflexivity|].
    simpl; lia.
  - inversion Hstep; subst.
    destruct (deliver_fields e (subscribers (shared c)) c) as (_ & Hcs & _).
    eexists. split; [reflexivity|]. split; [simpl; rewrite Hcs; reflexivity|].
    simpl; lia.
  - discriminate.
  - discriminate.
Qed.

End ProtocolMore.

(** ** Concurrent callers: the mutex, the channels and progress *)

Section Progress.

Context `{Collaborators}.
Variable depBuild : Module -> BuildOptions -> error.
Variable m : Module.
Variable options : nat -> BuildOptions.

Lemma countPc_exists (f : pc -> bool) (l : list pc) :
  (0 < countPc f l)%nat -> exists j q, l !! j = Some q /\ f q = true.
Proof.
  induction l as [|p l IH]; simpl; [lia|].
  destruct (f p) eqn:Hp.
  - intros _. exists 0%nat, p. auto.
  - intros Hpos. destruct (IH Hpos) as (j & q & Hj & Hq). exists (S j), q. auto.
Qed.

Lemma countPc_le (f g : pc -> bool) (l : list pc) :
  (forall p, f p = true -> g p = true) -> (countPc f l <= countPc g l)%nat.
Proof.
  intros Hfg. induction l as [|p l IH]; simpl; [lia|].
  destruct (f p) eqn:Hp; [rewrite (Hfg p Hp)|destruct (g p)]; lia.
Qed.

Lemma deliver_length (e : error) (subs : list nat) (c : Config) :
  length (chans (foldl (fun c s => send c s e) c subs)) = length (chans c).
Proof.
  revert c. induction subs as [|s subs IH]; intros c; simpl; [reflexivity|].
  rewrite IH. simpl. apply length_insert.
Qed.

Lemma deliver_keeps (e : error) (subs : list nat) (c : Config) (i : nat) :
  chans c !! i = Some (Some e) ->
  chans (foldl (fun c s => send c s e) c subs) !! i = Some (Some e).
Proof.
  revert c. induction subs as [|s subs IH]; intros c Hi; simpl; [assumption|].
  apply IH. simpl. destruct (decide (s = i)) as [->|Hne].
  - apply list_lookup_insert_eq. eapply lookup_lt_Some; eassumption.
  - rewrite list_lookup_insert_ne by assumption. assumption.
Qed.

Lemma deliver_fills (e : error) (subs : list nat) (c : Config) (i : nat) :
  In i subs -> (i < length (chans c))%nat ->
  chans (foldl (fun c s => send c s e) c subs) !! i = Some (Some e).
Proof.
  revert c. induction subs as [|s subs IH]; intros c Hin Hlt; simpl; [destruct Hin|].
  destruct (decide (s = i)) as [->|Hne].
  - apply deliver_keeps. simpl. apply list_lookup_insert_eq. assumption.
  - destruct Hin as [Heq | Hin]; [congruence|].
    apply IH; [assumption|]. simpl. rewrite length_insert. assumption.
Qed.

Lemma deliver_filled_stays (e : error) (subs : list nat) (c : Config)
    (i : nat) (x : error) :
  chans c !! i = Some (Some x) ->
  exists y, chans (foldl (fun c s => send c s e) c subs) !! i = Some (Some y).
Proof.
  revert c x. induction subs as [|s subs IH]; intros c x Hi; simpl; [eauto|].
  destruct (decide (s = i)) as [->|Hne].
  - apply (IH _ e). simpl. apply list_lookup_insert_eq.
    eapply lookup_lt_Some; eassumption.
  - apply (IH _ x). simpl. rewrite list_lookup_insert_ne by assumption. assumption.
Qed.

Lemma waitInv_initial (n : nat) (w : World) : waitInv (initial n w).
Proof.
  split; simpl.
  - rewrite !length_replicate. reflexivity.
  - apply countPc_all_AtClaim; [reflexivity | apply Forall_replicate; reflexivity].
  - intros i [].
  - intros i Hi. apply lookup_replicate in Hi. destruct Hi as [Hi _]. discriminate.
Qed.

(** A step that changes neither the channels nor the subscribers nor the
    mutex, and moves caller [i] between control points that are alike for
    the mutex and for the owner, keeps the invariant. *)
Lemma waitInv_move (c : Config) (sh' : Shared) (w' : World) (i : nat) (p q : pc) :
  waitInv c ->
  callers c !! i = Some p ->
  subscribers sh' = subscribers (shared c) ->
  subscribersL sh' = subscribersL (shared c) ->
  inBroadcast q = inBroadcast p ->
  (ownerActive p = true -> ownerActive q = true) ->
  q <> Waiting ->
  waitInv (mkConfig sh' (chans c) (<[i := q]> (callers c)) w').
Proof.
  intros [Hlen Hlock Hsubs Hwait] Hi Hs Hl Hb Ho Hq.
  pose proof (countPc_insert inBroadcast _ _ _ q Hi) as Hcb.
  pose proof (countPc_insert ownerActive _ _ _ q Hi) as Hco.
  split; simpl.
  - rewrite length_insert. assumption.
  - rewrite Hl, <- Hlock. rewrite Hb in Hcb. lia.
  - intros k Hk. rewrite length_insert. apply Hsubs. rewrite <- Hs. assumption.
  - intros k Hk Hempty. destruct (decide (i = k)) as [->|Hne].
    + rewrite list_lookup_insert_eq in Hk by (eapply lookup_lt_Some; eassumption).
      congruence.
    + rewrite list_lookup_insert_ne in Hk by assumption.
      destruct (Hwait k Hk Hempty) as [Hin Hpos]. rewrite Hs. split; [assumption|].
      destruct (ownerActive p) eqn:Hp; [rewrite (Ho eq_refl) in Hco|];
        destruct (ownerActive q); lia.
Qed.

Lemma waitInv_step (base : nat) (c c' : Config) (i : nat) :
  protocolInv base c -> waitInv c ->
  step depBuild m options i c = Some c' ->
  waitInv c'.
Proof.
  intros Hprot Hinv Hstep. unfold step in Hstep.
  destruct (callers c !! i) as [p|] eqn:Hi; [|discriminate].
  destruct p; simpl in Hstep.
  - (* AtClaim *)
    unfold claim in Hstep. destruct (decide _); inversion Hstep; subst;
      apply (waitInv_move c _ _ _ _ _ Hinv Hi); try reflexivity; try discriminate.
  - inversion Hstep; subst.
    apply (waitInv_move c _ _ _ _ _ Hinv Hi); try reflexivity;
      destruct (Status (shared c)); try reflexivity; try discriminate.
  - inversion Hstep; subst.
    apply (waitInv_move c _ _ _ _ _ Hinv Hi); try reflexivity;
      destruct (err (shared c)); try reflexivity; try discriminate.
  - (* AtSubscribe *)
    destruct (subscribersL (shared c)) eqn:Hlockfree; [discriminate|].
    inversion Hstep; subst; clear Hstep. unfold subscribe, Status.
    destruct Hinv as [Hlen Hlock Hsubs Hwait].
    pose proof (countPc_insert inBroadcast _ _ _ Waiting Hi) as Hcb.
    pose proof (countPc_insert ownerActive _ _ _ Waiting Hi) as Hco.
    pose proof (lookup_lt_Some _ _ _ Hi) as Hlt.
    simpl in Hcb, Hco.
    destruct (status (shared c)) eqn:Hst.
    + apply (waitInv_move c _ _ _ _ _ (Build_waitInv _ Hlen Hlock Hsubs Hwait) Hi);
        try reflexivity; try discriminate.
    + (* InProgress: the caller registers *)
      split; simpl.
      * rewrite length_insert. assumption.
      * rewrite Hlockfree in *. lia.
      * intros k Hk. rewrite length_insert. apply in_app_or in Hk.
        destruct Hk as [Hk | [<- | []]]; [apply Hsubs; assumption | assumption].
      * intros k Hk Hempty.
        assert (0 < countPc ownerActive (callers c))%nat as Hactive.
        { pose proof (inv_owner _ _ Hprot) as Hown. rewrite Hst in Hown. simpl in Hown.
          pose proof (countPc_le ownsBuild ownerActive (callers c)) as Hle.
          assert (forall p, ownsBuild p = true -> ownerActive p = true) as Himp
            by (intros []; simpl; congruence).
          specialize (Hle Himp). lia. }
        split; [|lia].
        apply in_or_app. destruct (decide (i = k)) as [->|Hne]; [right; left; reflexivity|].
        rewrite list_lookup_insert_ne in Hk by assumption.
        left. exact (proj1 (Hwait k Hk Hempty)).
    + (* Failed *)
      destruct (err (shared c)) as [box|].
      * split; simpl.
        -- rewrite !length_insert. assumption.
        -- rewrite Hlockfree in *. lia.
        -- intros k Hk. rewrite length_insert. apply Hsubs. assumption.
        -- intros k Hk Hempty. destruct (decide (i = k)) as [->|Hne].
           ++ rewrite list_lookup_insert_eq in Hempty by lia. discriminate.
           ++ rewrite list_lookup_insert_ne in Hk by assumption.
              rewrite list_lookup_insert_ne in Hempty by assumption.
              destruct (Hwait k Hk Hempty). split; [assumption | lia].
      * apply (waitInv_move c _ _ _ _ _ (Build_waitInv _ Hlen Hlock Hsubs Hwait) Hi);
          try reflexivity; try discriminate.
    + (* Succeeded *)
      split; simpl.
      * rewrite !length_insert. assumption.
      * rewrite Hlockfree in *. lia.
      * intros k Hk. rewrite length_insert. apply Hsubs. assumption.
      * intros k Hk Hempty. destruct (decide (i = k)) as [->|Hne].
        -- rewrite list_lookup_insert_eq in Hempty by lia. discriminate.
        -- rewrite list_lookup_insert_ne in Hk by assumption.
              rewrite list_lookup_insert_ne in Hempty by assumption.
           destruct (Hwait k Hk Hempty). split; [assumption | lia].
  - (* Waiting *)
    destruct (chans c !! i) as [[e|]|]; try discriminate.
    inversion Hstep; subst.
    apply (waitInv_move c _ _ _ _ _ Hinv Hi); try reflexivity; try discriminate.
  - (* Building *)
    destruct (Module_Build_body depBuild m (options i) (world c)) as [e w'].
    inversion Hstep; subst.
    apply (waitInv_move c _ _ _ _ _ Hinv Hi); try reflexivity; try discriminate.
  - (* AtBroadcast: the mutex is taken *)
    destruct (subscribersL (shared c)) eqn:Hlockfree; [discriminate|].
    inversion Hstep; subst; clear Hstep.
    destruct Hinv as [Hlen Hlock Hsubs Hwait].
    pose proof (countPc_insert inBroadcast _ _ _ (AtSetStatus e) Hi) as Hcb.
    pose proof (countPc_insert ownerActive _ _ _ (AtSetStatus e) Hi) as Hco.
    simpl in Hcb, Hco. rewrite Hlockfree in Hlock.
    split; simpl.
    + rewrite length_insert. assumption.
    + lia.
    + intros k Hk. rewrite length_insert. apply Hsubs. assumption.
    + intros k Hk Hempty. destruct (decide (i = k)) as [->|Hne].
      * rewrite list_lookup_insert_eq in Hk by (eapply lookup_lt_Some; eassumption).
        discriminate.
      * rewrite list_lookup_insert_ne in Hk by assumption.
        destruct (Hwait k Hk Hempty). split; [assumption | lia].
  - (* AtSetStatus *)
    destruct e as [e'|]; inversion Hstep; subst;
      apply (waitInv_move c _ _ _ _ _ Hinv Hi); try reflexivity; try discriminate.
  - inversion Hstep; subst.
    apply (waitInv_move c _ _ _ _ _ Hinv Hi); try reflexivity; try discriminate.
  - (* AtDeliver: every subscriber is served and the mutex is released *)
    inversion Hstep; subst; clear Hstep.
    destruct Hinv as [Hlen Hlock Hsubs Hwait].
    destruct (deliver_fields e (subscribers (shared c)) c) as (Hsh & Hcs & Hw).
    pose proof (countPc_insert inBroadcast _ _ _ (Returned e) Hi) as Hcb.
    simpl in Hcb.
    assert (subscribersL (shared c) = true) as Hheld.
    { destruct (subscribersL (shared c)); [reflexivity | lia]. }
    rewrite Hheld in Hlock.
    split; simpl; rewrite ?Hsh, ?Hcs.
    + rewrite length_insert, deliver_length. assumption.
    + lia.
    + intros k Hk. rewrite length_insert. apply Hsubs. assumption.
    + intros k Hk Hempty. exfalso.
      destruct (decide (i = k)) as [->|Hne].
      * rewrite list_lookup_insert_eq in Hk by (eapply lookup_lt_Some; eassumption).
        discriminate.
      * rewrite list_lookup_insert_ne in Hk by assumption.
        pose proof (lookup_lt_Some _ _ _ Hk) as Hlt. rewrite <- Hlen in Hlt.
        destruct (chans c !! k) as [[x|]|] eqn:Hck.
        -- destruct (deliver_filled_stays e (subscribers (shared c)) c k x Hck)
             as [y Hy]. congruence.
        -- destruct (Hwait k Hk Hck) as [Hin _].
           rewrite (deliver_fills e _ c k Hin Hlt) in Hempty. discriminate.
        -- apply lookup_ge_None in Hck. lia.
  - discriminate.
  - discriminate.
Qed.

Lemma run_app (sched1 sched2 : list nat) (c c1 : Config) :
  run depBuild m options sched1 c = Some c1 ->
  run depBuild m options (sched1 ++ sched2) c = run depBuild m options sched2 c1.
Proof.
  revert c. induction sched1 as [|i sched1 IH]; intros c Hrun; simpl in *.
  - congruence.
  - destruct (step depBuild m options i c); [eauto | discriminate].
Qed.

Lemma invariants_run (base : nat) (schedule : list nat) (c c' : Config) :
  protocolInv base c -> waitInv c ->
  run depBuild m options schedule c = Some c' ->
  protocolInv base c' /\ waitInv c'.
Proof.
  revert c. induction schedule as [|i schedule IH]; intros c Hprot Hwait Hrun;
    simpl in Hrun.
  - inversion Hrun; subst. auto.
  - destruct (step depBuild m options i c) as [c1|] eqn:Hstep; [|discriminate].
    apply (IH c1); [|eapply waitInv_step; eassumption | assumption].
    exact (proj1 (protocolInv_step _ _ _ _ _ _ _ Hprot Hstep)).
Qed.

(** In a configuration that satisfies the invariants, as long as some
    caller has not finished some caller can take a step. *)
Lemma some_caller_can_step (c : Config) (i : nat) (p : pc) :
  waitInv c ->
  callers c !! i = Some p -> finished p = false ->
  exists j c', step depBuild m options j c = Some c'.
Proof.
  intros Hinv Hi Hfin.
  assert (forall j q, callers c !! j = Some q -> inBroadcast q = true ->
                      exists c', step depBuild m options j c = Some c') as Hholder.
  { intros j q Hj Hq. unfold step. rewrite Hj.
    destruct q; try discriminate Hq; [destruct e| |]; eauto. }
  assert (subscribersL (shared c) = true ->
          exists j c', step depBuild m options j c = Some c') as Hheld.
  { intros Hl. pose proof (wi_lock _ Hinv) as Hlock. rewrite Hl in Hlock.
    destruct (countPc_exists inBroadcast (callers c)) as (j & q & Hj & Hq); [lia|].
    exists j. eapply Hholder; eassumption. }
  assert (forall j q, callers c !! j = Some q -> ownerActive q = true ->
                      exists j' c', step depBuild m options j' c = Some c') as Howner.
  { intros j q Hj Hq. destruct (inBroadcast q) eqn:Hb; [exists j; eauto|].
    destruct q; try discriminate Hq; try discriminate Hb.
    - exists j. unfold step. rewrite Hj.
      destruct (Module_Build_body depBuild m (options j) (world c)). eauto.
    - destruct (subscribersL (shared c)) eqn:Hl; [auto|].
      exists j. unfold step. rewrite Hj, Hl. eauto. }
  destruct p; try discriminate Hfin.
  - exists i. unfold step. rewrite Hi. simpl. destruct (claim (shared c)). eauto.
  - exists i. unfold step. rewrite Hi. eauto.
  - exists i. unfold step. rewrite Hi. eauto.
  - destruct (subscribersL (shared c)) eqn:Hl; [auto|].
    exists i. unfold step. rewrite Hi, Hl. eauto.
  - pose proof (lookup_lt_Some _ _ _ Hi) as Hlt. rewrite <- (wi_length _ Hinv) in Hlt.
    destruct (chans c !! i) as [[e|]|] eqn:Hc.
    + exists i. unfold step. rewrite Hi, Hc. eauto.
    + destruct (wi_waiting _ Hinv i Hi Hc) as [_ Hpos].
      destruct (countPc_exists _ _ Hpos) as (j & q & Hj & Hq). eauto.
    + apply lookup_ge_None in Hc. lia.
  - eapply Howner; [exact Hi | reflexivity].
  - eapply Howner; [exact Hi | reflexivity].
  - eapply Howner; [exact Hi | reflexivity].
  - eapply Howner; [exact Hi | reflexivity].
  - eapply Howner; [exact Hi | reflexivity].
Qed.

Lemma unfinished_or_done (l : list pc) :
  Forall (fun p => finished p = true) l \/
  exists i p, l !! i = Some p /\ finished p = false.
Proof.
  induction l as [|p l IH]; [left; constructor|].
  destruct (finished p) eqn:Hp.
  - destruct IH as [Hall | (i & q & Hi & Hq)].
    + left. constructor; assumption.
    + right. exists (S i), q. auto.
  - right. exists 0%nat, p. auto.
Qed.

Lemma can_finish (base k : nat) (c : Config) :
  (totalRank (callers c) <= k)%nat ->
  protocolInv base c -> waitInv c ->
  exists schedule c',
    run depBuild m options schedule c = Some c' /\
    Forall (fun p => finished p = true) (callers c').
Proof.
  revert c. induction k as [|k IH]; intros c Hrank Hprot Hinv;
    destruct (unfinished_or_done (callers c)) as [Hall | (i & p & Hi & Hp)];
    try (exists [], c; split; [reflexivity | assumption]; fail).
  - destruct (some_caller_can_step c i p Hinv Hi Hp) as (j & c1 & Hstep).
    destruct (step_callers depBuild m options _ _ _ Hstep) as (p' & q & Hj & Hcs & Hlt).
    pose proof (totalRank_insert _ _ _ q Hj). lia.
  - destruct (some_caller_can_step c i p Hinv Hi Hp) as (j & c1 & Hstep).
    destruct (step_callers depBuild m options _ _ _ Hstep) as (p' & q & Hj & Hcs & Hlt).
    pose proof (totalRank_insert _ _ _ q Hj) as Hins. rewrite <- Hcs in Hins.
    destruct (IH c1) as (schedule & c' & Hrun & Hall).
    + lia.
    + exact (proj1 (protocolInv_step _ _ _ _ _ _ _ Hprot Hstep)).
    + eapply waitInv_step; eassumption.
    + exists (j :: schedule), c'. simpl. rewrite Hstep. auto.
Qed.

End Progress.

(** X12: Build cannot deadlock: in every configuration that concurrent callers
    can reach, as long as some caller has neither returned nor panicked
    some caller can take a step, and there is a continuation of the run in
    which every caller leaves Build. *)
Theorem callers_can_always_finish `{Collaborators}
    (depBuild : Module -> BuildOptions -> error) (m : Module)
    (options : nat -> BuildOptions) (n : nat) (w : World)
    (schedule : list nat) (c : Config) :
  run depBuild m options schedule (initial n w) = Some c ->
  (forall i p, callers c !! i = Some p -> finished p = false ->
               exists j c', step depBuild m options j c = Some c') /\
  (exists rest c',
     run depBuild m options rest c = Some c' /\
     Forall (fun p => finished p = true) (callers c')).
Proof.
  intros Hrun.
  destruct (invariants_run depBuild m options _ _ _ _
              (protocolInv_initial n w) (waitInv_initial n w) Hrun) as [Hprot Hinv].
  split.
  - intros i p Hi Hp. eapply some_caller_can_step; eassumption.
  - eapply can_finish; [apply Nat.le_refl | exact Hprot | exact Hinv].
Qed.

(** Two callers of Build on [web]; the second has subscribed and waits
    while the first is about to lock the mutex. *)
Lemma callers_can_always_finish_witness :
  exists c,
    run noDeps web (fun _ => defaultOptions) [0; 0; 1; 1; 1]%nat
        (initial 2 (mkWorld freshFS [])) = Some c /\
    callers c = [AtBroadcast None; Waiting] /\
    exists rest c',
      run noDeps web (fun _ => defaultOptions) rest c = Some c' /\
      Forall (fun p => finished p = true) (callers c').
Proof.
  eexists. split; [vm_compute; reflexivity|]. split; [reflexivity|].
  refine (proj2 (callers_can_always_finish noDeps web (fun _ => defaultOptions)
            2 (mkWorld freshFS []) [0; 0; 1; 1; 1]%nat _ _)).
  vm_compute. reflexivity.
Defined.

(** A run of two callers of Build on [web] from a cold cache: one backend
    call for two calls of Build. *)
Lemma backend_called_at_most_once_witness :
  exists c,
    run noDeps web (fun _ => defaultOptions) [0; 0; 1; 1; 1; 0; 0; 0; 1]%nat
        (initial 2 (mkWorld freshFS [])) = Some c /\
    backendCalls (trace (world c)) = 1%nat /\
    (backendCalls (trace (world c)) <= 0 + 1)%nat.
Proof.
  eexists. split; [vm_compute; reflexivity|]. split; [vm_compute; reflexivity|].
  refine (proj1 (backend_called_at_most_once noDeps web (fun _ => defaultOptions)
            2 (mkWorld freshFS []) _ _)).
  exists [0; 0; 1; 1; 1; 0; 0; 0; 1]%nat. vm_compute. reflexivity.
Defined.

(** ** Concurrent callers: one outcome for all *)

Section Outcomes.

Context `{Collaborators}.
Variable depBuild : Module -> BuildOptions -> error.
Variable m : Module.
Variable options : nat -> BuildOptions.

Lemma countPc_pos (f : pc -> bool) (l : list pc) (i : nat) (p : pc) :
  l !! i = Some p -> f p = true -> (0 < countPc f l)%nat.
Proof.
  revert i. induction l as [|x l IH]; intros i Hi Hp; [discriminate|].
  destruct i as [|i]; simpl in *.
  - inversion Hi; subst. rewrite Hp. lia.
  - specialize (IH i Hi Hp). lia.
Qed.

Lemma countPc_unique (f : pc -> bool) (l : list pc) (i k : nat) (p q : pc) :
  (countPc f l <= 1)%nat -> l !! i = Some p -> f p = true ->
  l !! k = Some q -> i <> k -> f q = false.
Proof.
  revert i k. induction l as [|x l IH]; intros i k Hcount Hi Hp Hk Hne;
    [discriminate|].
  destruct (f q) eqn:Hq; [|reflexivity]. exfalso.
  destruct i as [|i], k as [|k]; simpl in *; try congruence.
  - inversion Hi; subst. rewrite Hp in Hcount.
    pose proof (countPc_pos f l k q Hk Hq). lia.
  - inversion Hk; subst. rewrite Hq in Hcount.
    pose proof (countPc_pos f l i p Hi Hp). lia.
  - assert (true = false) as Habs; [|discriminate Habs].
    apply (IH i k); try assumption; [|congruence].
    destruct (f x); lia.
Qed.

Lemma outcomeInv_initial (n : nat) (w : World) : outcomeInv (initial n w).
Proof.
  split; simpl.
  - intros _. split; [|split; [|reflexivity]].
    + apply Forall_replicate. exact I.
    + apply Forall_replicate. reflexivity.
  - intros [Ht | Ht]; discriminate Ht.
Qed.

(** A step of caller [i] that leaves the shared fields and the channels
    alone. *)
Lemma decided_move (r : error) (c : Config) (w' : World) (i : nat) (q : pc) :
  decided r c -> pcOk r (shared c) q ->
  decided r (mkConfig (shared c) (chans c) (<[i := q]> (callers c)) w').
Proof.
  intros (Hpcs & Hchans & Hst) Hq. split; [|split]; simpl; try assumption.
  intros k p Hk. destruct (decide (i = k)) as [->|Hne].
  - apply list_lookup_insert_Some in Hk. destruct Hk as [(_ & <- & _) | [Habs _]];
      [assumption | congruence].
  - rewrite list_lookup_insert_ne in Hk by assumption. eauto.
Qed.

Lemma quiet_move (c : Config) (sh' : Shared) (i : nat) (q : pc) :
  Forall quietPc (callers c) /\ Forall (fun d => d = None) (chans c) /\
    err (shared c) = None ->
  quietPc q -> err sh' = None ->
  Forall quietPc (<[i := q]> (callers c)) /\
  Forall (fun d => d = None) (chans c) /\ err sh' = None.
Proof.
  intros (Hq & Hc & He) Hqq He'. split; [|auto].
  apply Forall_insert; assumption.
Qed.

Lemma terminal_dec (s : BuildStatus) : terminal s \/ ~ terminal s.
Proof.
  unfold terminal. destruct s; auto; right; intros [Ht | Ht]; discriminate Ht.
Qed.

Lemma outcomeInv_step (base : nat) (c c' : Config) (i : nat) :
  protocolInv base c -> waitInv c -> outcomeInv c ->
  step depBuild m options i c = Some c' ->
  outcomeInv c'.
Proof.
  intros Hprot Hwait [Hquiet Hdec] Hstep. unfold step in Hstep.
  destruct (callers c !! i) as [p|] eqn:Hi; [|discriminate].
  pose proof (lookup_lt_Some _ _ _ Hi) as Hlt.
  destruct p; simpl in Hstep.
  - (* AtClaim *)
    unfold claim in Hstep.
    destruct (decide (status (shared c) = BuildStatusPending)) as [Hpend|Hpend];
      inversion Hstep; subst; clear Hstep.
    + split; simpl.
      * intros _. apply quiet_move.
        -- apply Hquiet. rewrite Hpend. intros [Ht | Ht]; discriminate Ht.
        -- exact I.
        -- simpl. apply Hquiet. rewrite Hpend. intros [Ht | Ht]; discriminate Ht.
      * intros [Ht | Ht]; discriminate Ht.
    + split; simpl.
      * intros Hnt. apply quiet_move; [auto | exact I | apply Hquiet; auto].
      * intros Ht. destruct (Hdec Ht) as [r Hr]. exists r.
        apply (decided_move r c); [assumption | exact I].
  - (* AtStatus *)
    inversion Hstep; subst; clear Hstep.
    pose proof (not_pending _ _ _ _ Hprot Hi ltac:(discriminate)) as Hnp.
    unfold Status. split; simpl.
    + intros Hnt. apply quiet_move; [auto| |apply Hquiet; auto].
      destruct (status (shared c)) eqn:Hs; try exact I;
        [congruence | exfalso; apply Hnt; right; reflexivity
        | exfalso; apply Hnt; left; reflexivity].
    + intros Ht. destruct (Hdec Ht) as [r Hr]. exists r.
      apply (decided_move r c); [assumption|].
      destruct Hr as (_ & _ & Hst). unfold statusOk in Hst.
      destruct (status (shared c)) eqn:Hs; simpl; try contradiction; auto.
      destruct Hst as [-> _]. left. reflexivity.
  - (* AtLoadErr *)
    inversion Hstep; subst; clear Hstep.
    split; simpl.
    + intros Hnt. exfalso.
      destruct (Hquiet Hnt) as (Hq & _). rewrite Forall_lookup in Hq.
      exact (Hq i _ Hi).
    + intros Ht. destruct (Hdec Ht) as [r Hr]. exists r.
      apply (decided_move r c); [assumption|].
      destruct Hr as (Hpcs & _ & Hst).
      pose proof (Hpcs i _ Hi) as Hfailed. simpl in Hfailed.
      unfold statusOk in Hst. rewrite Hfailed in Hst.
      destruct Hst as (e0 & -> & [Herr | [Herr _]]); rewrite Herr; simpl.
      * right. exists e0. auto.
      * auto.
  - (* AtSubscribe *)
    destruct (subscribersL (shared c)) eqn:Hlockfree; [discriminate|].
    inversion Hstep; subst; clear Hstep.
    pose proof (not_pending _ _ _ _ Hprot Hi ltac:(discriminate)) as Hnp.
    unfold subscribe, Status.
    destruct (status (shared c)) eqn:Hs; try contradiction.
    + (* InProgress *)
      split; simpl.
      * intros Hnt. apply quiet_move; [|exact I|].
        -- apply Hquiet. assumption.
        -- simpl. apply Hquiet. assumption.
      * intros [Ht | Ht]; discriminate Ht.
    + (* Failed: the mutex is free, so the error is there *)
      assert (terminal BuildStatusFailed) as Ht by (right; reflexivity).
      destruct (Hdec Ht) as [r (Hpcs & Hchans & Hst)].
      unfold statusOk in Hst. rewrite Hs in Hst.
      destruct Hst as (e0 & -> & [Herr | [_ Hheld]]); [|congruence].
      rewrite Herr. split; simpl.
      * intros Hnt. exfalso. apply Hnt. right. exact Hs.
      * intros _. exists (Some e0). split; [|split]; simpl.
        -- intros k p Hk. destruct (decide (i = k)) as [->|Hne].
           ++ apply list_lookup_insert_Some in Hk.
              destruct Hk as [(_ & <- & _) | [Habs _]]; [exact I | congruence].
           ++ rewrite list_lookup_insert_ne in Hk by assumption. eauto.
        -- intros k e Hk. destruct (decide (i = k)) as [->|Hne].
           ++ apply list_lookup_insert_Some in Hk.
              destruct Hk as [(_ & Heq & _) | [Habs _]]; [|congruence].
              inversion Heq; subst. right. exists e0. auto.
           ++ rewrite list_lookup_insert_ne in Hk by assumption. eauto.
        -- unfold statusOk. rewrite Hs. exists e0. auto.
    + (* Succeeded *)
      assert (terminal BuildStatusSucceeded) as Ht by (left; reflexivity).
      destruct (Hdec Ht) as [r (Hpcs & Hchans & Hst)].
      pose proof Hst as Hst'. unfold statusOk in Hst'. rewrite Hs in Hst'.
      destruct Hst' as [-> Herr].
      split; simpl.
      * intros Hnt. exfalso. apply Hnt. left. exact Hs.
      * intros _. exists None. split; [|split]; simpl.
        -- intros k p Hk. destruct (decide (i = k)) as [->|Hne].
           ++ apply list_lookup_insert_Some in Hk.
              destruct Hk as [(_ & <- & _) | [Habs _]]; [exact I | congruence].
           ++ rewrite list_lookup_insert_ne in Hk by assumption. eauto.
        -- intros k e Hk. destruct (decide (i = k)) as [->|Hne].
           ++ apply list_lookup_insert_Some in Hk.
              destruct Hk as [(_ & Heq & _) | [Habs _]]; [|congruence].
              inversion Heq; subst. left. reflexivity.
           ++ rewrite list_lookup_insert_ne in Hk by assumption. eauto.
        -- assumption.
  - (* Waiting *)
    destruct (chans c !! i) as [[e|]|] eqn:Hc; try discriminate.
    inversion Hstep; subst; clear Hstep.
    split; simpl.
    + intros Hnt. exfalso. destruct (Hquiet Hnt) as (_ & Hcs & _).
      rewrite Forall_lookup in Hcs. specialize (Hcs i _ Hc). discriminate.
    + intros Ht. destruct (Hdec Ht) as [r Hr]. exists r.
      apply (decided_move r c); [assumption|].
      destruct Hr as (_ & Hchans & _). exact (Hchans i e Hc).
  - (* Building *)
    destruct (Module_Build_body depBuild m (options i) (world c)) as [e w'].
    inversion Hstep; subst; clear Hstep.
    pose proof (owner_in_progress _ _ _ _ Hprot Hi eq_refl) as Hs.
    split; simpl; rewrite Hs.
    + intros Hnt. apply quiet_move; [|exact I|]; apply Hquiet; rewrite Hs; assumption.
    + intros [Ht | Ht]; discriminate Ht.
  - (* AtBroadcast *)
    destruct (subscribersL (shared c)); [discriminate|].
    inversion Hstep; subst; clear Hstep.
    pose proof (owner_in_progress _ _ _ _ Hprot Hi eq_refl) as Hs.
    split; simpl; rewrite Hs.
    + intros Hnt. apply quiet_move; [|exact I|]; simpl;
        apply Hquiet; rewrite Hs; assumption.
    + intros [Ht | Ht]; discriminate Ht.
  - (* AtSetStatus: the outcome becomes known *)
    pose proof (owner_in_progress _ _ _ _ Hprot Hi eq_refl) as Hs.
    assert (~ terminal (status (shared c))) as Hnt
      by (rewrite Hs; intros [Ht | Ht]; discriminate Ht).
    destruct (Hquiet Hnt) as (Hq & Hcs & Herr).
    pose proof (inv_owner _ _ Hprot) as Hown. rewrite Hs in Hown. simpl in Hown.
    assert (subscribersL (shared c) = true) as Hheld.
    { pose proof (wi_lock _ Hwait) as Hlock.
      pose proof (countPc_insert inBroadcast _ _ _ AtClaim Hi) as Hcb. simpl in Hcb.
      destruct (subscribersL (shared c)); [reflexivity | lia]. }
    assert (forall k p, <[i := AtClaim]> (callers c) !! k = Some p ->
                        match p with
                        | AtClaim | AtStatus | AtSubscribe | Waiting => True
                        | _ => False
                        end) as Hothers.
    { intros k p Hk. destruct (decide (i = k)) as [->|Hne].
      - apply list_lookup_insert_Some in Hk.
        destruct Hk as [(_ & <- & _) | [Habs _]]; [exact I | congruence].
      - rewrite list_lookup_insert_ne in Hk by assumption.
        rewrite Forall_lookup in Hq. pose proof (Hq k p Hk) as Hqp.
        assert (ownsBuild p = false) as Hno.
        { eapply (countPc_unique ownsBuild (callers c) i k); eauto. lia. }
        destruct p; simpl in *; try contradiction; try discriminate; exact I. }
    assert (forall r q sh',
               pcOk r sh' q ->
               forall k p, <[i := q]> (callers c) !! k = Some p -> pcOk r sh' p)
      as Hpcs.
    { intros r q sh' Hqok k p Hk. destruct (decide (i = k)) as [->|Hne].
      - apply list_lookup_insert_Some in Hk.
        destruct Hk as [(_ & <- & _) | [Habs _]]; [assumption | congruence].
      - assert (<[i := AtClaim]> (callers c) !! k = Some p) as Hk'.
        { rewrite list_lookup_insert_ne in Hk |- * by assumption. assumption. }
        specialize (Hothers k p Hk').
        destruct p; simpl in *; try contradiction; exact I. }
    assert (forall r k x, chans c !! k = Some (Some x) -> similar r x) as Hchans.
    { intros r k x Hk. rewrite Forall_lookup in Hcs. specialize (Hcs k _ Hk).
      discriminate. }
    destruct e as [e'|]; inversion Hstep; subst; clear Hstep.
    + split; simpl.
      * intros Hnt'. exfalso. apply Hnt'. right. reflexivity.
      * intros _. exists (Some e'). split; [|split]; simpl.
        -- apply Hpcs. simpl. auto.
        -- apply Hchans.
        -- unfold statusOk. simpl. exists e'. auto.
    + split; simpl.
      * intros Hnt'. exfalso. apply Hnt'. left. reflexivity.
      * intros _. exists None. split; [|split]; simpl.
        -- apply Hpcs. simpl. split; [reflexivity | discriminate].
        -- apply Hchans.
        -- unfold statusOk. simpl. auto.
  - (* AtStoreErr: the error is stored *)
    inversion Hstep; subst; clear Hstep.
    assert (terminal (status (shared c))) as Ht.
    { destruct (terminal_dec (status (shared c))) as [Ht | Hnt]; [assumption|].
      exfalso. destruct (Hquiet Hnt) as (Hq & _). rewrite Forall_lookup in Hq.
      exact (Hq i _ Hi). }
    destruct (Hdec Ht) as [r (Hpcs & Hchans & Hst)].
    destruct (Hpcs i _ Hi) as [-> Herr].
    assert (status (shared c) = BuildStatusFailed) as Hs.
    { unfold statusOk in Hst. destruct (status (shared c)); try contradiction;
        [reflexivity | destruct Hst; discriminate]. }
    assert (countPc inBroadcast (callers c) <= 1)%nat as Hone.
    { rewrite (wi_lock _ Hwait). destruct (subscribersL (shared c)); lia. }
    split; simpl.
    + intros Hnt. contradiction.
    + intros _. exists (Some e). split; [|split]; simpl.
      * intros k p Hk. destruct (decide (i = k)) as [->|Hne].
        -- apply list_lookup_insert_Some in Hk.
           destruct Hk as [(_ & <- & _) | [Habs _]]; [|congruence].
           simpl. split; [reflexivity|]. intros e0 He0. inversion He0. reflexivity.
        -- rewrite list_lookup_insert_ne in Hk by assumption.
           pose proof (Hpcs k p Hk) as Hp.
           assert (inBroadcast p = false) as Hnb.
           { eapply (countPc_unique inBroadcast (callers c) i k); eauto. }
           destruct p; simpl in *; try discriminate; assumption.
      * assumption.
      * unfold statusOk. simpl. rewrite Hs. exists e. auto.
  - (* AtDeliver *)
    inversion Hstep; subst; clear Hstep.
    assert (terminal (status (shared c))) as Ht.
    { destruct (terminal_dec (status (shared c))) as [Ht | Hnt]; [assumption|].
      exfalso. destruct (Hquiet Hnt) as (Hq & _). rewrite Forall_lookup in Hq.
      exact (Hq i _ Hi). }
    destruct (Hdec Ht) as [r (Hpcs & Hchans & Hst)].
    destruct (Hpcs i _ Hi) as [-> Herr].
    destruct (deliver_fields r (subscribers (shared c)) c) as (Hsh & Hcs & Hw).
    assert (forall subs c0 k x,
               (forall k x, chans c0 !! k = Some (Some x) -> similar r x) ->
               chans (foldl (fun c s => send c s r) c0 subs) !! k = Some (Some x) ->
               similar r x) as Hdeliver.
    { induction subs as [|s subs IH]; intros c0 k x Hall Hk; simpl in Hk; [eauto|].
      apply (IH (send c0 s r) k x); [|assumption].
      intros k' x' Hk'. simpl in Hk'. destruct (decide (s = k')) as [->|Hne].
      - apply list_lookup_insert_Some in Hk'.
        destruct Hk' as [(_ & Heq & _) | [Habs _]]; [|congruence].
        inversion Heq. left. reflexivity.
      - rewrite list_lookup_insert_ne in Hk' by assumption. eauto. }
    assert (countPc inBroadcast (callers c) <= 1)%nat as Hone.
    { rewrite (wi_lock _ Hwait). destruct (subscribersL (shared c)); lia. }
    split; simpl; rewrite ?Hsh, ?Hcs.
    + intros Hnt. contradiction.
    + intros _. exists r. split; [|split]; simpl; rewrite ?Hsh, ?Hcs.
      * intros k p Hk. destruct (decide (i = k)) as [->|Hne].
        -- apply list_lookup_insert_Some in Hk.
           destruct Hk as [(_ & <- & _) | [Habs _]]; [|congruence].
           simpl. left. reflexivity.
        -- rewrite list_lookup_insert_ne in Hk by assumption.
           pose proof (Hpcs k p Hk) as Hp.
           assert (inBroadcast p = false) as Hnb.
           { eapply (countPc_unique inBroadcast (callers c) i k); eauto. }
           destruct p; simpl in *; try discriminate; assumption.
      * intros k x Hk. eapply Hdeliver; eassumption.
      * unfold statusOk in *. simpl.
        destruct (status (shared c)); try contradiction; [|assumption].
        destruct Hst as (e0 & -> & _). exists e0. split; [reflexivity|].
        left. apply Herr. reflexivity.
  - discriminate.
  - discriminate.
Qed.

Lemma all_invariants_run (base : nat) (schedule : list nat) (c c' : Config) :
  protocolInv base c -> waitInv c -> outcomeInv c ->
  run depBuild m options schedule c = Some c' ->
  protocolInv base c' /\ waitInv c' /\ outcomeInv c'.
Proof.
  revert c. induction schedule as [|i schedule IH]; intros c Hprot Hwait Hout Hrun;
    simpl in Hrun.
  - inversion Hrun; subst. auto.
  - destruct (step depBuild m options i c) as [c1|] eqn:Hstep; [|discriminate].
    apply (IH c1); [| | |assumption].
    + exact (proj1 (protocolInv_step _ _ _ _ _ _ _ Hprot Hstep)).
    + eapply waitInv_step; eassumption.
    + eapply outcomeInv_step; eassumption.
Qed.

End Outcomes.

(** X13: All callers of Build receive one outcome: in every configuration that
    concurrent callers can reach there is one outcome of the build, [nil]
    when the status is Succeeded and an error when it is Failed, and every
    caller that has returned has returned that outcome, or, for a failed
    build, the error that [fmt.Errorf] makes from the recorded message;
    nobody returns before the status is Succeeded or Failed. *)
Theorem callers_receive_one_outcome `{Collaborators}
    (depBuild : Module -> BuildOptions -> error) (m : Module)
    (options : nat -> BuildOptions) (n : nat) (w : World)
    (schedule : list nat) (c : Config) :
  run depBuild m options schedule (initial n w) = Some c ->
  exists r,
    (forall i e, callers c !! i = Some (Returned e) ->
       (e = r \/
        exists e0, r = Some e0 /\ e = Some (Errorf (Sprintf0 (Error_ e0)))) /\
       (status (shared c) = BuildStatusSucceeded \/
        status (shared c) = BuildStatusFailed)) /\
    (status (shared c) = BuildStatusSucceeded -> r = None) /\
    (status (shared c) = BuildStatusFailed -> exists e0, r = Some e0).
Proof.
  intros Hrun.
  destruct (all_invariants_run depBuild m options _ _ _ _
              (protocolInv_initial n w) (waitInv_initial n w)
              (outcomeInv_initial n w) Hrun) as (_ & _ & [Hquiet Hdec]).
  destruct (terminal_dec (status (shared c))) as [Ht | Hnt].
  - destruct (Hdec Ht) as [r (Hpcs & _ & Hst)]. exists r.
    unfold statusOk in Hst. split; [|split].
    + intros i e Hi. split; [exact (Hpcs i _ Hi) | exact Ht].
    + intros Hs. rewrite Hs in Hst. tauto.
    + intros Hs. rewrite Hs in Hst. destruct Hst as (e0 & -> & _). eauto.
  - exists None. split; [|split].
    + intros i e Hi. exfalso. destruct (Hquiet Hnt) as (Hq & _).
      rewrite Forall_lookup in Hq. exact (Hq i _ Hi).
    + intros Hs. exfalso. apply Hnt. left. exact Hs.
    + intros Hs. exfalso. apply Hnt. right. exact Hs.
Qed.

(** Two callers of a build that fails, the second subscribing while the
    first builds: both return the error of the build. *)
Lemma callers_receive_one_outcome_witness :
  exists c,
    run noDeps web (fun _ => defaultOptions) [0; 0; 1; 1; 1; 0; 0; 0; 0; 1]%nat
        (initial 2 (mkWorld brokenFS [])) = Some c /\
    callers c
    = [Returned (Some (Errorf
         "docker: The command '/bin/sh -c exit 1' returned a non-zero code: 1"));
       Returned (Some (Errorf
         "docker: The command '/bin/sh -c exit 1' returned a non-zero code: 1"))] /\
    exists r : error,
      status (shared c) = BuildStatusFailed -> exists e0, r = Some e0.
Proof.
  eexists. split; [vm_compute; reflexivity|]. split; [reflexivity|].
  edestruct (callers_receive_one_outcome noDeps web (fun _ => defaultOptions)
               2 (mkWorld brokenFS []) [0; 0; 1; 1; 1; 0; 0; 0; 0; 1]%nat)
    as (r & _ & _ & Hfailed); [vm_compute; reflexivity|].
  exists r. exact Hfailed.
Defined.

(** X14: The panic statements of the coordination code.  In every
    configuration that concurrent callers can reach by steps of claim,
    Status, subscribe, broadcast and the body of Build, in the runs in
    which that body returns, a caller that has panicked has done so with
    "unreachable" and the status is Failed: of the panics written in
    Build and the dereference of [m.err] in subscribe, only the
    [panic("unreachable")] of the Failed branch of Build is ever reached,
    and only while the status is Failed.  (A panic inside the body, such
    as the one of createDockerInclude at a bare instruction, is no step
    of the callers.) *)
Theorem callers_panic_only_when_failed `{Collaborators}
    (depBuild : Module -> BuildOptions -> error) (m : Module)
    (options : nat -> BuildOptions) (n : nat) (w : World)
    (schedule : list nat) (c : Config) (i : nat) (msg : string) :
  run depBuild m options schedule (initial n w) = Some c ->
  callers c !! i = Some (Panicked msg) ->
  status (shared c) = BuildStatusFailed /\ msg = "unreachable".
Proof.
  intros Hrun Hi.
  destruct (all_invariants_run depBuild m options _ _ _ _
              (protocolInv_initial n w) (waitInv_initial n w)
              (outcomeInv_initial n w) Hrun) as (_ & _ & [Hquiet Hdec]).
  destruct (terminal_dec (status (shared c))) as [Ht | Hnt].
  - destruct (Hdec Ht) as [r (Hpcs & _ & _)]. exact (Hpcs i _ Hi).
  - exfalso. destruct (Hquiet Hnt) as (Hq & _).
    rewrite Forall_lookup in Hq. exact (Hq i _ Hi).
Qed.

(** The second of two callers arrives between the two stores of
    broadcast. *)
Lemma callers_panic_only_when_failed_witness :
  exists c,
    run noDeps web (fun _ => defaultOptions) [0; 0; 0; 0; 1; 1; 1]%nat
        (initial 2 (mkWorld brokenFS [])) = Some c /\
    callers c !! 1%nat = Some (Panicked "unreachable") /\
    status (shared c) = BuildStatusFailed.
Proof.
  eexists. split; [vm_compute; reflexivity|]. split; [reflexivity|].
  refine (proj1 (callers_panic_only_when_failed noDeps web (fun _ => defaultOptions)
            2 (mkWorld brokenFS []) [0; 0; 0; 0; 1; 1; 1]%nat _ 1%nat "unreachable"
            _ _)); [vm_compute; reflexivity | reflexivity].
Defined.

(** ** createDockerInclude: panics and duplicates *)

Section DockerIncludeMore.

Variable fs0 : FileSystem.
Variable contextPath : string.

Lemma bareInstruction_fields (text : string) :
  bareInstruction text = true ->
  (Nat.eqb (String.length (strings.TrimSpace text)) 0
   || strings.HasPrefix (strings.TrimSpace text) "#")%bool = false /\
  (strings.HasPrefix (strings.TrimSpace text) "COPY"
   || strings.HasPrefix (strings.TrimSpace text) "ADD")%bool = true /\
  strings.Fields (strings.TrimSpace text) !! 1%nat = None.
Proof.
  unfold bareInstruction. intros Hbare.
  apply andb_prop in Hbare. destruct Hbare as [Hbare Hlen].
  apply andb_prop in Hbare. destruct Hbare as [Hskip Hcopy].
  apply negb_true_iff in Hskip. apply Nat.leb_le in Hlen.
  repeat split; [exact Hskip | exact Hcopy |].
  apply lookup_ge_None. lia.
Qed.

(** The loop over the lines [pre ++ rest] is the loop over [rest] entered
    with what the loop over [pre] has gathered, unless that loop has
    already returned an error or panicked. *)
Lemma includeLoop_app (pre rest addedPaths : list string) :
  includeLoop fs0 contextPath addedPaths (pre ++ rest)
  = match includeLoop fs0 contextPath addedPaths pre with
    | Ok (Some added, None) => includeLoop fs0 contextPath added rest
    | other => other
    end.
Proof.
  revert addedPaths. induction pre as [|text pre IH]; intros addedPaths; simpl.
  - reflexivity.
  - destruct (_ || _)%bool; [apply IH|].
    destruct (_ || _)%bool; [|apply IH].
    destruct (strings.Fields _ !! 1%nat) as [rel|]; [|reflexivity].
    destruct (negb _); [|apply IH].
    destruct (os.Stat _ _) as [info|]; [apply IH | reflexivity].
Qed.

(** What the loop does with its first line: it goes on with the pattern
    list, perhaps extended; or it returns an error; or the line is a bare
    instruction and the loop panics. *)
Lemma includeLoop_first (text : string) (addedPaths : list string) :
  (exists added, forall lines,
     includeLoop fs0 contextPath addedPaths (text :: lines)
     = includeLoop fs0 contextPath added lines) \/
  (exists e, forall lines,
     includeLoop fs0 contextPath addedPaths (text :: lines) = Ok (None, Some e)) \/
  (bareInstruction text = true /\
   forall lines,
     includeLoop fs0 contextPath addedPaths (text :: lines)
     = Panic "index out of range").
Proof.
  unfold bareInstruction. simpl.
  destruct (_ || _)%bool; [left; eexists; reflexivity|].
  destruct (_ || _)%bool; [|left; eexists; reflexivity].
  destruct (strings.Fields _ !! 1%nat) as [rel|] eqn:Hfield.
  - destruct (negb _); [|left; eexists; reflexivity].
    destruct (os.Stat _ _) as [info|].
    + left; eexists; reflexivity.
    + right; left. eexists. reflexivity.
  - right; right. split; [|reflexivity]. simpl.
    apply Nat.leb_le. apply lookup_ge_None in Hfield. lia.
Qed.

(** The loop returns the patterns without an error, or an error without
    patterns, or it panics with an index out of range at a bare
    instruction that it reaches. *)
Lemma includeLoop_results (lines addedPaths : list string) :
  (exists patterns, includeLoop fs0 contextPath addedPaths lines = Ok (Some patterns, None)) \/
  (exists e, includeLoop fs0 contextPath addedPaths lines = Ok (None, Some e)) \/
  (includeLoop fs0 contextPath addedPaths lines = Panic "index out of range" /\
   exists pre text rest added,
     lines = pre ++ text :: rest /\ bareInstruction text = true /\
     includeLoop fs0 contextPath addedPaths pre = Ok (Some added, None)).
Proof.
  revert addedPaths. induction lines as [|text lines IH]; intros addedPaths.
  { left. eexists. reflexivity. }
  destruct (includeLoop_first text addedPaths)
    as [[added Hgo] | [[e Herr] | [Hbare Hpanic]]].
  - rewrite Hgo.
    destruct (IH added)
      as [Hok | [Herr | [Hpanic (pre & text0 & rest & added0 & Hl & Hb & Hpre)]]];
      [left; exact Hok | right; left; exact Herr |].
    right; right. split; [exact Hpanic|].
    exists (text :: pre), text0, rest, added0.
    split; [rewrite Hl; reflexivity|]. split; [exact Hb|].
    rewrite Hgo. exact Hpre.
  - right; left. exists e. apply Herr.
  - right; right. split; [apply Hpanic|].
    exists [], text, lines, addedPaths. auto.
Qed.

End DockerIncludeMore.

(** X15: createDockerInclude panics exactly at a bare instruction: it panics,
    with an index out of range, if and only if among the lines that the
    scanner yields on the opened recipe there is one whose trimmed text
    starts with COPY or ADD and has no second field, and the lines before
    it have been worked off without an error.  (The scanner yields no
    line of a recipe that cannot be opened or is a directory, and none
    after a line that is too long for it.) *)
Theorem createDockerInclude_panics_at_bare_instruction
    (fs0 : FileSystem) (contextPath dockerfilePath msg : string) :
  createDockerInclude fs0 contextPath dockerfilePath = Panic msg <->
  msg = "index out of range" /\
  exists pre text rest added,
    scannedLines (os.Open fs0 dockerfilePath).1 = pre ++ text :: rest /\
    bareInstruction text = true /\
    includeLoop fs0 contextPath [] pre = Ok (Some added, None).
Proof.
  unfold createDockerInclude. split.
  - destruct (os.Open fs0 dockerfilePath) as [f [e|]] eqn:Hopen;
      [discriminate|].
    intros Hpanic. simpl.
    destruct (includeLoop_results fs0 contextPath (scannedLines f) [])
      as [[patterns Hok] | [[e Herr] | [Hp (pre & text & rest & added & Hl & Hb & Hpre)]]];
      [congruence | congruence |].
    split; [congruence|].
    exists pre, text, rest, added. auto.
  - intros [-> (pre & text & rest & added & Hl & Hb & Hpre)].
    destruct (os.Open fs0 dockerfilePath) as [f [e|]] eqn:Hopen; simpl in Hl.
    { exfalso. unfold os.Open in Hopen.
      destruct (fs0 !! dockerfilePath); inversion Hopen; subst.
      destruct pre; discriminate Hl. }
    rewrite Hl, includeLoop_app, Hpre.
    destruct (includeLoop_first fs0 contextPath text added)
      as [[added' Hgo] | [[e Herr] | [_ Hpanic]]]; [| |apply Hpanic].
    + exfalso. specialize (Hgo []). simpl in Hgo.
      apply bareInstruction_fields in Hb. destruct Hb as (Hskip & Hcopy & Hfield).
      rewrite Hskip, Hcopy, Hfield in Hgo. discriminate.
    + exfalso. specialize (Herr []). simpl in Herr.
      apply bareInstruction_fields in Hb. destruct Hb as (Hskip & Hcopy & Hfield).
      rewrite Hskip, Hcopy, Hfield in Herr. discriminate.
Qed.

(** The recipe [FROM scratch], [COPY]: reading the include list panics. *)
Lemma createDockerInclude_panics_at_bare_instruction_witness :
  createDockerInclude bareFS "/ctx" "/ctx/Dockerfile" = Panic "index out of range".
Proof.
  apply (proj2 (createDockerInclude_panics_at_bare_instruction
                  bareFS "/ctx" "/ctx/Dockerfile" "index out of range")).
  split; [reflexivity|].
  exists ["FROM scratch"], "COPY", [], [].
  repeat split; vm_compute; reflexivity.
Defined.

(** X16: When every line that the scanner yields on the opened recipe and that
    starts with COPY or ADD has a second field, createDockerInclude does
    not panic: it returns either the pattern list and a [nil] error, or no
    matcher and an error. *)
Theorem createDockerInclude_returns
    (fs0 : FileSystem) (contextPath dockerfilePath : string) :
  Forall (fun text => bareInstruction text = false)
         (scannedLines (os.Open fs0 dockerfilePath).1) ->
  (exists patterns,
     createDockerInclude fs0 contextPath dockerfilePath = Ok (Some patterns, None)) \/
  (exists e,
     createDockerInclude fs0 contextPath dockerfilePath = Ok (None, Some e)).
Proof.
  unfold createDockerInclude.
  destruct (os.Open fs0 dockerfilePath) as [f [e|]]; simpl.
  { intros _. right. eexists. reflexivity. }
  intros Hbare.
  destruct (includeLoop_results fs0 contextPath (scannedLines f) [])
    as [Hok | [Herr | [_ (pre & text & rest & added & Hl & Hb & _)]]];
    [left; exact Hok | right; exact Herr |].
  exfalso. rewrite Hl in Hbare.
  apply Forall_app in Hbare. destruct Hbare as [_ Hbare].
  apply Forall_cons_1 in Hbare. destruct Hbare as [Hfalse _]. congruence.
Qed.

(** A recipe with no-break spaces around COPY: the instruction has its
    argument, and the directory is listed. *)
Lemma createDockerInclude_returns_witness :
  createDockerInclude nbspFS "/ctx" "/ctx/Dockerfile" = Ok (Some ["app"], None) /\
  ((exists patterns,
      createDockerInclude nbspFS "/ctx" "/ctx/Dockerfile" = Ok (Some patterns, None)) \/
   (exists e,
      createDockerInclude nbspFS "/ctx" "/ctx/Dockerfile" = Ok (None, Some e))).
Proof.
  split; [vm_compute; reflexivity|].
  apply (createDockerInclude_returns nbspFS "/ctx" "/ctx/Dockerfile").
  replace (scannedLines (os.Open nbspFS "/ctx/Dockerfile").1)
    with ["FROM scratch"; nbsp +:+ "COPY" +:+ nbsp +:+ "app /srv"]
    by (vm_compute; reflexivity).
  repeat (apply Forall_cons_2; [vm_compute; reflexivity|]). apply Forall_nil_2.
Defined.

(** X17: The pattern list that createDockerInclude returns holds no pattern
    twice, however often the recipe copies the same path or paths below
    the same directory. *)
Theorem createDockerInclude_patterns_distinct
    (fs0 : FileSystem) (contextPath dockerfilePath : string)
    (patterns : list string) :
  createDockerInclude fs0 contextPath dockerfilePath = Ok (Some patterns, None) ->
  NoDup patterns.
Proof.
  unfold createDockerInclude.
  destruct (os.Open fs0 dockerfilePath) as [f [e|]]; [discriminate|].
  apply includeLoop_NoDup. constructor.
Qed.

(** The staged recipe names [app] twice, once as a directory and once in
    the path of a file: the list has it once. *)
Lemma createDockerInclude_patterns_distinct_witness :
  createDockerInclude stagedFS "/ctx" "/ctx/Dockerfile"
  = Ok (Some ["app"; "app/main.go"], None) /\
  NoDup ["app"; "app/main.go"].
Proof.
  split; [vm_compute; reflexivity|].
  apply (createDockerInclude_patterns_distinct stagedFS "/ctx" "/ctx/Dockerfile").
  vm_compute. reflexivity.
Defined.

(** ** The backend dispatch *)

Section Dispatch.

Context `{Collaborators}.


End Dispatch.



(** ** addFileToBuildContext *)

Section AddFile.

Variable fs0 : FileSystem.

Lemma Split_nonempty (s : string) : strings.Split s <> [].
Proof.
  destruct s as [|c s]; simpl; [discriminate|].
  destruct (Ascii.eqb c "/"); [discriminate|].
  destruct (strings.Split s); discriminate.
Qed.

(** What the loop returns on a path with at least one component. *)
Lemma addFileLoop_results (filePath : string) (parts : list string)
    (c : gmap string Entity) :
  parts <> [] ->
  match addFileLoop fs0 filePath parts c with
  | Panic msg => strings.HasPrefix msg "interface conversion" = true
  | Ok (None, _) => True
  | Ok (Some e, _) =>
      exists msg, e = Errorf msg /\
        (strings.HasPrefix msg "failed to stat '" = true \/
         strings.HasPrefix msg "failed to read file: " = true)
  end.
Proof.
  revert filePath c. induction parts as [|part rest IH]; intros filePath c Hne;
    [congruence|].
  cbn [addFileLoop].
  assert (forall info contents,
    rest <> [] ->
    match
      match addFileLoop fs0 (filepath.Join [filePath; part]) rest contents with
      | Ok (err, contents') =>
          Ok (err, <[part := DirectoryEntity info contents']> c)
      | Panic msg => Panic msg
      end
    with
    | Panic msg => strings.HasPrefix msg "interface conversion" = true
    | Ok (None, _) => True
    | Ok (Some e, _) =>
        exists msg, e = Errorf msg /\
          (strings.HasPrefix msg "failed to stat '" = true \/
           strings.HasPrefix msg "failed to read file: " = true)
    end) as Hdescend.
  { intros info contents Hrest.
    specialize (IH (filepath.Join [filePath; part]) contents Hrest).
    destruct (addFileLoop fs0 (filepath.Join [filePath; part]) rest contents)
      as [[[e|] contents']|msg]; exact IH. }
  destruct (c !! part) as [e|].
  - destruct rest as [|part' rest]; [exact I|].
    destruct e as [info content|info contents]; [reflexivity|].
    apply Hdescend. discriminate.
  - destruct (os.Stat fs0 _) as [info|].
    + destruct rest as [|part' rest]; [|apply Hdescend; discriminate].
      destruct (os.ReadFile fs0 _) as [body [e|]]; [|exact I].
      eexists. split; [reflexivity|]. right.
      destruct (Error_ e); reflexivity.
    + eexists. split; [reflexivity|]. left.
      destruct (filepath.Join [filePath; part]); reflexivity.
Qed.

(** When the loop has returned [nil], the loop on the map it has left
    returns [nil] again, without looking at the file system and without a
    change. *)
Lemma addFileLoop_twice (fs1 : FileSystem) (filePath filePath1 : string)
    (parts : list string) (c c' : gmap string Entity) :
  addFileLoop fs0 filePath parts c = Ok (None, c') ->
  addFileLoop fs1 filePath1 parts c' = Ok (None, c').
Proof.
  revert filePath filePath1 c c'.
  induction parts as [|part rest IH]; intros filePath filePath1 c c' Hrun;
    [discriminate|].
  cbn [addFileLoop] in Hrun.
  assert (forall info contents,
    rest <> [] ->
    match addFileLoop fs0 (filepath.Join [filePath; part]) rest contents with
    | Ok (err, contents') =>
        Ok (err, <[part := DirectoryEntity info contents']> c)
    | Panic msg => Panic msg
    end = Ok (None, c') ->
    addFileLoop fs1 filePath1 (part :: rest) c' = Ok (None, c')) as Hdescend.
  { intros info contents Hrest Hinner.
    destruct (addFileLoop fs0 (filepath.Join [filePath; part]) rest contents)
      as [[err contents']|msg] eqn:Hsub; [|discriminate].
    inversion Hinner; subst err c'. clear Hinner.
    cbn [addFileLoop]. rewrite lookup_insert_eq.
    destruct rest as [|part' rest]; [congruence|].
    rewrite (IH _ (filepath.Join [filePath1; part]) _ _ Hsub).
    rewrite insert_insert_eq. reflexivity. }
  destruct (c !! part) as [e|] eqn:Hc.
  - destruct rest as [|part' rest].
    + inversion Hrun; subst c'. cbn [addFileLoop]. rewrite Hc. reflexivity.
    + destruct e as [info content|info contents]; [discriminate|].
      eapply Hdescend; [discriminate | exact Hrun].
  - destruct (os.Stat fs0 _) as [info|]; [|discriminate].
    destruct rest as [|part' rest].
    + destruct (os.ReadFile fs0 _) as [body [e|]]; [discriminate|].
      inversion Hrun; subst c'. cbn [addFileLoop].
      rewrite lookup_insert_eq. reflexivity.
    + eapply Hdescend; [discriminate | exact Hrun].
Qed.

(** When the loop has returned [nil], the map holds an entity at the
    path: the entity that was there before, or a new file entity with the
    content of the file. *)
Lemma addFileLoop_adds (filePath : string) (parts : list string)
    (c c' : gmap string Entity) :
  addFileLoop fs0 filePath parts c = Ok (None, c') ->
  exists e, lookupPath parts c' = Some e /\
    (lookupPath parts c = Some e \/
     exists info,
       os.Stat fs0 (pathOf filePath parts) = Some info /\
       e = FileEntity info (os.ReadFile fs0 (pathOf filePath parts)).1 /\
       (os.ReadFile fs0 (pathOf filePath parts)).2 = None).
Proof.
  revert filePath c c'.
  induction parts as [|part rest IH]; intros filePath c c' Hrun; [discriminate|].
  unfold pathOf. cbn [addFileLoop lookupPath fold_left] in Hrun |- *.
  fold (pathOf (filepath.Join [filePath; part]) rest).
  destruct (c !! part) as [e|] eqn:Hc.
  - destruct rest as [|part' rest].
    + inversion Hrun; subst c'. exists e. rewrite Hc. auto.
    + destruct e as [info content|info contents]; [discriminate|].
      destruct (addFileLoop fs0 (filepath.Join [filePath; part]) (part' :: rest) contents)
        as [[err contents']|msg] eqn:Hsub; [|discriminate].
      inversion Hrun; subst err c'. clear Hrun.
      rewrite lookup_insert_eq.
      destruct (IH _ _ _ Hsub) as (e & Hlook & Hwhich).
      exists e. split; [exact Hlook | exact Hwhich].
  - destruct (os.Stat fs0 (filepath.Join [filePath; part])) as [info|] eqn:Hstat;
      [|discriminate].
    destruct rest as [|part' rest].
    + unfold pathOf. cbn [fold_left].
      destruct (os.ReadFile fs0 (filepath.Join [filePath; part])) as [body [e|]] eqn:Hread;
        [discriminate|].
      inversion Hrun; subst c'. rewrite lookup_insert_eq.
      eexists. split; [reflexivity|]. right. exists info. cbn [fst snd]. auto.
    + destruct (addFileLoop fs0 (filepath.Join [filePath; part]) (part' :: rest) ∅)
        as [[err contents']|msg] eqn:Hsub; [|discriminate].
      inversion Hrun; subst err c'. clear Hrun.
      rewrite lookup_insert_eq.
      destruct (IH _ _ _ Hsub) as (e & Hlook & Hwhich).
      exists e. split; [exact Hlook|]. right.
      destruct Hwhich as [Hold | Hnew]; [|exact Hnew].
      exfalso. clear -Hold. simpl in Hold.
      destruct rest; [rewrite lookup_empty in Hold | rewrite lookup_empty in Hold];
        discriminate.
Qed.

(** The loop changes the map under the first component only. *)
Lemma addFileLoop_frame (filePath : string) (parts : list string)
    (c c' : gmap string Entity) (err : error) (name : string) :
  addFileLoop fs0 filePath parts c = Ok (err, c') ->
  Some name <> head parts ->
  c' !! name = c !! name.
Proof.
  destruct parts as [|part rest]; cbn [addFileLoop head]; intros Hrun Hname.
  { inversion Hrun. reflexivity. }
  assert (name <> part) as Hne by congruence.
  assert (forall info contents,
    match addFileLoop fs0 (filepath.Join [filePath; part]) rest contents with
    | Ok (err, contents') =>
        Ok (err, <[part := DirectoryEntity info contents']> c)
    | Panic msg => Panic msg
    end = Ok (err, c') -> c' !! name = c !! name) as Hdescend.
  { intros info contents Hinner.
    destruct (addFileLoop fs0 _ rest contents) as [[err0 contents']|msg];
      [|discriminate].
    inversion Hinner; subst. apply lookup_insert_ne. congruence. }
  destruct (c !! part) as [e|].
  - destruct rest as [|part' rest]; [inversion Hrun; reflexivity|].
    destruct e as [info content|info contents]; [discriminate|].
    eapply Hdescend, Hrun.
  - destruct (os.Stat fs0 _) as [info|]; [|inversion Hrun; reflexivity].
    destruct rest as [|part' rest]; [|eapply Hdescend, Hrun].
    destruct (os.ReadFile fs0 _) as [body [e|]]; inversion Hrun; subst;
      [reflexivity|].
    apply lookup_insert_ne. congruence.
Qed.

End AddFile.

(** X20: The last statement of addFileToBuildContext is never reached: the
    function returns [nil], or an error that says that a component could
    not be found or that the file could not be read, or it panics in the
    type assertion on a component that the context holds as a file; it
    never returns the error [failed to add file]. *)
Theorem addFileToBuildContext_never_fails_to_add
    (fs0 : FileSystem) (dir relativePath : string) (c : gmap string Entity) :
  match addFileToBuildContext fs0 dir relativePath c with
  | Panic msg => strings.HasPrefix msg "interface conversion" = true
  | Ok (None, _) => True
  | Ok (Some e, _) =>
      exists msg, e = Errorf msg /\
        (strings.HasPrefix msg "failed to stat '" = true \/
         strings.HasPrefix msg "failed to read file: " = true) /\
        msg <> "failed to add file"
  end.
Proof.
  unfold addFileToBuildContext.
  pose proof (addFileLoop_results fs0 dir (strings.Split relativePath) c
                (Split_nonempty relativePath)) as Hres.
  destruct (addFileLoop fs0 dir (strings.Split relativePath) c)
    as [[[e|] c']|msg]; [|exact I | exact Hres].
  destruct Hres as (msg & -> & Hprefix).
  exists msg. split; [reflexivity|]. split; [exact Hprefix|].
  intros ->. destruct Hprefix as [Hprefix | Hprefix]; discriminate Hprefix.
Qed.

(** X21: Adding a file that has been added is no work: after
    addFileToBuildContext has returned [nil], adding the same relative
    path to the context it has left returns [nil] and leaves the context
    as it is, whatever the file system holds by then. *)
Theorem addFileToBuildContext_twice
    (fs0 fs1 : FileSystem) (dir dir1 relativePath : string)
    (c c' : gmap string Entity) :
  addFileToBuildContext fs0 dir relativePath c = Ok (None, c') ->
  addFileToBuildContext fs1 dir1 relativePath c' = Ok (None, c').
Proof.
  unfold addFileToBuildContext. apply addFileLoop_twice.
Qed.

Lemma addFileToBuildContext_twice_witness :
  addFileToBuildContext recipeFS "/ctx" "Dockerfile" appContext
  = Ok (None, recipeContext) /\
  addFileToBuildContext ∅ "/elsewhere" "Dockerfile" recipeContext
  = Ok (None, recipeContext).
Proof.
  split; [vm_compute; reflexivity|].
  apply (addFileToBuildContext_twice recipeFS ∅ "/ctx" "/elsewhere" "Dockerfile"
           appContext recipeContext).
  vm_compute. reflexivity.
Defined.

(** X22: After addFileToBuildContext has returned [nil] the context holds an
    entity at the relative path: the entity that it held there before, or
    a new file entity with the content of the file at that path below
    [dir]. *)
Theorem addFileToBuildContext_adds
    (fs0 : FileSystem) (dir relativePath : string) (c c' : gmap string Entity) :
  addFileToBuildContext fs0 dir relativePath c = Ok (None, c') ->
  exists e, lookupPath (strings.Split relativePath) c' = Some e /\
    (lookupPath (strings.Split relativePath) c = Some e \/
     exists info,
       os.Stat fs0 (pathOf dir (strings.Split relativePath)) = Some info /\
       e = FileEntity info
             (os.ReadFile fs0 (pathOf dir (strings.Split relativePath))).1 /\
       (os.ReadFile fs0 (pathOf dir (strings.Split relativePath))).2 = None).
Proof.
  unfold addFileToBuildContext. intros Hrun.
  exact (addFileLoop_adds fs0 dir (strings.Split relativePath) c c' Hrun).
Qed.

(** The program file is added to an empty context below a new directory
    entity. *)
Lemma addFileToBuildContext_adds_witness :
  addFileToBuildContext recipeFS "/ctx" "app/main.go" ∅ = Ok (None, appContext) /\
  lookupPath ["app"; "main.go"] appContext
  = Some (FileEntity (File "package main") "package main").
Proof.
  split; [vm_compute; reflexivity|].
  destruct (addFileToBuildContext_adds recipeFS "/ctx" "app/main.go" ∅ appContext)
    as (e & Hlook & Hwhich); [vm_compute; reflexivity|].
  destruct Hwhich as [Hold | (info & Hstat & -> & _)].
  - vm_compute in Hold. discriminate Hold.
  - vm_compute in Hstat. inversion Hstat; subst info.
    vm_compute in Hlook |- *. exact Hlook.
Defined.

(** X23: addFileToBuildContext touches the context under the first component
    of the path only: whether it returns [nil] or an error, every other
    name of the context holds what it held. *)
Theorem addFileToBuildContext_frame
    (fs0 : FileSystem) (dir relativePath : string) (c c' : gmap string Entity)
    (err : error) (name : string) :
  addFileToBuildContext fs0 dir relativePath c = Ok (err, c') ->
  Some name <> head (strings.Split relativePath) ->
  c' !! name = c !! name.
Proof.
  unfold addFileToBuildContext. apply addFileLoop_frame.
Qed.

Lemma addFileToBuildContext_frame_witness :
  recipeContext !! "app" = appContext !! "app".
Proof.
  apply (addFileToBuildContext_frame recipeFS "/ctx" "Dockerfile"
           appContext recipeContext None "app").
  - vm_compute. reflexivity.
  - vm_compute. discriminate.
Defined.

(** ** Concurrent callers: the body of Build runs once *)

Section Once.

Context `{Collaborators}.
Variable depBuild : Module -> BuildOptions -> error.
Variable m : Module.
Variable options : nat -> BuildOptions.

Lemma deliver_inv (e : error) (subs : list nat) (c : Config) (k : nat) (x : error) :
  chans (foldl (fun c s => send c s e) c subs) !! k = Some (Some x) ->
  x = e \/ chans c !! k = Some (Some x).
Proof.
  revert c. induction subs as [|s subs IH]; intros c Hk; simpl in Hk; [auto|].
  destruct (IH _ Hk) as [-> | Hold]; [auto|].
  simpl in Hold. destruct (decide (s = k)) as [->|Hne].
  - apply list_lookup_insert_Some in Hold.
    destruct Hold as [(_ & Heq & _) | [Habs _]]; [inversion Heq; auto | congruence].
  - rewrite list_lookup_insert_ne in Hold by assumption. auto.
Qed.

Lemma run_length (schedule : list nat) (c c' : Config) :
  run depBuild m options schedule c = Some c' ->
  length (callers c') = length (callers c).
Proof.
  revert c. induction schedule as [|i schedule IH]; intros c Hrun; simpl in Hrun.
  - inversion Hrun. reflexivity.
  - destruct (step depBuild m options i c) as [c1|] eqn:Hstep; [|discriminate].
    rewrite (IH _ Hrun).
    destruct (step_callers depBuild m options _ _ _ Hstep) as (p & q & _ & -> & _).
    apply length_insert.
Qed.

(** A step of caller [i] to the control point [q] that leaves the world
    alone. *)
Lemma hasRun_update (r : error) (w1 : World) (c : Config) (sh' : Shared)
    (chs' : list (option error)) (i : nat) (q : pc) :
  hasRun r w1 c -> pcFits r q -> sharedFits r sh' ->
  (forall k e, chs' !! k = Some (Some e) -> similar r e) ->
  hasRun r w1 (mkConfig sh' chs' (<[i := q]> (callers c)) (world c)).
Proof.
  intros [Hw Hpcs Hchs Hsh] Hq Hsh' Hchs'. split; simpl; try assumption.
  intros k p Hk. destruct (decide (i = k)) as [->|Hne].
  - apply list_lookup_insert_Some in Hk.
    destruct Hk as [(_ & <- & _) | [Habs _]]; [assumption | congruence].
  - rewrite list_lookup_insert_ne in Hk by assumption. eauto.
Qed.

Lemma similar_sent (r : error) (chs : list (option error)) (i : nat) (e : error) :
  (forall k x, chs !! k = Some (Some x) -> similar r x) -> similar r e ->
  forall k x, <[i := Some e]> chs !! k = Some (Some x) -> similar r x.
Proof.
  intros Hchs He k x Hk. destruct (decide (i = k)) as [->|Hne].
  - apply list_lookup_insert_Some in Hk.
    destruct Hk as [(_ & Heq & _) | [Habs _]]; [|congruence].
    inversion Heq; subst. assumption.
  - rewrite list_lookup_insert_ne in Hk by assumption. eauto.
Qed.

Lemma hasRun_step (r : error) (w1 : World) (c c' : Config) (i : nat) :
  hasRun r w1 c -> step depBuild m options i c = Some c' -> hasRun r w1 c'.
Proof.
  intros Hran Hstep. unfold step in Hstep.
  destruct (callers c !! i) as [p|] eqn:Hi; [|discriminate].
  pose proof (hr_callers _ _ _ Hran i _ Hi) as Hp.
  pose proof (hr_shared _ _ _ Hran) as Hsh.
  pose proof (hr_chans _ _ _ Hran) as Hchs.
  destruct Hsh as (Hnp & Herr & Hsucc & Hfail).
  assert (sharedFits r (shared c)) as Hsh by (repeat split; assumption).
  destruct p; simpl in Hstep, Hp.
  - (* AtClaim *)
    unfold claim in Hstep.
    destruct (decide (status (shared c) = BuildStatusPending)); [contradiction|].
    inversion Hstep; subst; clear Hstep.
    apply (hasRun_update r w1 c); [assumption | exact I | assumption | assumption].
  - (* AtStatus *)
    inversion Hstep; subst; clear Hstep.
    apply (hasRun_update r w1 c); [assumption | | assumption | assumption].
    unfold Status. destruct (status (shared c)); simpl; try exact I.
    left. symmetry. apply Hsucc. reflexivity.
  - (* AtLoadErr *)
    inversion Hstep; subst; clear Hstep.
    apply (hasRun_update r w1 c); [assumption | | assumption | assumption].
    destruct (err (shared c)) as [box|] eqn:Hbox; simpl; [|exact I].
    destruct (Herr box eq_refl) as (e1 & -> & ->). right. exists e1. auto.
  - (* AtSubscribe *)
    destruct (subscribersL (shared c)); [discriminate|].
    inversion Hstep; subst; clear Hstep.
    unfold subscribe, Status.
    destruct (status (shared c)) eqn:Hs.
    + apply (hasRun_update r w1 c); [assumption | exact I | assumption | assumption].
    + apply (hasRun_update r w1 c); [assumption | exact I | | assumption].
      repeat split; simpl; rewrite ?Hs; try assumption; discriminate.
    + destruct (err (shared c)) as [box|] eqn:Hbox.
      * apply (hasRun_update r w1 c); [assumption | exact I | assumption |].
        apply similar_sent; [assumption|].
        destruct (Herr box eq_refl) as (e1 & -> & ->). right. exists e1. auto.
      * apply (hasRun_update r w1 c); [assumption | exact I | assumption | assumption].
    + apply (hasRun_update r w1 c); [assumption | exact I | assumption |].
      apply similar_sent; [assumption|]. left. symmetry. apply Hsucc. reflexivity.
  - (* Waiting *)
    destruct (chans c !! i) as [[e|]|] eqn:Hc; try discriminate.
    inversion Hstep; subst; clear Hstep.
    apply (hasRun_update r w1 c); [assumption | | assumption | assumption].
    exact (Hchs i e Hc).
  - (* Building *)
    contradiction.
  - (* AtBroadcast *)
    destruct (subscribersL (shared c)); [discriminate|].
    inversion Hstep; subst; clear Hstep.
    apply (hasRun_update r w1 c); [assumption | reflexivity | | assumption].
    repeat split; simpl; assumption.
  - (* AtSetStatus *)
    subst e. destruct r as [e'|]; inversion Hstep; subst; clear Hstep.
    + apply (hasRun_update (Some e') w1 c); [assumption | reflexivity | | assumption].
      repeat split; simpl; try assumption; discriminate.
    + apply (hasRun_update None w1 c); [assumption | reflexivity | | assumption].
      repeat split; simpl; try assumption; discriminate.
  - (* AtStoreErr *)
    inversion Hstep; subst; clear Hstep.
    apply (hasRun_update (Some e) w1 c); [assumption | reflexivity | | assumption].
    repeat split; simpl; try assumption.
    intros msg Hmsg. inversion Hmsg; subst. exists e. auto.
  - (* AtDeliver *)
    subst e. inversion Hstep; subst; clear Hstep.
    destruct (deliver_fields r (subscribers (shared c)) c) as (Hsh' & Hcs' & Hw').
    unfold setPc, setShared. simpl. rewrite Hsh', Hcs', Hw'.
    apply (hasRun_update r w1 c); [assumption | left; reflexivity | |].
    + repeat split; simpl; assumption.
    + intros k x Hk. apply deliver_inv in Hk.
      destruct Hk as [-> | Hold]; [left; reflexivity | eauto].
  - discriminate.
  - discriminate.
Qed.

Lemma notRun_step (base : nat) (w0 : World) (c c' : Config) (i : nat) :
  protocolInv base c -> notRun w0 c ->
  step depBuild m options i c = Some c' ->
  notRun w0 c' \/
  ((i < length (callers c'))%nat /\
   hasRun (Module_Build_body depBuild m (options i) w0).1
          (Module_Build_body depBuild m (options i) w0).2 c').
Proof.
  intros Hprot [Hw Hnt Hpcs Hchs Herr] Hstep. subst w0. unfold step in Hstep.
  destruct (callers c !! i) as [p|] eqn:Hi; [|discriminate].
  pose proof Hpcs as Hpcs'. rewrite Forall_lookup in Hpcs'.
  pose proof (Hpcs' i _ Hi) as Hp.
  destruct p; simpl in Hstep, Hp; try contradiction.
  - (* AtClaim *)
    unfold claim in Hstep.
    destruct (decide (status (shared c) = BuildStatusPending)) as [Hpend|Hpend];
      inversion Hstep; subst; clear Hstep; left; split; simpl;
      try reflexivity; try assumption;
      try (apply Forall_insert; [assumption | exact I]).
    intros [Ht | Ht]; discriminate Ht.
  - (* AtStatus *)
    inversion Hstep; subst; clear Hstep.
    pose proof (not_pending _ _ _ _ Hprot Hi ltac:(discriminate)) as Hnp.
    left; split; simpl; try reflexivity; try assumption.
    apply Forall_insert; [assumption|].
    unfold Status. destruct (status (shared c)) eqn:Hs; simpl; try exact I;
      [congruence | apply Hnt; right; reflexivity | apply Hnt; left; reflexivity].
  - (* AtSubscribe *)
    destruct (subscribersL (shared c)); [discriminate|].
    inversion Hstep; subst; clear Hstep.
    pose proof (not_pending _ _ _ _ Hprot Hi ltac:(discriminate)) as Hnp.
    unfold subscribe, Status.
    destruct (status (shared c)) eqn:Hs; try contradiction.
    + left; split; simpl; rewrite ?Hs; try reflexivity; try assumption.
      apply Forall_insert; [assumption | exact I].
    + exfalso. apply Hnt. right. reflexivity.
    + exfalso. apply Hnt. left. reflexivity.
  - (* Waiting *)
    destruct (chans c !! i) as [[e|]|] eqn:Hc; try discriminate.
    rewrite Forall_lookup in Hchs. specialize (Hchs i _ Hc). discriminate.
  - (* Building *)
    destruct (Module_Build_body depBuild m (options i) (world c)) as [e w'].
    inversion Hstep; subst; clear Hstep. right. simpl.
    split; [rewrite length_insert; eapply lookup_lt_Some; eassumption|].
    pose proof (owner_in_progress _ _ _ _ Hprot Hi eq_refl) as Hs.
    pose proof (inv_owner _ _ Hprot) as Hown.
    split; simpl.
    + reflexivity.
    + intros k p Hk. destruct (decide (i = k)) as [->|Hne].
      * apply list_lookup_insert_Some in Hk.
        destruct Hk as [(_ & <- & _) | [Habs _]]; [reflexivity | congruence].
      * rewrite list_lookup_insert_ne in Hk by assumption.
        assert (ownsBuild p = false) as Hnot.
        { apply (countPc_unique ownsBuild (callers c) i k Building p);
            [|assumption|reflexivity|assumption|assumption].
          rewrite Hown. destruct (decide _); lia. }
        pose proof (Hpcs' k _ Hk) as Hbefore.
        destruct p; simpl in *; try exact I; try contradiction; discriminate.
    + intros k x Hk. rewrite Forall_lookup in Hchs.
      specialize (Hchs k _ Hk). discriminate.
    + repeat split; simpl; rewrite ?Hs, ?Herr; try discriminate.
Qed.

Lemma once_run (base : nat) (w0 : World) (schedule : list nat) (c c' : Config) :
  protocolInv base c ->
  notRun w0 c \/
    (exists i, (i < length (callers c))%nat /\
       hasRun (Module_Build_body depBuild m (options i) w0).1
              (Module_Build_body depBuild m (options i) w0).2 c) ->
  run depBuild m options schedule c = Some c' ->
  notRun w0 c' \/
    (exists i, (i < length (callers c'))%nat /\
       hasRun (Module_Build_body depBuild m (options i) w0).1
              (Module_Build_body depBuild m (options i) w0).2 c').
Proof.
  revert c. induction schedule as [|i schedule IH]; intros c Hprot Honce Hrun;
    simpl in Hrun.
  - inversion Hrun; subst. exact Honce.
  - destruct (step depBuild m options i c) as [c1|] eqn:Hstep; [|discriminate].
    apply (IH c1); [|clear IH|assumption].
    + exact (proj1 (protocolInv_step _ _ _ _ _ _ _ Hprot Hstep)).
    + destruct Honce as [Hnot | (i0 & Hlt & Hran)].
      * destruct (notRun_step _ _ _ _ _ Hprot Hnot Hstep) as [Hnot' | [Hlt' Hran']];
          [left; assumption | right; exists i; auto].
      * right. exists i0. split; [|eapply hasRun_step; eassumption].
        destruct (step_callers depBuild m options _ _ _ Hstep) as (p & q & _ & -> & _).
        rewrite length_insert. assumption.
Qed.

Lemma notRun_initial (n : nat) (w : World) : notRun w (initial n w).
Proof.
  split; simpl.
  - reflexivity.
  - intros [Ht | Ht]; discriminate Ht.
  - apply Forall_replicate. exact I.
  - apply Forall_replicate. reflexivity.
  - reflexivity.
Qed.

End Once.

(** X24: Concurrent callers share one run of the build.  However many callers
    there are and however they interleave, either nothing has happened
    yet (the world is the initial one, nobody has left Build, the status
    is Pending or InProgress) or the body of Build (dependencies, then
    Module.doBuild) has run exactly once, for one of the callers, from the
    initial world: the world is the world that this run has left, every
    caller that has returned has returned the result of this run, or the
    error that [fmt.Errorf] makes from its message, and the status is
    Succeeded only if the run returned [nil] and Failed only if it
    returned an error. *)
Theorem concurrent_callers_share_one_run `{Collaborators}
    (depBuild : Module -> BuildOptions -> error) (m : Module)
    (options : nat -> BuildOptions) (n : nat) (w : World)
    (schedule : list nat) (c : Config) :
  run depBuild m options schedule (initial n w) = Some c ->
  (world c = w /\
   (forall k p, callers c !! k = Some p -> finished p = false) /\
   ~ terminal (status (shared c))) \/
  (exists i, (i < n)%nat /\
     world c = (Module_Build_body depBuild m (options i) w).2 /\
     (forall k e, callers c !! k = Some (Returned e) ->
        similar (Module_Build_body depBuild m (options i) w).1 e) /\
     (status (shared c) = BuildStatusSucceeded ->
        (Module_Build_body depBuild m (options i) w).1 = None) /\
     (status (shared c) = BuildStatusFailed ->
        (Module_Build_body depBuild m (options i) w).1 <> None)).
Proof.
  intros Hrun.
  pose proof (run_length depBuild m options _ _ _ Hrun) as Hlen.
  simpl in Hlen. rewrite length_replicate in Hlen.
  destruct (once_run depBuild m options _ w _ _ _
              (protocolInv_initial n w) (or_introl (notRun_initial n w)) Hrun)
    as [[Hw Hnt Hpcs _ _] | (i & Hlt & [Hw Hpcs _ (_ & _ & Hsucc & Hfail)])].
  - left. split; [exact Hw|]. split; [|exact Hnt].
    intros k p Hk. rewrite Forall_lookup in Hpcs. specialize (Hpcs k p Hk).
    destruct p; simpl in *; try reflexivity; contradiction.
  - right. exists i. split; [lia|]. split; [exact Hw|].
    split; [|split; assumption].
    intros k e Hk. exact (Hpcs k _ Hk).
Qed.

(** Two callers of a build that succeeds, the second subscribing while
    the first builds: both return [nil], and the world is the world after
    one run of the build. *)
Lemma concurrent_callers_share_one_run_witness :
  exists c,
    run noDeps web (fun _ => defaultOptions) [0; 0; 1; 1; 1; 0; 0; 0; 1]%nat
        (initial 2 (mkWorld staleFS [])) = Some c /\
    callers c = [Returned None; Returned None] /\
    world c = (Module_Build_body noDeps web defaultOptions (mkWorld staleFS [])).2 /\
    backendCalls (trace (world c)) = 1%nat.
Proof.
  eexists. split; [vm_compute; reflexivity|]. split; [reflexivity|].
  split; [|vm_compute; reflexivity].
  edestruct (concurrent_callers_share_one_run noDeps web (fun _ => defaultOptions)
               2 (mkWorld staleFS []) [0; 0; 1; 1; 1; 0; 0; 0; 1]%nat)
    as [[Hw _] | (i & _ & Hw & _)]; [vm_compute; reflexivity | |].
  - vm_compute in Hw. discriminate Hw.
  - exact Hw.
Defined.

(** ** The error of the kaniko backend *)

Section Kaniko.

Lemma lastLine_blank (k i : nat) (parts : list string) :
  (i + k <= length parts)%nat ->
  (forall j part, (i <= j)%nat -> (j < i + k)%nat -> parts !! j = Some part ->
                  strings.TrimSpace part = "") ->
  lastLine (i + k) parts = lastLine i parts.
Proof.
  induction k as [|k IH]; intros Hlen Hblank.
  - rewrite Nat.add_0_r. reflexivity.
  - replace (i + S k)%nat with (S (i + k)) by lia. simpl.
    destruct (parts !! (i + k)%nat) as [part|] eqn:Hpart.
    + rewrite (Hblank (i + k)%nat part) by (assumption || lia). simpl.
      apply IH; [lia|]. intros j p Hle Hlt. apply Hblank; lia.
    + apply lookup_ge_None in Hpart. lia.
Qed.

End Kaniko.

(** X25: When the command in the pod has ended with exit code 1 and has written
    to its standard error, buildKaniko returns as the error of the build
    the last line of that text that is not blank, without the white space
    around it, formatted once more by [fmt.Errorf]; when every line is
    blank it returns the error of the command. *)
Theorem kaniko_error_is_last_line_of_stderr `{Collaborators}
    (e : goerror) (stderr : string) :
  strings_Contains (Error_ e) "command terminated with exit code 1" = true ->
  stderr <> "" ->
  (forall pre line post,
     strings_SplitLines stderr = pre ++ line :: post ->
     strings.TrimSpace line <> "" ->
     Forall (fun part => strings.TrimSpace part = "") post ->
     kanikoResult (Some e) stderr
     = Ok (Some (Errorf (Sprintf0 (strings.TrimSpace line))))) /\
  (Forall (fun part => strings.TrimSpace part = "") (strings_SplitLines stderr) ->
   kanikoResult (Some e) stderr = Ok (Some e)).
Proof.
  intros Hcode Hne. unfold kanikoResult. rewrite Hcode.
  assert ((0 <? String.length stderr)%nat = true) as ->.
  { destruct stderr; [congruence | reflexivity]. }
  split.
  - intros pre line post Hparts Hline Hpost. rewrite Hparts.
    replace (length (pre ++ line :: post)) with (S (length pre) + length post)%nat
      by (rewrite length_app; simpl; lia).
    rewrite lastLine_blank.
    + simpl. rewrite list_lookup_middle by reflexivity.
      apply String.eqb_neq in Hline. rewrite Hline. reflexivity.
    + rewrite length_app. simpl. lia.
    + intros j part Hle Hlt Hj.
      rewrite Forall_lookup in Hpost.
      apply (Hpost (j - S (length pre))%nat).
      rewrite <- Hj. rewrite lookup_app_r by lia.
      replace (j - length pre)%nat with (S (j - S (length pre))) by lia.
      reflexivity.
  - intros Hblank.
    rewrite (lastLine_blank (length (strings_SplitLines stderr)) 0); [reflexivity|lia|].
    intros j part _ _ Hj. rewrite Forall_lookup in Hblank. exact (Hblank j part Hj).
Qed.

(** The text that kaniko leaves when a [RUN] step fails, followed by a
    line that holds a no-break space and by an empty line. *)
Lemma kaniko_error_is_last_line_of_stderr_witness :
  kanikoResult (Some (Errorf "command terminated with exit code 1"))
    ("INFO[0001] Running: [/bin/sh -c exit 1]
error building image: error building stage: waiting for process to exit: exit status 1
" +:+ nbsp +:+ "
")
  = Ok (Some (Errorf (Sprintf0
      "error building image: error building stage: waiting for process to exit: exit status 1"))).
Proof.
  apply (proj1 (kaniko_error_is_last_line_of_stderr
                  (Errorf "command terminated with exit code 1")
                  ("INFO[0001] Running: [/bin/sh -c exit 1]
error building image: error building stage: waiting for process to exit: exit status 1
" +:+ nbsp +:+ "
") ltac:(vm_compute; reflexivity) ltac:(discriminate))
           ["INFO[0001] Running: [/bin/sh -c exit 1]"]
           "error building image: error building stage: waiting for process to exit: exit status 1"
           [nbsp; ""]).
  - vm_compute. reflexivity.
  - vm_compute. discriminate.
  - repeat constructor.
Defined.

(** ** The logger *)

(** X26: NewZapLoggerFromEnv panics exactly when the level name is unknown and
    debugging is off: it panics if and only if DEBUG is unset or is [0]
    and LOG_LEVEL is set to a name that is none of the seven level names.
    With DEBUG set to anything else, the empty string included, the
    level is debug and LOG_LEVEL is not looked at. *)
Theorem NewZapLoggerFromEnv_panics_iff (env : gmap string string) (msg : string) :
  logger.NewZapLoggerFromEnv env = Panic msg <->
  (env !! "DEBUG" = None \/ env !! "DEBUG" = Some "0") /\
  exists logLevel,
    env !! "LOG_LEVEL" = Some logLevel /\
    ~ In logLevel (List.map fst logger.levelNames) /\
    msg = "unknown log level '" +:+ logLevel +:+ "'".
Proof.
  unfold logger.NewZapLoggerFromEnv. split.
  - intros Hpanic.
    assert (env !! "DEBUG" = None \/ env !! "DEBUG" = Some "0") as Hdebug.
    { destruct (env !! "DEBUG") as [debug|]; [|auto].
      destruct (String.eqb debug "0") eqn:Hd; [|discriminate].
      apply String.eqb_eq in Hd. subst. auto. }
    split; [exact Hdebug|].
    assert (match env !! "DEBUG" with
            | Some debug => negb (String.eqb debug "0")
            | None => false
            end = false) as Hoff.
    { destruct Hdebug as [-> | ->]; reflexivity. }
    rewrite Hoff in Hpanic.
    destruct (env !! "LOG_LEVEL") as [logLevel|]; [|discriminate].
    exists logLevel. split; [reflexivity|].
    repeat (match type of Hpanic with
            | context [String.eqb logLevel ?name] =>
                let Hn := fresh "Hn" in
                destruct (String.eqb logLevel name) eqn:Hn; [discriminate|];
                apply String.eqb_neq in Hn
            end).
    split; [|congruence].
    simpl. intuition congruence.
  - intros [Hdebug (logLevel & Hlevel & Hnot & ->)].
    assert (match env !! "DEBUG" with
            | Some debug => negb (String.eqb debug "0")
            | None => false
            end = false) as ->.
    { destruct Hdebug as [-> | ->]; reflexivity. }
    rewrite Hlevel. simpl in Hnot.
    repeat (match goal with
            | |- context [String.eqb logLevel ?name] =>
                let Hn := fresh "Hn" in
                destruct (String.eqb logLevel name) eqn:Hn;
                [apply String.eqb_eq in Hn; exfalso; apply Hnot; rewrite Hn; tauto|]
            end).
    reflexivity.
Qed.

(** LOG_LEVEL=verbose, with debugging switched off by DEBUG=0. *)
Lemma NewZapLoggerFromEnv_panics_iff_witness :
  logger.NewZapLoggerFromEnv {[ "DEBUG" := "0"; "LOG_LEVEL" := "verbose" ]}
  = Panic "unknown log level 'verbose'".
Proof.
  apply (proj2 (NewZapLoggerFromEnv_panics_iff
                  {[ "DEBUG" := "0"; "LOG_LEVEL" := "verbose" ]}
                  "unknown log level 'verbose'")).
  split; [right; vm_compute; reflexivity|].
  exists "verbose". split; [vm_compute; reflexivity|]. split; [|reflexivity].
  simpl. intuition discriminate.
Defined.
